(** * Sequential page extractor of [typhoon_7b_extractor.py]

    A shallow embedding of the page-by-page OCR extraction loop
    ([extract_pdf_multipage]), of the directory walker ([process_directory])
    and of the credential lookup ([get_api_key_priority_order]), together
    with the properties of the specification that concern them.

    Modelling conventions.
    - A Python [str] is a [string]; its characters stand for the code points
      0..255, on which [lower] and [isspace] below agree with Python's
      [str.lower] and [str.isspace].
    - Python integers ([page_num], [retries]) are [Z].
    - The OCR backend is a script: the list of the results of the successive
      calls of [ocr_document] for one document.  A call either returns a
      response or raises an [Exception] whose [str(e)] is recorded.
    - Effects are explicit: every function returns the list of the events it
      performed (directory creation, sleeps, backend calls, file writes)
      next to the way it completed.  Console output ([safe_print]) has no
      influence on control flow and is not recorded.
    - Floating point and randomness (the jitter added to each sleep) are not
      modelled; a backoff sleep is recorded with its integer base
      [2 ** retries]. *)

From Stdlib Require Import List String Ascii ZArith Lia Bool Arith.
From Stdlib Require Import Sorting.Sorted Sorting.Permutation.
From Stdlib Require Import DecimalString DecimalZ DecimalNat.
Import ListNotations.

Open Scope string_scope.
Open Scope list_scope.
Open Scope Z_scope.

(** ** Strings *)

Module PyStr.

(** Code point of a character. *)
Definition ord (c : ascii) : N := N_of_ascii c.

Definition in_range (lo hi : N) (c : ascii) : bool :=
  (N.leb lo (ord c) && N.leb (ord c) hi)%bool.

(** [str.isspace] on one character: TAB..CR, FS..US, SPACE, NEL, NBSP. *)
Definition isspace (c : ascii) : bool :=
  (in_range 9 13 c || in_range 28 32 c
   || N.eqb (ord c) 133 || N.eqb (ord c) 160)%bool.

(** [str.lower] on one character: A..Z and the Latin-1 capitals
    (U+00C0..U+00DE except the multiplication sign U+00D7). *)
Definition lower_char (c : ascii) : ascii :=
  if (in_range 65 90 c || in_range 192 214 c || in_range 216 222 c)%bool
  then ascii_of_N (ord c + 32)
  else c.

Fixpoint lower (s : string) : string :=
  match s with
  | EmptyString => EmptyString
  | String c t => String (lower_char c) (lower t)
  end.

Fixpoint lstrip (s : string) : string :=
  match s with
  | EmptyString => EmptyString
  | String c t => if isspace c then lstrip t else s
  end.

Fixpoint rstrip (s : string) : string :=
  match s with
  | EmptyString => EmptyString
  | String c t =>
      match rstrip t with
      | EmptyString => if isspace c then EmptyString else String c EmptyString
      | t' => String c t'
      end
  end.

(** [s.strip()] *)
Definition strip (s : string) : string := rstrip (lstrip s).

(** [needle in hay] *)
Fixpoint contains (needle hay : string) : bool :=
  (String.prefix needle hay
   || match hay with
      | EmptyString => false
      | String _ t => contains needle t
      end)%bool.

(** Truth value of a [str]: non-empty. *)
Definition truthy (s : string) : bool :=
  match s with EmptyString => false | String _ _ => true end.

(** [hay.endswith(suffix)], used for the glob pattern of the walker. *)
Definition endswith (hay suffix : string) : bool :=
  let n := String.length hay in
  let m := String.length suffix in
  (Nat.leb m n && String.eqb (String.substring (n - m) m hay) suffix)%bool.

Definition newline : string := String (ascii_of_nat 10) EmptyString.

(** The separator of ["\n\n".join(pages)]. *)
Definition blank_line : string := (newline ++ newline)%string.

(** [sep.join(l)] *)
Definition join (sep : string) (l : list string) : string := String.concat sep l.

End PyStr.

(** ** Python values met by the extractor *)

(** An exception instance: its class name and [str(e)].  Every exception of
    the model is an instance of [Exception]. *)
Record exn : Type := Exn { exn_class : string; exn_str : string }.

#[local] Set Warnings "-register-all".

(** What [json.loads] produces. An object keeps its members in document
    order; a later member overrides an earlier one with the same key. *)
Inductive json : Type :=
| JObject (members : list (string * json))
| JArray (items : list json)
| JString (s : string)
| JInt (n : Z)
| JFloat (repr : string)
| JBool (b : bool)
| JNull.

(** [type(v).__name__] *)
Definition type_name (v : json) : string :=
  match v with
  | JObject _ => "dict"
  | JArray _ => "list"
  | JString _ => "str"
  | JInt _ => "int"
  | JFloat _ => "float"
  | JBool _ => "bool"
  | JNull => "NoneType"
  end.

Definition AttributeError (v : json) (attr : string) : exn :=
  Exn "AttributeError"
      ("'" ++ type_name v ++ "' object has no attribute '" ++ attr ++ "'")%string.

(** [d.get(key, default)] on the members of a decoded object. *)
Fixpoint dict_get (members : list (string * json)) (key : string) (default : json) : json :=
  match members with
  | [] => default
  | (k, v) :: tl => dict_get tl key (if String.eqb k key then v else default)
  end.

(** A response of the backend, seen through the two tests the parser applies
    to it: [isinstance(resp, str)] and [json.loads(resp)]. *)
Inductive response : Type :=
| Plain_str (s : string)               (* a str that json.loads rejects (JSONDecodeError) *)
| Json_str (s : string) (parsed : json) (* a str that json.loads decodes to [parsed] *)
| Non_str (repr : string).             (* any other object; [repr] is str(resp) *)

(** [_parse_typhoon_response(resp)]; a returned [str] is a [JString]. *)
Definition _parse_typhoon_response (resp : response) : exn + json :=
  match resp with
  | Plain_str s => inr (JString s)
  | Json_str s parsed =>
      match parsed with
      | JObject members => inr (dict_get members "natural_text" (JString s))
      | _ => inl (AttributeError parsed "get")
      end
  | Non_str repr => inr (JString repr)
  end.

(** [v.strip()] *)
Definition method_strip (v : json) : exn + string :=
  match v with
  | JString s => inr (PyStr.strip s)
  | _ => inl (AttributeError v "strip")
  end.

(** ** Paths and the file system *)

(** A path is the list of its components. *)
Definition Path : Type := list string.

Module PathLib.

(** [p.name]: the final component. *)
Definition name (p : Path) : string := last p "".

(** [p / child] for a child without separator. *)
Definition joinpath (p : Path) (child : string) : Path := p ++ [child].

(** [s.rfind('.')]: index of the last dot. *)
Fixpoint rfind_dot (s : string) : option nat :=
  match s with
  | EmptyString => None
  | String c t =>
      match rfind_dot t with
      | Some i => Some (S i)
      | None => if Ascii.eqb c "."%char then Some O else None
      end
  end.

(** [p.stem]: the name without its suffix; a leading or trailing dot does
    not start a suffix. *)
Definition stem (p : Path) : string :=
  let n := name p in
  match rfind_dot n with
  | Some i =>
      if (Nat.ltb 0 i && Nat.ltb i (String.length n - 1))%bool
      then String.substring 0 i n
      else n
  | None => n
  end.

End PathLib.

(** The answers of the operating system: whether a directory can be created
    (or already exists) and whether a file can be opened for writing.  A
    refused operation raises [OSError]. *)
Record filesystem : Type := {
  can_mkdir : Path -> bool;
  can_write : Path -> bool;
}.

Definition OSError (p : Path) : exn :=
  Exn "OSError" (PyStr.join "/" p).

(** ** The backend and the events of a run *)

(** Result of one call [ocr_document(pdf_or_image_path, task_type, page_num)]. *)
Inductive backend_result : Type :=
| Returns (resp : response)
| Raises (e : exn).

Definition script : Type := list backend_result.

Inductive event : Type :=
| Mkdir (p : Path)                            (* output_dir.mkdir(parents=True, exist_ok=True) *)
| Sleep_min_delay                             (* time.sleep(MIN_DELAY + jitter) *)
| Ocr_call (page_num : Z) (r : backend_result) (* ocr_document(..., page_num=page_num) and its result *)
| Sleep_backoff (base_backoff : Z)            (* time.sleep(backoff_time) *)
| Write_text (p : Path) (data : string)       (* out_path.write_text(data, encoding="utf-8") *)
| Sleep_between_files.                        (* time.sleep(0.2 + jitter) of the walker *)

(** ** [extract_pdf_multipage] *)

Definition MAX_RETRIES : Z := 5.

(** The local variables of [extract_pdf_multipage] that the loops update. *)
Record locals : Type := Locals {
  page_num : Z;
  pages : list string;
  retries : Z;
  page_success : bool;
}.

Definition next_page (st : locals) : locals :=
  Locals (page_num st + 1) (pages st) (retries st) (page_success st).

Definition append_page (text : string) (st : locals) : locals :=
  Locals (page_num st) (pages st ++ [text]) (retries st) (page_success st).

Definition set_page_success (b : bool) (st : locals) : locals :=
  Locals (page_num st) (pages st) (retries st) b.

Definition set_retries (n : Z) (st : locals) : locals :=
  Locals (page_num st) (pages st) n (page_success st).

(** Where a [return] statement of the function stands: in the handler of the
    end-of-document signal, inside the loops, or after the outer loop. *)
Inductive site : Type := In_loop | After_loop.

(** How a statement completes.  [Blocked]: the script holds no result for
    the next backend call.  [Out_of_fuel]: the bound on the iterations of
    the outer loop was reached. *)
Inductive completion : Type :=
| Normal (st : locals) (rest : script)
| Break (st : locals) (rest : script)
| Continue (st : locals) (rest : script)
| Return (from : site) (v : option Path)
| Raise (e : exn)
| Blocked
| Out_of_fuel.

Definition emit (evs : list event) (r : list event * completion) : list event * completion :=
  (evs ++ fst r, snd r).

(** The test of the first [if] of the handler, on [msg = str(e).lower()]. *)
Definition end_of_doc_signal (msg : string) : bool :=
  ((PyStr.contains "page" msg
    && (PyStr.contains "not found" msg || PyStr.contains "invalid" msg
        || PyStr.contains "out of range" msg))
   || (PyStr.contains "index" msg && PyStr.contains "range" msg)
   || PyStr.contains "wrong page range" msg
   || (PyStr.contains "first page" msg && PyStr.contains "after the last page" msg))%bool.

(** The test of the second [if] of the handler. *)
Definition rate_limit_signal (e : exn) (msg : string) : bool :=
  (PyStr.contains "429" (exn_str e)
   || PyStr.contains "rate limit" msg
   || PyStr.contains "too many requests" msg)%bool.

(** The statements of the [try] block up to the assignment of [text]. *)
Definition read_text (r : backend_result) : exn + string :=
  match r with
  | Raises e => inl e
  | Returns resp =>
      match _parse_typhoon_response resp with
      | inl e => inl e
      | inr v => method_strip v
      end
  end.

(** The write-and-return statements shared by the end-of-document handler
    and by the code after the outer loop. *)
Definition write_and_return (fs : filesystem) (out_path : Path) (from : site)
    (st : locals) : list event * completion :=
  match pages st with
  | _ :: _ =>
      if can_write fs out_path
      then ([Write_text out_path (PyStr.join PyStr.blank_line (pages st))],
            Return from (Some out_path))
      else ([], Raise (OSError out_path))
  | [] => ([], Return from None)
  end.

(** The [except Exception as e] handler. *)
Definition handler (fs : filesystem) (out_path : Path) (e : exn)
    (st : locals) (rest : script) : list event * completion :=
  let msg := PyStr.lower (exn_str e) in
  if end_of_doc_signal msg then write_and_return fs out_path In_loop st
  else if rate_limit_signal e msg then
    let st1 := set_retries (retries st + 1) st in
    ([Sleep_backoff (2 ^ retries st1)], Continue st1 rest)
  else ([], Break (next_page st) rest).

(** One iteration of the inner loop: the [try] statement, given the result
    [r] of the backend call it makes. *)
Definition attempt (fs : filesystem) (out_path : Path) (r : backend_result)
    (st : locals) (rest : script) : list event * completion :=
  let delay := if 1 <? page_num st then [Sleep_min_delay] else [] in
  emit (delay ++ [Ocr_call (page_num st) r])
    match read_text r with
    | inr text =>
        let st1 := if PyStr.truthy text then append_page text st else st in
        ([], Break (next_page (set_page_success true st1)) rest)
    | inl e => handler fs out_path e st rest
    end.

(** [while retries < MAX_RETRIES: ...] *)
Fixpoint retry_loop (fs : filesystem) (out_path : Path) (s : script)
    (st : locals) : list event * completion :=
  if retries st <? MAX_RETRIES then
    match s with
    | [] => ([], Blocked)
    | r :: rest =>
        let '(evs, c) := attempt fs out_path r st rest in
        match c with
        | Normal st1 rest1 | Continue st1 rest1 =>
            emit evs (retry_loop fs out_path rest st1)
        | Break st1 rest1 => (evs, Normal st1 rest1)
        | _ => (evs, c)
        end
    end
  else ([], Normal st s).

(** The first two statements of the body of the outer loop. *)
Definition fresh (st : locals) : locals :=
  set_page_success false (set_retries 0 st).

(** The last statement of the body of the outer loop:
    [if not page_success and retries >= MAX_RETRIES: page_num += 1]. *)
Definition skip_if_exhausted (st : locals) : locals :=
  if (negb (page_success st) && (MAX_RETRIES <=? retries st))%bool
  then next_page st
  else st.

(** The body of [while True: ...]. *)
Definition page_body (fs : filesystem) (out_path : Path) (s : script)
    (st : locals) : list event * completion :=
  let '(evs, c) := retry_loop fs out_path s (fresh st) in
  match c with
  | Normal st1 rest => (evs, Normal (skip_if_exhausted st1) rest)
  | _ => (evs, c)
  end.

(** [while True: ...], bounded by [fuel] iterations. *)
Fixpoint page_loop (fuel : nat) (fs : filesystem) (out_path : Path) (s : script)
    (st : locals) : list event * completion :=
  match fuel with
  | O => ([], Out_of_fuel)
  | S fuel' =>
      let '(evs, c) := page_body fs out_path s st in
      match c with
      | Normal st1 rest | Continue st1 rest =>
          emit evs (page_loop fuel' fs out_path rest st1)
      | Break st1 rest => (evs, Normal st1 rest)
      | _ => (evs, c)
      end
  end.

(** How a call of a function ends. *)
Inductive outcome (A : Type) : Type :=
| Returned (from : site) (v : A)
| Raised (e : exn)
| Starved                      (* waiting for a backend result the script lacks *)
| Unfinished.                  (* fuel exhausted *)
Arguments Returned {A} from v.
Arguments Raised {A} e.
Arguments Starved {A}.
Arguments Unfinished {A}.

Definition initial_locals : locals := Locals 1 [] 0 false.

Definition output_path (pdf_path output_dir : Path) : Path :=
  PathLib.joinpath output_dir (PathLib.stem pdf_path ++ ".txt")%string.

(** [extract_pdf_multipage(pdf_path, task_type, output_dir, worker_id)] run
    against the backend script [s].  [task_type] is only passed on to the
    backend and [worker_id] only feeds log lines and jitter. Each iteration
    of the outer loop consumes a backend result or leaves the function, so
    [S (List.length s)] iterations are enough (see [page_loop_flat] and
    [extract_finishes]). *)
Definition extract_pdf_multipage (fs : filesystem) (s : script)
    (pdf_path output_dir : Path) : list event * outcome (option Path) :=
  if can_mkdir fs output_dir then
    let out_path := output_path pdf_path output_dir in
    let '(evs, c) := page_loop (S (List.length s)) fs out_path s initial_locals in
    match c with
    | Normal st _ | Break st _ | Continue st _ =>
        (* This should never be reached, but just in case *)
        let '(evs', c') := write_and_return fs out_path After_loop st in
        (Mkdir output_dir :: evs ++ evs',
         match c' with
         | Return from v => Returned from v
         | Raise e => Raised e
         | _ => Unfinished
         end)
    | Return from v => (Mkdir output_dir :: evs, Returned from v)
    | Raise e => (Mkdir output_dir :: evs, Raised e)
    | Blocked => (Mkdir output_dir :: evs, Starved)
    | Out_of_fuel => (Mkdir output_dir :: evs, Unfinished)
    end
  else ([], Raised (OSError output_dir)).

(** ** [process_directory] *)

(** What the walker sees of its environment: the file system, the names of
    the entries of a directory ([None] when the path does not exist, in the
    order the operating system lists them) and, for each document, the
    script of the backend. *)
Record world : Type := {
  fs_of : filesystem;
  listdir : Path -> option (list string);
  backend : Path -> script;
}.

(** The entries matched by [dir_path.glob("*.pdf")]. *)
Definition glob_pdf (dir_path : Path) (names : list string) : list Path :=
  map (PathLib.joinpath dir_path)
      (filter (fun n => PyStr.endswith n ".pdf") names).

Fixpoint insert_by_name (p : Path) (l : list Path) : list Path :=
  match l with
  | [] => [p]
  | q :: tl =>
      if String.leb (PathLib.name p) (PathLib.name q)
      then p :: l
      else q :: insert_by_name p tl
  end.

(** [sorted(l, key=lambda p: p.name)]: a stable sort on the names, compared
    code point by code point. *)
Definition sorted_by_name (l : list Path) : list Path :=
  fold_right insert_by_name [] l.

(** The [for i, pdf in enumerate(pdfs, 1)] loop; [n] is [len(pdfs)].  The
    result is [None] when the script of some document ends before the
    extraction of that document does. *)
Fixpoint walk (w : world) (output_dir : Path) (pdfs : list Path) (i n : Z)
    (results : list Path) : list event * option (list Path) :=
  match pdfs with
  | [] => ([], Some results)
  | pdf :: tl =>
      let '(evs, o) := extract_pdf_multipage (fs_of w) (backend w pdf) pdf output_dir in
      let pause := if i <? n then [Sleep_between_files] else [] in
      let continue_with (results1 : list Path) :=
        let '(evs', r) := walk w output_dir tl (i + 1) n results1 in
        (evs ++ pause ++ evs', r) in
      match o with
      | Returned _ (Some out) => continue_with (results ++ [out])
      | Returned _ None => continue_with results
      | Raised _ => continue_with results       (* except Exception as e: log *)
      | Starved | Unfinished => (evs, None)
      end
  end.

Definition process_directory (w : world) (dir_path output_dir : Path)
    : list event * option (list Path) :=
  match listdir w dir_path with
  | None => ([], Some [])
  | Some names =>
      let pdfs := sorted_by_name (glob_pdf dir_path names) in
      match pdfs with
      | [] => ([], Some [])
      | _ => walk w output_dir pdfs 1 (Z.of_nat (List.length pdfs)) []
      end
  end.

(** ** [get_api_key_priority_order] *)

(** The argument of [SystemExit] and the exit status Python derives from it. *)
Inductive exit_arg : Type :=
| Exit_none
| Exit_int (n : Z)
| Exit_message (s : string).

Definition exit_status (a : exit_arg) : Z :=
  match a with
  | Exit_none => 0
  | Exit_int n => n mod 256
  | Exit_message _ => 1
  end.

(** [os.environ] *)
Definition environ : Type := string -> option string.

(** Truth value of an [Optional[str]]. *)
Definition truthy_opt (o : option string) : bool :=
  match o with
  | Some s => PyStr.truthy s
  | None => false
  end.

Definition no_key_message : string :=
  "No API key found. Provide via: command line, conda env var (TYPHOON_OCR_API_KEY), or env var".

(** The string held by an [Optional[str]] known to be truthy. *)
Definition str_of (o : option string) : string :=
  match o with
  | Some s => s
  | None => ""
  end.

(** [inl a] stands for [raise SystemExit(a)]. *)
Definition get_api_key_priority_order (env : environ) (provided_key : option string)
    : exit_arg + string :=
  (* 1. Provided via command line *)
  if (truthy_opt provided_key
      && negb (existsb (String.eqb (PyStr.lower (str_of provided_key)))
                 ["none"; "dummy"; ""]))%bool
  then inr (str_of provided_key)
  else
    (* 2. Conda environment variable *)
    let conda_key := env "TYPHOON_OCR_API_KEY" in
    if truthy_opt conda_key then inr (str_of conda_key)
    else
      (* 3. Regular environment variable *)
      let regular_key := env "OPENAI_API_KEY" in
      if truthy_opt regular_key then inr (str_of regular_key)
      else inl (Exit_message no_key_message).

(** [args.api_key_named or args.api_key] of [parse_args]. *)
Definition command_line_key (api_key_named api_key : option string) : option string :=
  if truthy_opt api_key_named then api_key_named else api_key.

(** ** Readings of a run *)

(** The three-way classification the handler makes, in the order of its tests. *)
Inductive signal : Type := End_of_document | Rate_limited | Other_error.

Definition classify (e : exn) : signal :=
  let msg := PyStr.lower (exn_str e) in
  if end_of_doc_signal msg then End_of_document
  else if rate_limit_signal e msg then Rate_limited
  else Other_error.

(** What the [try] block makes of a backend result: the exception it ends
    with, classified, or the text it read. *)
Inductive reading : Type :=
| Text (t : string)          (* non-empty after strip: appended to [pages] *)
| Empty                      (* empty after strip *)
| Failed (sg : signal).      (* an exception reached the handler *)

Definition reading_of (r : backend_result) : reading :=
  match read_text r with
  | inr t => if PyStr.truthy t then Text t else Empty
  | inl e => Failed (classify e)
  end.

Definition is_terminal (r : backend_result) : bool :=
  match reading_of r with
  | Failed End_of_document => true
  | _ => false
  end.

Definition text_of (r : backend_result) : list string :=
  match reading_of r with
  | Text t => [t]
  | _ => []
  end.

(** The non-empty stripped texts read from a sequence of backend results. *)
Definition texts_of (l : script) : list string := flat_map text_of l.

(** The backend calls of a trace, with the page number of each. *)
Definition calls (tr : list event) : list (Z * backend_result) :=
  flat_map (fun ev => match ev with Ocr_call n r => [(n, r)] | _ => [] end) tr.

(** The calls of a trace that read a non-empty text, as (page number, text). *)
Definition reads (tr : list event) : list (Z * string) :=
  flat_map (fun c => map (pair (fst c)) (text_of (snd c))) (calls tr).

(** The files written during a trace. *)
Definition writes (tr : list event) : list (Path * string) :=
  flat_map (fun ev => match ev with Write_text p d => [(p, d)] | _ => [] end) tr.

(** The bases of the backoff sleeps of a trace. *)
Definition backoffs (tr : list event) : list Z :=
  flat_map (fun ev => match ev with Sleep_backoff b => [b] | _ => [] end) tr.

(** ** The two loops as one *)

(** The events of the [try] block: the rate-limiting sleep, taken from the
    second page on, and the backend call. *)
Definition delay_and_call (st : locals) (r : backend_result) : list event :=
  (if 1 <? page_num st then [Sleep_min_delay] else []) ++ [Ocr_call (page_num st) r].

(** The events of one iteration of the inner loop that does not meet the
    end of the document. *)
Definition step_events (st : locals) (r : backend_result) : list event :=
  delay_and_call st r
  ++ match reading_of r with
     | Failed Rate_limited => [Sleep_backoff (2 ^ (retries st + 1))]
     | _ => []
     end.

(** The locals at the next test of [retries < MAX_RETRIES] that succeeds,
    after an iteration of the inner loop that does not meet the end of the
    document. *)
Definition after (st : locals) (r : backend_result) : locals :=
  match reading_of r with
  | Text t => fresh (next_page (set_page_success true (append_page t st)))
  | Empty => fresh (next_page (set_page_success true st))
  | Failed Rate_limited =>
      let st1 := set_retries (retries st + 1) st in
      if retries st1 <? MAX_RETRIES then st1 else fresh (next_page st1)
  | Failed _ => fresh (next_page st)
  end.

(** The nested loops of [extract_pdf_multipage] unrolled into a single
    recursion on the script (equal to [page_loop] by [page_loop_flat]). *)
Fixpoint flat_loop (fs : filesystem) (out_path : Path) (s : script)
    (st : locals) : list event * completion :=
  match s with
  | [] => ([], Blocked)
  | r :: rest =>
      if is_terminal r
      then emit (delay_and_call st r) (write_and_return fs out_path In_loop st)
      else emit (step_events st r) (flat_loop fs out_path rest (after st r))
  end.

(** The events and the locals of the single loop along a sequence of
    backend results, none of which ends the document. *)
Fixpoint run_events (st : locals) (l : script) : list event :=
  match l with
  | [] => []
  | r :: tl => step_events st r ++ run_events (after st r) tl
  end.

Definition run_state (st : locals) (l : script) : locals := fold_left after l st.

(** What the outer loop does with the completion [x] of the inner loop:
    the last statement of its body, then its further iterations. *)
Definition resume (fuel : nat) (fs : filesystem) (out_path : Path)
    (x : list event * completion) : list event * completion :=
  match snd x with
  | Normal st1 rest =>
      emit (fst x) (page_loop fuel fs out_path rest (skip_if_exhausted st1))
  | c => (fst x, c)
  end.

(** ** The specification's wording of a throttling error *)

(** The indications of throttling that the specification lists, read on the
    message of the error: quota, 429, "too many requests". *)
Definition spec_indicates_throttling (e : exn) : bool :=
  (PyStr.contains "quota" (PyStr.lower (exn_str e))
   || PyStr.contains "429" (exn_str e)
   || PyStr.contains "too many requests" (PyStr.lower (exn_str e)))%bool.

(** A key counts as supplied on the command line when it is a non-empty string. *)
Definition spec_supplied (provided_key : option string) : bool :=
  truthy_opt provided_key.

(** ** Concrete environments used in examples *)

Definition permissive_fs : filesystem :=
  {| can_mkdir := fun _ => true; can_write := fun _ => true |}.

Definition read_only_fs : filesystem :=
  {| can_mkdir := fun _ => true; can_write := fun _ => false |}.

Definition Error (msg : string) : backend_result := Raises (Exn "Exception" msg).

Definition page (text : string) : backend_result := Returns (Plain_str text).

(** ** Readings of a batch *)

(** The events of the extraction of one document of the batch. *)
Definition document_trace (w : world) (output_dir pdf : Path) : list event :=
  fst (extract_pdf_multipage (fs_of w) (backend w pdf) pdf output_dir).

(** The output path a document contributes to the result of the walker:
    the path its extraction returned, if it returned one. *)
Definition produced (w : world) (output_dir pdf : Path) : list Path :=
  match snd (extract_pdf_multipage (fs_of w) (backend w pdf) pdf output_dir) with
  | Returned _ (Some out) => [out]
  | _ => []
  end.

(** The extraction of the document returns or raises. *)
Definition ended (w : world) (output_dir pdf : Path) : bool :=
  match snd (extract_pdf_multipage (fs_of w) (backend w pdf) pdf output_dir) with
  | Returned _ _ | Raised _ => true
  | Starved | Unfinished => false
  end.

(** Order of the walker: by file name, code point by code point. *)
Definition name_le (p q : Path) : Prop :=
  String.leb (PathLib.name p) (PathLib.name q) = true.

Definition is_pause (ev : event) : bool :=
  match ev with
  | Sleep_between_files => true
  | _ => false
  end.

(** A trace without the sleeps between files. *)
Definition without_pauses (tr : list event) : list event :=
  filter (fun ev => negb (is_pause ev)) tr.

(** The entries of a directory; none when it does not exist. *)
Definition entries (w : world) (dir_path : Path) : list string :=
  match listdir w dir_path with
  | Some names => names
  | None => []
  end.

(** ** Readings of the credential lookup *)

(** The first test of [get_api_key_priority_order]: the key is a non-empty
    string other than, in lower case, "none" or "dummy". *)
Definition usable_key (provided_key : option string) : bool :=
  (truthy_opt provided_key
   && negb (existsb (String.eqb (PyStr.lower (str_of provided_key)))
              ["none"; "dummy"; ""]))%bool.

(** A directory with three documents and a text file; the output file of
    the second document cannot be written. *)
Definition sample_world : world :=
  {| fs_of :=
       {| can_mkdir := fun _ => true;
          can_write := fun p =>
            if list_eq_dec string_dec p ["out"; "b.txt"] then false else true |};
     listdir := fun d =>
       if list_eq_dec string_dec d ["in"]
       then Some ["c.pdf"; "notes.txt"; "a.pdf"; "b.pdf"]
       else None;
     backend := fun pdf =>
       if list_eq_dec string_dec pdf ["in"; "a.pdf"]
       then [page "A1"; page "A2"; Error "page 3 not found"]
       else if list_eq_dec string_dec pdf ["in"; "b.pdf"]
       then [page "B1"; Error "page 2 not found"]
       else [page "C1"; Error "page 2 not found"] |}.

(** ** Further readings of a trace *)

(** The rate-limiting discipline of the [try] block, checked on a trace:
    a backend call for a page after the first comes right after a
    [Sleep_min_delay], a call for the first page does not, and no
    [Sleep_min_delay] occurs anywhere else. *)
Fixpoint well_delayed (tr : list event) : bool :=
  match tr with
  | [] => true
  | Sleep_min_delay :: tl =>
      match tl with
      | Ocr_call n _ :: tl' => (1 <? n) && well_delayed tl'
      | _ => false
      end
  | Ocr_call n _ :: tl => (n <=? 1) && well_delayed tl
  | _ :: tl => well_delayed tl
  end.

(** Number of backend calls of a trace that ask for page [n]. *)
Definition count_calls_at (n : Z) (tr : list event) : nat :=
  List.length (filter (fun c => fst c =? n) (calls tr)).

(** A list of page numbers that never goes back and never jumps: each is
    its predecessor or the successor of its predecessor. *)
Fixpoint gentle (l : list Z) : Prop :=
  match l with
  | a :: (b :: _) as tl => (a <= b <= a + 1) /\ gentle tl
  | _ => True
  end.

(** Number of sleeps between files in a trace. *)
Definition pauses (tr : list event) : nat :=
  List.length (filter is_pause tr).

(** ** The entry point of the extraction script *)

(** [os.environ[k] = v] *)
Definition setenv (env : environ) (k v : string) : environ :=
  fun x => if String.eqb x k then Some v else env x.

(** ['*' * n] *)
Definition stars (n : Z) : string :=
  string_of_list_ascii (repeat "*"%char (Z.to_nat n)).

(** [s[-4:]] *)
Definition last_four (s : string) : string :=
  String.substring (String.length s - 4) 4 s.

(** The text shown for the key in the start-up log line:
    [f"{'*' * (len(api_key) - 4)}{api_key[-4:] if len(api_key) > 4 else '****'}"]. *)
Definition masked_key (api_key : string) : string :=
  let n := Z.of_nat (String.length api_key) in
  let shown := if 4 <? n then last_four api_key else "****" in
  (stars (n - 4) ++ shown)%string.

(** [str(p)] for a relative path. *)
Definition str_of_path (p : Path) : string := PyStr.join "/" p.

(** How the script ends. *)
Inductive script_end : Type :=
| Exits (a : exit_arg)                              (* SystemExit *)
| Completes (env : environ) (results : list Path)   (* the last line is reached *)
| Hangs.                                            (* a backend script ran short *)

(** The statements under [if __name__ == "__main__":] after [parse_args()]
    returned [dir_path, output_dir, provided_api_key, worker_id].
    [is_dir] answers [dir_path.is_dir()]; a path exists when [listdir]
    knows it. *)
Definition main_block (env : environ) (w : world) (is_dir : Path -> bool)
    (dir_path output_dir : Path) (provided_api_key : option string)
    : list event * script_end :=
  match get_api_key_priority_order env provided_api_key with
  | inl a => ([], Exits a)
  | inr api_key =>
      let env1 := setenv env "TYPHOON_OCR_API_KEY" api_key in
      match listdir w dir_path with
      | None =>
          ([], Exits (Exit_message
                        ("Input directory does not exist: " ++ str_of_path dir_path)%string))
      | Some _ =>
          if is_dir dir_path then
            let '(tr, r) := process_directory w dir_path output_dir in
            match r with
            | Some results => (tr, Completes env1 results)
            | None => (tr, Hangs)
            end
          else
            ([], Exits (Exit_message
                          ("Input path is not a directory: " ++ str_of_path dir_path)%string))
      end
  end.

(** * The chunk splitter ([chuck_spliter.py]) *)

Module Splitter.

Definition ZeroDivisionError : exn := Exn "ZeroDivisionError" "division by zero".

(** [range(n)] *)
Definition range (n : Z) : list Z := map Z.of_nat (seq 0 (Z.to_nat n)).

(** [l[start:stop]], with Python's treatment of negative and oversized
    indices. *)
Definition slice {A : Type} (l : list A) (start stop : Z) : list A :=
  let n := Z.of_nat (List.length l) in
  let clamp i := if i <? 0 then Z.max (i + n) 0 else Z.min i n in
  firstn (Z.to_nat (clamp stop - clamp start)) (skipn (Z.to_nat (clamp start)) l).

(** [math.ceil(a / b)] for [b <> 0], the quotient being taken exactly (the
    source goes through a float, which is exact for lists of fewer than
    2 ** 53 elements). *)
Definition ceil_div (a b : Z) : Z := - ((- a) / b).

(** [split_into_chunks(file_list, num_chunks)] *)
Definition split_into_chunks {A : Type} (file_list : list A) (num_chunks : Z)
    : exn + list (list A) :=
  match file_list with
  | [] => inr (map (fun _ => []) (range num_chunks))
  | _ :: _ =>
      if num_chunks =? 0 then inl ZeroDivisionError
      else
        let n := Z.of_nat (List.length file_list) in
        let chunk_size := ceil_div n num_chunks in
        inr (map (fun i =>
                    let start_idx := i * chunk_size in
                    let end_idx := Z.min (start_idx + chunk_size) n in
                    slice file_list start_idx end_idx)
                 (range num_chunks))
  end.

(** The entries matched by [dir_path.glob("*.txt")]. *)
Definition glob_txt (dir_path : Path) (names : list string) : list Path :=
  map (PathLib.joinpath dir_path)
      (filter (fun n => PyStr.endswith n ".txt") names).

Fixpoint insert_str (s : string) (l : list string) : list string :=
  match l with
  | [] => [s]
  | t :: tl =>
      match String.compare s t with
      | Lt => s :: l
      | Eq => l
      | Gt => t :: insert_str s tl
      end
  end.

(** [sorted(list(S))] for the set [S] of the elements of [l]: its distinct
    elements in ascending order. *)
Definition sorted_set (l : list string) : list string :=
  fold_right insert_str [] l.

(** The stems collected in [pdf_files]; none when the directory is missing. *)
Definition pdf_stems (listdir : Path -> option (list string)) (dir : Path)
    : list string :=
  match listdir dir with
  | Some names => map PathLib.stem (glob_pdf dir names)
  | None => []
  end.

(** The stems collected in [processed_files]. *)
Definition txt_stems (listdir : Path -> option (list string)) (dir : Path)
    : list string :=
  match listdir dir with
  | Some names => map PathLib.stem (glob_txt dir names)
  | None => []
  end.

(** [get_unprocessed_files(train_docs_dir, extracted_texts_dir)] *)
Definition get_unprocessed_files (listdir : Path -> option (list string))
    (train_docs_dir extracted_texts_dir : Path) : list string :=
  match listdir train_docs_dir with
  | None => []
  | Some _ =>
      let pdf_files := pdf_stems listdir train_docs_dir in
      let processed_files := txt_stems listdir extracted_texts_dir in
      let unprocessed :=
        filter (fun s => negb (existsb (String.eqb s) processed_files)) pdf_files in
      sorted_set unprocessed
  end.

(** What the script does to the file system and the console. *)
Inductive action : Type :=
| Make_dir (p : Path)            (* folder_path.mkdir(exist_ok=True) *)
| Copy (src dst : Path)          (* shutil.copy2(pdf_file, destination) *)
| Ask_confirmation.              (* input(...) *)

(** The answers of the file system: whether a path exists, whether a
    folder can be created, whether a copy succeeds. *)
Record disk : Type := {
  exists_file : Path -> bool;
  mkdir_ok : Path -> bool;
  copy_ok : Path -> Path -> bool;
}.

(** [f"{i}"] for an integer. *)
Definition decimal (i : Z) : string := NilZero.string_of_int (Z.to_int i).

Definition pdf_name (filename : string) : string := (filename ++ ".pdf")%string.

(** The inner [for filename in chunk] loop. *)
Fixpoint copy_chunk (d : disk) (train_docs_path folder_path : Path)
    (chunk : list string) : list action * option exn :=
  match chunk with
  | [] => ([], None)
  | filename :: tl =>
      let pdf_file := PathLib.joinpath train_docs_path (pdf_name filename) in
      if exists_file d pdf_file then
        let destination := PathLib.joinpath folder_path (pdf_name filename) in
        if copy_ok d pdf_file destination then
          let '(acts, e) := copy_chunk d train_docs_path folder_path tl in
          (Copy pdf_file destination :: acts, e)
        else ([], Some (OSError destination))
      else copy_chunk d train_docs_path folder_path tl
  end.

Definition folder_of (base_folder_name : string) (i : Z) : Path :=
  [(base_folder_name ++ "_" ++ decimal i)%string].

(** The [for i, chunk in enumerate(file_chunks, i)] loop. *)
Fixpoint create_folders_from (d : disk) (train_docs_path : Path)
    (base_folder_name : string) (i : Z) (file_chunks : list (list string))
    : list action * option exn :=
  match file_chunks with
  | [] => ([], None)
  | chunk :: tl =>
      match chunk with
      | [] => create_folders_from d train_docs_path base_folder_name (i + 1) tl
      | _ :: _ =>
          let folder_path := folder_of base_folder_name i in
          if mkdir_ok d folder_path then
            let '(acts, e) := copy_chunk d train_docs_path folder_path chunk in
            match e with
            | Some _ => (Make_dir folder_path :: acts, e)
            | None =>
                let '(acts', e') :=
                  create_folders_from d train_docs_path base_folder_name (i + 1) tl in
                (Make_dir folder_path :: acts ++ acts', e')
            end
          else ([], Some (OSError folder_path))
      end
  end.

(** [create_folders_and_copy_files(train_docs_dir, file_chunks, base_folder_name)] *)
Definition create_folders_and_copy_files (d : disk) (train_docs_dir : Path)
    (file_chunks : list (list string)) (base_folder_name : string)
    : list action * option exn :=
  create_folders_from d train_docs_dir base_folder_name 1 file_chunks.

Definition train_docs_dir : Path := ["dataset"; "path_to_train_data"].

Definition extracted_texts_dir : Path := ["extracted_texts"].

(** [main()], given the answer the user types if asked. *)
Definition main (listdir : Path -> option (list string)) (d : disk)
    (response : string) : list action * option exn :=
  let unprocessed_files :=
    get_unprocessed_files listdir train_docs_dir extracted_texts_dir in
  match unprocessed_files with
  | [] => ([], None)
  | _ :: _ =>
      match split_into_chunks unprocessed_files 3 with
      | inl e => ([], Some e)
      | inr chunks =>
          if existsb (String.eqb (PyStr.lower response)) ["y"; "yes"] then
            let '(acts, e) :=
              create_folders_and_copy_files d train_docs_dir chunks "chunk" in
            (Ask_confirmation :: acts, e)
          else ([Ask_confirmation], None)
      end
  end.

(** The copies of a list of actions, as (source, destination). *)
Definition copies (acts : list action) : list (Path * Path) :=
  flat_map (fun a => match a with Copy s t => [(s, t)] | _ => [] end) acts.

(** The folders made by a list of actions. *)
Definition folders (acts : list action) : list Path :=
  flat_map (fun a => match a with Make_dir p => [p] | _ => [] end) acts.

Definition str_lt (a b : string) : Prop := String.compare a b = Lt.

(** A file system on which nothing fails. *)
Definition healthy (d : disk) : Prop :=
  (forall p, mkdir_ok d p = true) /\ (forall s t, copy_ok d s t = true).

(** [p.parent] of a path with at least one component. *)
Definition parent (p : Path) : Path := removelast p.

(** The actions are orderly on a disk: every file copied exists, keeps its
    name, and goes into a folder made earlier ([made] holds the folders
    made so far). *)
Fixpoint orderly (d : disk) (made : list Path) (acts : list action) : Prop :=
  match acts with
  | [] => True
  | Make_dir p :: tl => orderly d (p :: made) tl
  | Copy s t :: tl =>
      exists_file d s = true /\ In (parent t) made
      /\ PathLib.name t = PathLib.name s /\ orderly d made tl
  | Ask_confirmation :: tl => orderly d made tl
  end.

(** The source path looked up for a stem of a chunk. *)
Definition source_of (train_docs_path : Path) (filename : string) : Path :=
  PathLib.joinpath train_docs_path (pdf_name filename).

(** A training directory with five documents, two of them extracted. *)
Definition sample_listing (p : Path) : option (list string) :=
  if list_eq_dec string_dec p train_docs_dir
  then Some ["e.pdf"; "b.pdf"; "a.pdf"; "d.pdf"; "readme.md"; "c.pdf"]
  else if list_eq_dec string_dec p extracted_texts_dir
  then Some ["b.txt"; "d.txt"]
  else None.

(** A disk that holds every file asked for and refuses nothing. *)
Definition sample_disk : disk :=
  {| exists_file := fun _ => true;
     mkdir_ok := fun _ => true;
     copy_ok := fun _ _ => true |}.

End Splitter.

(** * The EasyOCR extractor *)

Module EasyOcr.

(** A page image, represented by what [np.array(page)] followed by
    [reader.readtext(img_np, detail=0, paragraph=True)] gives on it: the
    list of its paragraphs, or an exception. *)
Definition page_image : Type := exn + list string.

(** The environment of a batch. *)
Record world : Type := {
  makedirs_ok : Path -> bool;                 (* os.makedirs(.., exist_ok=True) *)
  reader : option exn;                        (* easyocr.Reader(['th', 'en']) *)
  listdir : Path -> option (list string);     (* os.listdir *)
  convert_from_path : Path -> exn + list page_image;
  open_ok : Path -> bool;                     (* open(txt_file_path, 'w') *)
}.

Inductive event : Type :=
| Make_dirs (p : Path)
| Convert (pdf_path : Path)                   (* convert_from_path(pdf_path, dpi=300) *)
| Read_page (pdf_path : Path) (i : Z)         (* reader.readtext on page i (from 0) *)
| Save (txt_file_path : Path) (data : string).

Definition FileNotFoundError (p : Path) : exn :=
  Exn "FileNotFoundError" (PyStr.join "/" p).

(** [f"--- Page {i+1} ---"] *)
Definition header (i : Z) : string :=
  ("--- Page " ++ Splitter.decimal (i + 1) ++ " ---")%string.

Fixpoint all_dots (s : string) : bool :=
  match s with
  | EmptyString => true
  | String c t => (Ascii.eqb c "."%char && all_dots t)%bool
  end.

(** [os.path.splitext(p)[0]] for a name without separator: the name up to
    its last dot, unless only dots come before it. *)
Definition splitext_root (p : string) : string :=
  match PathLib.rfind_dot p with
  | Some i =>
      if all_dots (String.substring 0 i p) then p
      else String.substring 0 i p
  | None => p
  end.

(** The [for i, page in enumerate(pages)] loop, from page [i] on, with the
    lines collected so far. *)
Fixpoint read_pages (pdf_path : Path) (i : Z) (pages : list page_image)
    (all_text : list string) : list event * (exn + list string) :=
  match pages with
  | [] => ([], inr all_text)
  | page :: tl =>
      match page with
      | inl e => ([Read_page pdf_path i], inl e)
      | inr text =>
          let all_text := all_text ++ [header i] in
          let all_text := all_text ++ text in
          let all_text := all_text ++ [PyStr.newline] in
          let '(evs, r) := read_pages pdf_path (i + 1) tl all_text in
          (Read_page pdf_path i :: evs, r)
      end
  end.

Definition txt_file_path (output_txt_dir : Path) (pdf_file : string) : Path :=
  PathLib.joinpath output_txt_dir (splitext_root pdf_file ++ ".txt")%string.

(** The [for pdf_file in pdf_files] loop. *)
Fixpoint process_files (w : world) (pdf_dir output_txt_dir : Path)
    (pdf_files : list string) : list event * option exn :=
  match pdf_files with
  | [] => ([], None)
  | pdf_file :: tl =>
      let pdf_path := PathLib.joinpath pdf_dir pdf_file in
      match convert_from_path w pdf_path with
      | inl _ =>
          let '(evs, r) := process_files w pdf_dir output_txt_dir tl in
          (Convert pdf_path :: evs, r)
      | inr pages =>
          let '(evs1, r1) := read_pages pdf_path 0 pages [] in
          match r1 with
          | inl e => (Convert pdf_path :: evs1, Some e)
          | inr all_text =>
              let target := txt_file_path output_txt_dir pdf_file in
              let saved :=
                if open_ok w target
                then [Save target (PyStr.join PyStr.newline all_text)]
                else [] in
              let '(evs, r) := process_files w pdf_dir output_txt_dir tl in
              (Convert pdf_path :: evs1 ++ saved ++ evs, r)
          end
      end
  end.

(** [[f for f in names if f.lower().endswith('.pdf')]] *)
Definition select_pdf_files (names : list string) : list string :=
  filter (fun f => PyStr.endswith (PyStr.lower f) ".pdf") names.

(** [pdfs_to_easyocr_text(pdf_dir, output_txt_dir)] *)
Definition pdfs_to_easyocr_text (w : world) (pdf_dir output_txt_dir : Path)
    : list event * option exn :=
  if makedirs_ok w output_txt_dir then
    match reader w with
    | Some e => ([Make_dirs output_txt_dir], Some e)
    | None =>
        match listdir w pdf_dir with
        | None => ([Make_dirs output_txt_dir], Some (FileNotFoundError pdf_dir))
        | Some names =>
            let pdf_files := select_pdf_files names in
            match pdf_files with
            | [] => ([Make_dirs output_txt_dir], None)
            | _ :: _ =>
                let '(evs, r) :=
                  process_files w pdf_dir output_txt_dir pdf_files in
                (Make_dirs output_txt_dir :: evs, r)
            end
        end
    end
  else ([], Some (OSError output_txt_dir)).

(** ** Readings of a batch *)

(** The lines collected for the pages of a document, numbered from [i]. *)
Fixpoint page_lines (i : Z) (texts : list (list string)) : list string :=
  match texts with
  | [] => []
  | text :: tl => header i :: text ++ PyStr.newline :: page_lines (i + 1) tl
  end.

Definition readable (p : page_image) : bool :=
  match p with inr _ => true | inl _ => false end.

Definition paragraphs (p : page_image) : list string :=
  match p with inr text => text | inl _ => [] end.

(** No page of the document fails in the reader (a document that cannot be
    converted has no page). *)
Definition clean (w : world) (pdf_dir : Path) (pdf_file : string) : bool :=
  match convert_from_path w (PathLib.joinpath pdf_dir pdf_file) with
  | inl _ => true
  | inr pages => forallb readable pages
  end.

(** The documents handed to the converter, in order. *)
Definition converted (tr : list event) : list Path :=
  flat_map (fun ev => match ev with Convert p => [p] | _ => [] end) tr.

(** The files saved, in order. *)
Definition saved_files (tr : list event) : list (Path * string) :=
  flat_map (fun ev => match ev with Save p data => [(p, data)] | _ => [] end) tr.

(** A directory of four documents: the second cannot be converted, a page
    of the third fails in the reader. *)
Definition sample_batch : world :=
  {| makedirs_ok := fun _ => true;
     reader := None;
     listdir := fun d =>
       if list_eq_dec string_dec d ["in"]
       then Some ["a.pdf"; "b.PDF"; "notes.txt"; "c.pdf"; "d.pdf"]
       else None;
     convert_from_path := fun p =>
       if list_eq_dec string_dec p ["in"; "a.pdf"]
       then inr [inr ["A1"; "A2"]; inr ["A3"]]
       else if list_eq_dec string_dec p ["in"; "b.PDF"]
       then inl (Exn "PDFPageCountError" "Unable to get page count.")
       else if list_eq_dec string_dec p ["in"; "c.pdf"]
       then inr [inr ["C1"]; inl (Exn "RuntimeError" "out of memory")]
       else inr [inr ["D1"]];
     open_ok := fun _ => true |}.

End EasyOcr.

(** * The specification's reading of a response *)

(** The text of a response in the words of the specification: "extract the
    text field if structured, else use the raw string".  A response is
    structured when it decodes to an object holding a string under
    "natural_text". *)
Definition spec_text (resp : response) : string :=
  match resp with
  | Plain_str s => s
  | Json_str s (JObject members) =>
      match dict_get members "natural_text" (JString s) with
      | JString t => t
      | _ => s
      end
  | Json_str s _ => s
  | Non_str repr => repr
  end.

(** The text a backend result contributes by the specification: the text of
    a returned response, trimmed, when it is not empty. *)
Definition spec_text_of (r : backend_result) : list string :=
  match r with
  | Returns resp =>
      let t := PyStr.strip (spec_text resp) in
      if PyStr.truthy t then [t] else []
  | Raises _ => []
  end.

(** "Exactly the non-empty texts seen", for a sequence of backend results. *)
Definition spec_texts_of (l : script) : list string := flat_map spec_text_of l.

(** * Properties *)

(** ** Traces *)

Lemma emit_emit (a b : list event) (r : list event * completion) :
  emit a (emit b r) = emit (a ++ b) r.
Proof. unfold emit; simpl; now rewrite app_assoc. Qed.

Lemma emit_nil (r : list event * completion) : emit [] r = r.
Proof. now destruct r. Qed.

Lemma calls_app (a b : list event) : calls (a ++ b) = calls a ++ calls b.
Proof. apply flat_map_app. Qed.

Lemma writes_app (a b : list event) : writes (a ++ b) = writes a ++ writes b.
Proof. apply flat_map_app. Qed.

Lemma backoffs_app (a b : list event) : backoffs (a ++ b) = backoffs a ++ backoffs b.
Proof. apply flat_map_app. Qed.

Lemma reads_app (a b : list event) : reads (a ++ b) = reads a ++ reads b.
Proof. unfold reads; rewrite calls_app; apply flat_map_app. Qed.

Lemma texts_of_app (a b : script) : texts_of (a ++ b) = texts_of a ++ texts_of b.
Proof. apply flat_map_app. Qed.

(** ** Classification of errors *)

Lemma classify_end_of_document (e : exn) :
  classify e = End_of_document <-> end_of_doc_signal (PyStr.lower (exn_str e)) = true.
Proof.
  unfold classify.
  destruct (end_of_doc_signal _); [tauto|].
  destruct (rate_limit_signal _ _); split; discriminate.
Qed.

Lemma classify_rate_limited (e : exn) :
  classify e = Rate_limited <->
  end_of_doc_signal (PyStr.lower (exn_str e)) = false
  /\ rate_limit_signal e (PyStr.lower (exn_str e)) = true.
Proof.
  unfold classify.
  destruct (end_of_doc_signal _), (rate_limit_signal _ _);
    split; intros H; try discriminate; try tauto; destruct H; discriminate.
Qed.

Lemma classify_other (e : exn) :
  classify e = Other_error <->
  end_of_doc_signal (PyStr.lower (exn_str e)) = false
  /\ rate_limit_signal e (PyStr.lower (exn_str e)) = false.
Proof.
  unfold classify.
  destruct (end_of_doc_signal _), (rate_limit_signal _ _);
    split; intros H; try discriminate; try tauto; destruct H; discriminate.
Qed.

(** An [AttributeError] raised while parsing a response matches none of the
    patterns of the handler. *)
Lemma attribute_error_other (v : json) (attr : string) :
  attr = "get" \/ attr = "strip" -> classify (AttributeError v attr) = Other_error.
Proof.
  intros [-> | ->]; destruct v; reflexivity.
Qed.

(** An exception raised by the parsing of a returned response is handled as
    an ordinary page error. *)
Lemma parse_failure_other (resp : response) (e : exn) :
  read_text (Returns resp) = inl e -> classify e = Other_error.
Proof.
  unfold read_text, _parse_typhoon_response.
  destruct resp as [s | s parsed | repr]; simpl; try discriminate.
  destruct parsed as [members | | | | | |];
    try (intros [= <-]; apply attribute_error_other; now left).
  unfold method_strip.
  destruct (dict_get members "natural_text" (JString s)) eqn:E;
    try discriminate;
    intros [= <-]; apply attribute_error_other; now right.
Qed.

Lemma returned_not_terminal (resp : response) : is_terminal (Returns resp) = false.
Proof.
  unfold is_terminal, reading_of.
  destruct (read_text (Returns resp)) eqn:E.
  - now rewrite (parse_failure_other _ _ E).
  - now destruct (PyStr.truthy s).
Qed.

Lemma is_terminal_raises (e : exn) :
  is_terminal (Raises e) = true <-> classify e = End_of_document.
Proof.
  unfold is_terminal, reading_of; simpl.
  destruct (classify e); split; intros; congruence.
Qed.

(** ** One iteration of the inner loop *)

Lemma attempt_terminal fs out r st rest :
  is_terminal r = true ->
  attempt fs out r st rest
  = emit (delay_and_call st r) (write_and_return fs out In_loop st).
Proof.
  unfold is_terminal, reading_of, attempt, handler, classify, delay_and_call.
  destruct (read_text r) as [e | t].
  - destruct (end_of_doc_signal _); [reflexivity|].
    destruct (rate_limit_signal _ _); discriminate.
  - destruct (PyStr.truthy t); discriminate.
Qed.

Lemma attempt_step fs out r st rest :
  is_terminal r = false ->
  attempt fs out r st rest
  = (step_events st r,
     match reading_of r with
     | Text t => Break (next_page (set_page_success true (append_page t st))) rest
     | Empty => Break (next_page (set_page_success true st)) rest
     | Failed Rate_limited => Continue (set_retries (retries st + 1) st) rest
     | Failed _ => Break (next_page st) rest
     end).
Proof.
  unfold is_terminal, attempt, handler, step_events, emit, delay_and_call.
  unfold reading_of, classify.
  destruct (read_text r) as [e | t]; simpl.
  - destruct (end_of_doc_signal _); [discriminate|].
    destruct (rate_limit_signal _ _); reflexivity.
  - destruct (PyStr.truthy t); reflexivity.
Qed.

(** ** The loops *)

#[local] Arguments attempt : simpl never.
#[local] Arguments page_body : simpl never.
#[local] Arguments write_and_return : simpl never.
#[local] Arguments Z.ltb : simpl never.

Lemma retry_loop_nil fs out st :
  retry_loop fs out [] st
  = if retries st <? MAX_RETRIES then ([], Blocked) else ([], Normal st []).
Proof. reflexivity. Qed.

Lemma retry_loop_cons fs out r rest st :
  retry_loop fs out (r :: rest) st
  = if retries st <? MAX_RETRIES then
      let '(evs, c) := attempt fs out r st rest in
      match c with
      | Normal st1 rest1 | Continue st1 rest1 =>
          emit evs (retry_loop fs out rest st1)
      | Break st1 rest1 => (evs, Normal st1 rest1)
      | _ => (evs, c)
      end
    else ([], Normal st (r :: rest)).
Proof. reflexivity. Qed.

Lemma page_loop_succ fuel fs out s st :
  page_loop (S fuel) fs out s st
  = let '(evs, c) := page_body fs out s st in
    match c with
    | Normal st1 rest | Continue st1 rest =>
        emit evs (page_loop fuel fs out rest st1)
    | Break st1 rest => (evs, Normal st1 rest)
    | _ => (evs, c)
    end.
Proof. reflexivity. Qed.

(** The inner loop completes normally, returns, raises or waits for the
    backend: a [break] or [continue] of its body does not leave it. *)
Lemma retry_loop_completion fs out s st evs c :
  retry_loop fs out s st = (evs, c) ->
  match c with
  | Break _ _ | Continue _ _ | Out_of_fuel => False
  | Return from _ => from = In_loop
  | _ => True
  end.
Proof.
  revert st evs c.
  induction s as [|r rest IH]; intros st evs c.
  - rewrite retry_loop_nil.
    destruct (retries st <? MAX_RETRIES); intros [= <- <-]; exact I.
  - rewrite retry_loop_cons.
    destruct (retries st <? MAX_RETRIES); [|intros [= <- <-]; exact I].
    destruct (is_terminal r) eqn:T.
    + rewrite (attempt_terminal _ _ _ _ _ T).
      unfold write_and_return, emit.
      destruct (pages st); [|destruct (can_write fs out)];
        simpl; intros [= <- <-]; auto.
    + rewrite (attempt_step _ _ _ _ _ T).
      destruct (reading_of r) as [t | | [ | | ]];
        try (intros [= <- <-]; exact I).
      destruct (retry_loop fs out rest _) as [evs' c'] eqn:E.
      unfold emit; simpl. intros [= <- <-]. exact (IH _ _ _ E).
Qed.



Lemma resume_emit fuel fs out a x :
  resume fuel fs out (emit a x) = emit a (resume fuel fs out x).
Proof.
  destruct x as [evs c]; unfold resume, emit; simpl.
  destruct c; simpl; try reflexivity.
  now rewrite app_assoc.
Qed.

Lemma page_loop_resume fuel fs out s st :
  page_loop (S fuel) fs out s st
  = resume fuel fs out (retry_loop fs out s (fresh st)).
Proof.
  rewrite page_loop_succ. unfold page_body, resume.
  destruct (retry_loop fs out s (fresh st)) as [evs c] eqn:E.
  pose proof (retry_loop_completion _ _ _ _ _ _ E) as H.
  destruct c; simpl; try reflexivity; contradiction.
Qed.

Lemma retry_loop_exhausted fs out s st :
  MAX_RETRIES <= retries st -> retry_loop fs out s st = ([], Normal st s).
Proof.
  intros H.
  assert ((retries st <? MAX_RETRIES) = false) as E by (apply Z.ltb_ge; exact H).
  destruct s; [rewrite retry_loop_nil | rewrite retry_loop_cons]; now rewrite E.
Qed.

(** The nested loops and the single loop agree as soon as the fuel exceeds
    the length of the script. *)
Lemma retry_loop_flat fs out s :
  forall st fuel,
    retries st < MAX_RETRIES -> page_success st = false ->
    (List.length s <= fuel)%nat ->
    resume fuel fs out (retry_loop fs out s st) = flat_loop fs out s st.
Proof.
  induction s as [|r rest IH]; intros st fuel Hr Hs Hf.
  - rewrite retry_loop_nil.
    apply Z.ltb_lt in Hr; rewrite Hr. reflexivity.
  - rewrite retry_loop_cons.
    pose proof Hr as Hr'. apply Z.ltb_lt in Hr'; rewrite Hr'.
    destruct fuel as [|fuel]; [simpl in Hf; lia|].
    simpl in Hf. apply le_S_n in Hf.
    cbn [flat_loop].
    destruct (is_terminal r) eqn:T.
    + rewrite (attempt_terminal _ _ _ _ _ T).
      unfold write_and_return, emit, resume.
      destruct (pages st); [|destruct (can_write fs out)]; reflexivity.
    + rewrite (attempt_step _ _ _ _ _ T).
      unfold after.
      unfold is_terminal in T.
      destruct (reading_of r) as [t | | [ | | ]]; try discriminate.
      * (* a text was read *)
        unfold resume at 1; cbn [fst snd].
        unfold skip_if_exhausted; cbn [page_success next_page set_page_success negb andb].
        rewrite page_loop_resume. f_equal.
        apply IH; [reflexivity | reflexivity | exact Hf].
      * (* an empty text was read *)
        unfold resume at 1; cbn [fst snd].
        unfold skip_if_exhausted; cbn [page_success next_page set_page_success negb andb].
        rewrite page_loop_resume. f_equal.
        apply IH; [reflexivity | reflexivity | exact Hf].
      * (* rate limit *)
        rewrite resume_emit. f_equal.
        cbn zeta.
        destruct (retries (set_retries (retries st + 1) st) <? MAX_RETRIES) eqn:E.
        -- apply IH; [now apply Z.ltb_lt | exact Hs | lia].
        -- apply Z.ltb_ge in E.
           rewrite (retry_loop_exhausted _ _ _ _ E).
           unfold resume; cbn [fst snd]. rewrite emit_nil.
           unfold skip_if_exhausted.
           cbn [page_success set_retries].
           rewrite Hs.
           assert ((MAX_RETRIES <=? retries (set_retries (retries st + 1) st)) = true) as ->
               by now apply Z.leb_le.
           cbn [negb andb].
           rewrite page_loop_resume.
           apply IH; [reflexivity | reflexivity | exact Hf].
      * (* any other error *)
        unfold resume at 1; cbn [fst snd].
        unfold skip_if_exhausted; cbn [page_success next_page retries].
        rewrite Hs.
        assert ((MAX_RETRIES <=? retries st) = false) as -> by (apply Z.leb_gt; exact Hr).
        cbn [negb andb].
        rewrite page_loop_resume. f_equal.
        apply IH; [reflexivity | reflexivity | exact Hf].
Qed.

Lemma page_loop_flat fs out s st fuel :
  (List.length s < fuel)%nat ->
  page_loop fuel fs out s st = flat_loop fs out s (fresh st).
Proof.
  intros Hf. destruct fuel as [|fuel]; [lia|].
  rewrite page_loop_resume.
  apply retry_loop_flat; [reflexivity | reflexivity | lia].
Qed.

(** ** The single loop up to the end-of-document signal *)

Lemma flat_loop_run fs out pre r post :
  Forall (fun x => is_terminal x = false) pre ->
  is_terminal r = true ->
  forall st,
    flat_loop fs out (pre ++ r :: post) st
    = emit (run_events st pre ++ delay_and_call (run_state st pre) r)
           (write_and_return fs out In_loop (run_state st pre)).
Proof.
  intros Hpre Hr.
  induction Hpre as [|x pre Hx _ IH]; intros st.
  - cbn [app flat_loop run_events run_state fold_left]. now rewrite Hr.
  - cbn [app flat_loop run_events run_state fold_left]. rewrite Hx.
    rewrite IH. rewrite emit_emit. now rewrite app_assoc.
Qed.

Lemma pages_after st r : pages (after st r) = pages st ++ text_of r.
Proof.
  unfold after, text_of.
  destruct (reading_of r) as [t | | [ | | ]]; cbn;
    try reflexivity; try (now rewrite app_nil_r).
  destruct (_ <? _); cbn; now rewrite app_nil_r.
Qed.

Lemma page_num_after st r :
  page_num st <= page_num (after st r) <= page_num st + 1.
Proof.
  unfold after.
  destruct (reading_of r) as [t | | [ | | ]]; cbn; try lia.
  destruct (_ <? _); cbn; lia.
Qed.

Lemma page_num_after_text st r :
  text_of r <> [] -> page_num (after st r) = page_num st + 1.
Proof.
  unfold after, text_of.
  destruct (reading_of r) as [t | | [ | | ]]; cbn; congruence.
Qed.

Lemma pages_run_state l : forall st, pages (run_state st l) = pages st ++ texts_of l.
Proof.
  induction l as [|r tl IH]; intros st; cbn [run_state fold_left texts_of flat_map].
  - now rewrite app_nil_r.
  - fold (run_state (after st r) tl). fold (texts_of tl).
    rewrite IH, pages_after. now rewrite app_assoc.
Qed.

Lemma page_num_run_state l : forall st, page_num st <= page_num (run_state st l).
Proof.
  induction l as [|r tl IH]; intros st; cbn [run_state fold_left]; [lia|].
  fold (run_state (after st r) tl).
  pose proof (IH (after st r)). pose proof (page_num_after st r). lia.
Qed.

Lemma calls_delay_and_call st r : calls (delay_and_call st r) = [(page_num st, r)].
Proof. unfold delay_and_call; destruct (_ <? _); reflexivity. Qed.

Lemma writes_delay_and_call st r : writes (delay_and_call st r) = [].
Proof. unfold delay_and_call; destruct (_ <? _); reflexivity. Qed.

Lemma calls_step_events st r : calls (step_events st r) = [(page_num st, r)].
Proof.
  unfold step_events. rewrite calls_app, calls_delay_and_call.
  destruct (reading_of r) as [t | | [ | | ]]; reflexivity.
Qed.

Lemma writes_step_events st r : writes (step_events st r) = [].
Proof.
  unfold step_events. rewrite writes_app, writes_delay_and_call.
  destruct (reading_of r) as [t | | [ | | ]]; reflexivity.
Qed.

Lemma reads_step_events st r :
  reads (step_events st r) = map (pair (page_num st)) (text_of r).
Proof.
  unfold reads. rewrite calls_step_events. cbn. now rewrite app_nil_r.
Qed.

Lemma calls_run_events l : forall st, map snd (calls (run_events st l)) = l.
Proof.
  induction l as [|r tl IH]; intros st; cbn [run_events]; [reflexivity|].
  rewrite calls_app, calls_step_events. cbn. now rewrite IH.
Qed.

Lemma writes_run_events l : forall st, writes (run_events st l) = [].
Proof.
  induction l as [|r tl IH]; intros st; cbn [run_events]; [reflexivity|].
  now rewrite writes_app, writes_step_events, IH.
Qed.

Lemma reads_run_events_texts l :
  forall st, map snd (reads (run_events st l)) = texts_of l.
Proof.
  induction l as [|r tl IH]; intros st; cbn [run_events]; [reflexivity|].
  rewrite reads_app, reads_step_events, map_app, IH, map_map. cbn.
  now rewrite map_id.
Qed.

Lemma text_of_cases r : text_of r = [] \/ exists t, text_of r = [t].
Proof.
  unfold text_of. destruct (reading_of r); eauto.
Qed.

(** The calls of a run ask for pages in non-decreasing order. *)
Lemma calls_run_events_pages l :
  forall st,
    Forall (fun n => page_num st <= n <= page_num (run_state st l))
           (map fst (calls (run_events st l)))
    /\ StronglySorted Z.le (map fst (calls (run_events st l))).
Proof.
  induction l as [|r tl IH]; intros st; cbn [run_events run_state fold_left].
  - split; constructor.
  - fold (run_state (after st r) tl).
    rewrite calls_app, calls_step_events. cbn [app map fst].
    destruct (IH (after st r)) as [Hb Hs].
    pose proof (page_num_after st r) as Ha.
    pose proof (page_num_run_state tl (after st r)) as Hm.
    split.
    + constructor; [lia|].
      eapply Forall_impl; [|exact Hb]. cbn; intros; lia.
    + constructor; [exact Hs|].
      eapply Forall_impl; [|exact Hb]. cbn; intros; lia.
Qed.

(** The texts of a run were read from strictly increasing pages. *)
Lemma reads_run_events_pages l :
  forall st,
    Forall (fun n => page_num st <= n < page_num (run_state st l))
           (map fst (reads (run_events st l)))
    /\ StronglySorted Z.lt (map fst (reads (run_events st l))).
Proof.
  induction l as [|r tl IH]; intros st; cbn [run_events run_state fold_left].
  - split; constructor.
  - fold (run_state (after st r) tl).
    rewrite reads_app, reads_step_events, map_app, map_map. cbn [fst].
    destruct (IH (after st r)) as [Hb Hs].
    pose proof (page_num_after st r) as Ha.
    pose proof (page_num_run_state tl (after st r)) as Hm.
    destruct (text_of_cases r) as [E | [t E]].
    + rewrite E. cbn [map app]. split; [|exact Hs].
      eapply Forall_impl; [|exact Hb]. cbn; intros; lia.
    + pose proof (page_num_after_text st r) as Hn.
      rewrite E in *. cbn [map app].
      assert (page_num (after st r) = page_num st + 1) as Hp
          by (apply Hn; discriminate).
      split.
      * constructor; [lia|].
        eapply Forall_impl; [|exact Hb]. cbn; intros; lia.
      * constructor; [exact Hs|].
        eapply Forall_impl; [|exact Hb]. cbn; intros; lia.
Qed.

(** ** The whole function up to the end-of-document signal *)

Lemma fresh_initial : fresh initial_locals = initial_locals.
Proof. reflexivity. Qed.

Lemma extract_run fs pre r post pdf outdir :
  can_mkdir fs outdir = true ->
  Forall (fun x => is_terminal x = false) pre ->
  is_terminal r = true ->
  let out := output_path pdf outdir in
  let st := run_state initial_locals pre in
  extract_pdf_multipage fs (pre ++ r :: post) pdf outdir
  = (Mkdir outdir :: run_events initial_locals pre ++ delay_and_call st r
       ++ fst (write_and_return fs out In_loop st),
     match snd (write_and_return fs out In_loop st) with
     | Return from v => Returned from v
     | Raise e => Raised e
     | _ => Unfinished
     end).
Proof.
  intros Hm Hpre Hr out st.
  unfold extract_pdf_multipage. rewrite Hm.
  rewrite page_loop_flat by lia.
  rewrite fresh_initial, (flat_loop_run _ _ _ _ _ Hpre Hr).
  fold out. fold st.
  unfold write_and_return, emit.
  destruct (pages st); [|destruct (can_write fs out)]; cbn [fst snd];
    now rewrite <- ?app_assoc.
Qed.

Lemma terminal_reads_nothing r : is_terminal r = true -> text_of r = [].
Proof.
  unfold is_terminal, text_of. destruct (reading_of r); congruence.
Qed.

Lemma reads_delay_and_call_terminal st r :
  is_terminal r = true -> reads (delay_and_call st r) = [].
Proof.
  intros H. unfold reads. rewrite calls_delay_and_call. cbn.
  now rewrite (terminal_reads_nothing _ H).
Qed.

Lemma reading_of_raises e : reading_of (Raises e) = Failed (classify e).
Proof. reflexivity. Qed.

Lemma reading_of_page t :
  reading_of (page t)
  = if PyStr.truthy (PyStr.strip t) then Text (PyStr.strip t) else Empty.
Proof. reflexivity. Qed.

Lemma read_text_stripped r t :
  read_text r = inr t -> exists s, t = PyStr.strip s.
Proof.
  unfold read_text, method_strip.
  destruct r as [resp | e]; [|discriminate].
  destruct (_parse_typhoon_response resp) as [e | v]; [discriminate|].
  destruct v; try discriminate. intros [= <-]. now eexists.
Qed.

(** Every text read is non-empty and is the result of a [strip]. *)
Lemma texts_of_stripped l :
  Forall (fun t => PyStr.truthy t = true /\ exists s, t = PyStr.strip s)
         (texts_of l).
Proof.
  induction l as [|r tl IH]; cbn [texts_of flat_map]; [constructor|].
  apply Forall_app. split; [|exact IH].
  unfold text_of, reading_of.
  destruct (read_text r) as [e | t] eqn:E; [constructor|].
  destruct (PyStr.truthy t) eqn:Ht; constructor; [|constructor].
  split; [exact Ht | exact (read_text_stripped _ _ E)].
Qed.

(** ** The output file *)

(** X29. Whatever the backend answers before its first end-of-document
    error, when [extract_pdf_multipage] returns the path of an output file:
    the backend was called for exactly the results up to and including that
    error (nothing after it was consumed); the texts read are the non-empty
    stripped texts of the results on which the [try] block completed (a
    response on which the parser raises contributes none), read from
    strictly increasing page numbers; and the only write of the run puts
    these texts, in that order and joined by a blank line, into the file
    returned, from the end-of-document branch inside the loop. *)
Theorem file_content_at_end_of_document
    fs pre r post pdf outdir tr from p :
  Forall (fun x => is_terminal x = false) pre ->
  is_terminal r = true ->
  extract_pdf_multipage fs (pre ++ r :: post) pdf outdir
  = (tr, Returned from (Some p)) ->
  map snd (calls tr) = pre ++ [r]
  /\ map snd (reads tr) = texts_of pre
  /\ Forall (fun t => PyStr.truthy t = true /\ exists s, t = PyStr.strip s)
            (map snd (reads tr))
  /\ StronglySorted Z.lt (map fst (reads tr))
  /\ writes tr = [(p, PyStr.join PyStr.blank_line (map snd (reads tr)))]
  /\ p = output_path pdf outdir
  /\ from = In_loop.
Proof.
  intros Hpre Hr.
  destruct (can_mkdir fs outdir) eqn:Hm;
    [| unfold extract_pdf_multipage; rewrite Hm; discriminate].
  rewrite (extract_run _ _ _ _ _ _ Hm Hpre Hr). cbv zeta.
  set (st := run_state initial_locals pre).
  set (out := output_path pdf outdir).
  assert (pages st = texts_of pre) as Hpages
      by (unfold st; now rewrite pages_run_state).
  unfold write_and_return. rewrite Hpages.
  destruct (texts_of pre) as [|t ts] eqn:Ht; [discriminate|].
  destruct (can_write fs out); [|discriminate].
  cbn [fst snd].
  remember (PyStr.join PyStr.blank_line (t :: ts)) as data eqn:Hd.
  intros [= <- <- <-].
  assert (reads (Mkdir outdir :: run_events initial_locals pre
                 ++ delay_and_call st r ++ [Write_text out data])
          = reads (run_events initial_locals pre)) as Hreads.
  { change (Mkdir outdir :: ?l) with ([Mkdir outdir] ++ l).
    rewrite !reads_app, (reads_delay_and_call_terminal _ _ Hr). cbn.
    now rewrite app_nil_r. }
  rewrite Hreads, reads_run_events_texts, Ht, <- Hd.
  split; [|split; [reflexivity|split; [rewrite <- Ht; apply texts_of_stripped|]]].
  { change (Mkdir outdir :: ?l) with ([Mkdir outdir] ++ l).
    rewrite !calls_app, calls_delay_and_call, !map_app, calls_run_events.
    reflexivity. }
  repeat split.
  - apply reads_run_events_pages.
  - change (Mkdir outdir :: ?l) with ([Mkdir outdir] ++ l).
    rewrite !writes_app, writes_run_events, writes_delay_and_call. reflexivity.
Qed.

Lemma file_content_at_end_of_document_witness :
  let pre := [page "A"; Error "HTTP 429"; page " B "; page "  "] in
  let r := Error "Page 4 not found" in
  let post := [page "Z"] in
  let tr := fst (extract_pdf_multipage permissive_fs (pre ++ r :: post) ["in"; "doc.pdf"] ["out"]) in
  map snd (calls tr) = pre ++ [r]
  /\ map snd (reads tr) = texts_of pre
  /\ Forall (fun t => PyStr.truthy t = true /\ exists s, t = PyStr.strip s)
            (map snd (reads tr))
  /\ StronglySorted Z.lt (map fst (reads tr))
  /\ writes tr = [(["out"; "doc.txt"], PyStr.join PyStr.blank_line (map snd (reads tr)))]
  /\ ["out"; "doc.txt"] = output_path ["in"; "doc.pdf"] ["out"]
  /\ In_loop = In_loop.
Proof.
  intros pre r post tr.
  apply (file_content_at_end_of_document permissive_fs pre r post
           ["in"; "doc.pdf"] ["out"] tr In_loop ["out"; "doc.txt"]).
  - repeat constructor.
  - reflexivity.
  - vm_compute. reflexivity.
Defined.

(** C2. When no result before the end-of-document error yielded a
    non-empty text, [extract_pdf_multipage] returns [None] from the
    end-of-document branch and writes no file. *)
Theorem no_text_no_file fs pre r post pdf outdir :
  can_mkdir fs outdir = true ->
  Forall (fun x => is_terminal x = false) pre ->
  is_terminal r = true ->
  texts_of pre = [] ->
  exists tr,
    extract_pdf_multipage fs (pre ++ r :: post) pdf outdir
    = (tr, Returned In_loop None)
    /\ writes tr = []
    /\ map snd (calls tr) = pre ++ [r].
Proof.
  intros Hm Hpre Hr Ht.
  rewrite (extract_run _ _ _ _ _ _ Hm Hpre Hr). cbv zeta.
  set (st := run_state initial_locals pre).
  assert (pages st = []) as Hpages
      by (unfold st; now rewrite pages_run_state, Ht).
  unfold write_and_return. rewrite Hpages. cbn [fst snd].
  eexists; split; [reflexivity|].
  change (Mkdir outdir :: ?l) with ([Mkdir outdir] ++ l).
  rewrite !writes_app, writes_run_events, writes_delay_and_call.
  rewrite !calls_app, calls_delay_and_call, !map_app, calls_run_events.
  split; reflexivity.
Qed.

Lemma no_text_no_file_witness :
  let pre := [page "   "; Error "boom"; Error "429"; Error "429"; Error "429";
              Error "429"; Error "429"; Returns (Json_str "7" (JInt 7))] in
  exists tr,
    extract_pdf_multipage permissive_fs (pre ++ Error "invalid page" :: [page "late"])
      ["in"; "doc.pdf"] ["out"]
    = (tr, Returned In_loop None)
    /\ writes tr = []
    /\ map snd (calls tr) = pre ++ [Error "invalid page"].
Proof.
  intros pre.
  apply (no_text_no_file permissive_fs pre (Error "invalid page") [page "late"]).
  - reflexivity.
  - repeat constructor.
  - reflexivity.
  - reflexivity.
Defined.

(** C3. Text "A" on page 1, two rate-limit errors and then text "B" on
    page 2, text "C" on page 3 and an end-of-document error on page 4: the
    run sleeps two backoffs (bases 2 and 4) on page 2 and writes the seven
    characters "A", blank line, "B", blank line, "C". *)
Theorem backoff_then_three_pages fs pdf outdir e1 e2 e3 :
  can_mkdir fs outdir = true ->
  can_write fs (output_path pdf outdir) = true ->
  classify e1 = Rate_limited ->
  classify e2 = Rate_limited ->
  classify e3 = End_of_document ->
  let out := output_path pdf outdir in
  let content := ("A" ++ PyStr.blank_line ++ "B" ++ PyStr.blank_line ++ "C")%string in
  extract_pdf_multipage fs
    [page "A"; Raises e1; Raises e2; page "B"; page "C"; Raises e3] pdf outdir
  = ([Mkdir outdir;
      Ocr_call 1 (page "A");
      Sleep_min_delay; Ocr_call 2 (Raises e1); Sleep_backoff 2;
      Sleep_min_delay; Ocr_call 2 (Raises e2); Sleep_backoff 4;
      Sleep_min_delay; Ocr_call 2 (page "B");
      Sleep_min_delay; Ocr_call 3 (page "C");
      Sleep_min_delay; Ocr_call 4 (Raises e3);
      Write_text out content],
     Returned In_loop (Some out))
  /\ String.length content = 7%nat.
Proof.
  intros Hm Hw H1 H2 H3 out content.
  split; [|reflexivity].
  assert (is_terminal (Raises e3) = true) as T3 by now apply is_terminal_raises.
  assert (Forall (fun x => is_terminal x = false)
            [page "A"; Raises e1; Raises e2; page "B"; page "C"]) as Hpre.
  { repeat constructor; unfold is_terminal; rewrite reading_of_raises;
      [now rewrite H1 | now rewrite H2]. }
  change [page "A"; Raises e1; Raises e2; page "B"; page "C"; Raises e3]
    with ([page "A"; Raises e1; Raises e2; page "B"; page "C"] ++ Raises e3 :: []).
  rewrite (extract_run _ _ _ _ _ _ Hm Hpre T3). cbv zeta.
  unfold write_and_return. rewrite Hw. subst out.
  generalize (output_path pdf outdir) as out. intros out.
  unfold run_state, run_events, fold_left, after, step_events.
  rewrite !reading_of_raises, H1, H2. reflexivity.
Qed.

Lemma backoff_then_three_pages_witness :
  let e429 := Exn "Exception" "Error code: 429 - rate limit exceeded" in
  let eof := Exn "Exception" "Wrong page range given: the first page (4) can not be after the last page (3)." in
  let out := ["out"; "doc.txt"] in
  extract_pdf_multipage permissive_fs
    [page "A"; Raises e429; Raises e429; page "B"; page "C"; Raises eof]
    ["in"; "doc.pdf"] ["out"]
  = ([Mkdir ["out"];
      Ocr_call 1 (page "A");
      Sleep_min_delay; Ocr_call 2 (Raises e429); Sleep_backoff 2;
      Sleep_min_delay; Ocr_call 2 (Raises e429); Sleep_backoff 4;
      Sleep_min_delay; Ocr_call 2 (page "B");
      Sleep_min_delay; Ocr_call 3 (page "C");
      Sleep_min_delay; Ocr_call 4 (Raises eof);
      Write_text out ("A" ++ PyStr.blank_line ++ "B" ++ PyStr.blank_line ++ "C")%string],
     Returned In_loop (Some out))
  /\ String.length ("A" ++ PyStr.blank_line ++ "B" ++ PyStr.blank_line ++ "C")%string = 7%nat.
Proof.
  intros e429 eof out.
  apply (backoff_then_three_pages permissive_fs ["in"; "doc.pdf"] ["out"] e429 e429 eof);
    reflexivity.
Defined.

(** ** Single steps of the loops *)

Lemma set_retries_set_retries n m st :
  set_retries n (set_retries m st) = set_retries n st.
Proof. reflexivity. Qed.

Lemma retries_fresh st : retries (fresh st) = 0.
Proof. reflexivity. Qed.

Lemma rate_limited_not_terminal r :
  reading_of r = Failed Rate_limited -> is_terminal r = false.
Proof. unfold is_terminal; now intros ->. Qed.

(** A run of rate-limit answers that stays within the cap keeps the inner
    loop on the same page and only counts the retries. *)
Lemma retry_loop_throttled fs out rest l :
  forall st,
    Forall (fun r => reading_of r = Failed Rate_limited) l ->
    retries st + Z.of_nat (List.length l) <= MAX_RETRIES ->
    retry_loop fs out (l ++ rest) st
    = emit (run_events st l)
        (retry_loop fs out rest
           (set_retries (retries st + Z.of_nat (List.length l)) st)).
Proof.
  induction l as [|r tl IH]; intros st Hl Hc.
  - cbn [app run_events List.length Z.of_nat]. rewrite emit_nil.
    rewrite Z.add_0_r. now destruct st.
  - inversion Hl as [|? ? Hr Htl]; subst.
    cbn [app]. rewrite retry_loop_cons.
    cbn [List.length] in Hc. rewrite Nat2Z.inj_succ in Hc.
    assert ((retries st <? MAX_RETRIES) = true) as -> by (apply Z.ltb_lt; lia).
    rewrite (attempt_step _ _ _ _ _ (rate_limited_not_terminal _ Hr)), Hr.
    rewrite IH; [|exact Htl | cbn [retries set_retries]; lia].
    rewrite emit_emit. cbn [run_events].
    rewrite set_retries_set_retries. cbn [retries set_retries].
    cbn [List.length]. rewrite Nat2Z.inj_succ.
    replace (retries st + 1 + Z.of_nat (List.length tl))
      with (retries st + Z.succ (Z.of_nat (List.length tl))) by lia.
    f_equal. f_equal.
    destruct tl as [|r' tl']; [reflexivity|].
    unfold after. rewrite Hr. cbn zeta.
    cbn [List.length] in Hc. rewrite Nat2Z.inj_succ in Hc.
    assert ((retries (set_retries (retries st + 1) st) <? MAX_RETRIES) = true) as ->
        by (apply Z.ltb_lt; cbn [retries set_retries]; lia).
    reflexivity.
Qed.

(** The first event of an iteration of the outer loop is the call of the
    backend for the current page (after the rate-limiting sleep). *)
Lemma page_loop_first_call fuel fs out r rest st :
  exists x,
    page_loop (S fuel) fs out (r :: rest) st
    = emit (delay_and_call (fresh st) r) x.
Proof.
  rewrite page_loop_resume, retry_loop_cons, retries_fresh.
  change (0 <? MAX_RETRIES) with true. cbv iota.
  destruct (is_terminal r) eqn:T.
  - rewrite (attempt_terminal _ _ _ _ _ T).
    exists (write_and_return fs out In_loop (fresh st)).
    unfold write_and_return, emit, resume.
    destruct (pages (fresh st)); [|destruct (can_write fs out)]; reflexivity.
  - rewrite (attempt_step _ _ _ _ _ T). unfold step_events.
    destruct (reading_of r) as [t | | [ | | ]];
      rewrite ?resume_emit, <- ?emit_emit; eexists; try reflexivity.
    all: unfold resume; cbn [fst snd]; rewrite <- emit_emit; reflexivity.
Qed.

Lemma backoffs_delay_and_call st r : backoffs (delay_and_call st r) = [].
Proof. unfold delay_and_call; destruct (_ <? _); reflexivity. Qed.

Lemma reads_throttled l :
  forall st, Forall (fun r => reading_of r = Failed Rate_limited) l ->
             reads (run_events st l) = [].
Proof.
  induction l as [|r tl IH]; intros st Hl; [reflexivity|].
  inversion Hl as [|? ? Hr Htl]; subst. cbn [run_events].
  rewrite reads_app, reads_step_events, (IH _ Htl).
  unfold text_of. now rewrite Hr.
Qed.

(** ** Retry cap *)

(** C4. Five rate-limit answers in a row for the page at which an iteration
    of the outer loop starts: that iteration calls the backend five times
    for this page, sleeps the backoffs 2, 4, 8, 16, 32, reads and writes
    nothing, and hands over to the next iteration with the same [pages] and
    the page cursor advanced by one; the next call, if the backend has an
    answer, asks for the following page. *)
Theorem retry_cap_skips_page fs out fuel st throttled rest :
  List.length throttled = Z.to_nat MAX_RETRIES ->
  Forall (fun r => reading_of r = Failed Rate_limited) throttled ->
  let evs := run_events (fresh st) throttled in
  let st' := next_page (set_retries MAX_RETRIES (fresh st)) in
  page_loop (S fuel) fs out (throttled ++ rest) st
  = emit evs (page_loop fuel fs out rest st')
  /\ calls evs = map (pair (page_num st)) throttled
  /\ backoffs evs = [2; 4; 8; 16; 32]
  /\ reads evs = [] /\ writes evs = []
  /\ pages st' = pages st
  /\ page_num st' = page_num st + 1
  /\ (forall fuel' r' rest',
        fuel = S fuel' -> rest = r' :: rest' ->
        exists x,
          page_loop fuel fs out rest st' = emit (delay_and_call (fresh st') r') x
          /\ calls (delay_and_call (fresh st') r') = [(page_num st + 1, r')]).
Proof.
  intros Hlen Hall evs st'.
  repeat split.
  - rewrite page_loop_resume.
    rewrite retry_loop_throttled;
      [|exact Hall | rewrite Hlen, retries_fresh; reflexivity].
    rewrite Hlen, retries_fresh.
    change (0 + Z.of_nat (Z.to_nat MAX_RETRIES)) with MAX_RETRIES.
    rewrite retry_loop_exhausted by (cbn [retries set_retries]; lia).
    rewrite resume_emit. unfold resume. cbn [fst snd]. rewrite emit_nil.
    reflexivity.
  - subst evs.
    do 6 (destruct throttled as [|? throttled]; try discriminate Hlen).
    cbn [run_events]. rewrite !calls_app, !calls_step_events.
    repeat match goal with H : Forall _ (_ :: _) |- _ =>
      inversion H as [|? ? ?Hr ?Htl]; subst; clear H end.
    unfold after.
    repeat match goal with H : reading_of _ = _ |- _ => rewrite H; clear H end.
    reflexivity.
  - subst evs.
    do 6 (destruct throttled as [|? throttled]; try discriminate Hlen).
    repeat match goal with H : Forall _ (_ :: _) |- _ =>
      inversion H as [|? ? ?Hr ?Htl]; subst; clear H end.
    cbn [run_events]. unfold step_events, after.
    repeat match goal with H : reading_of _ = _ |- _ => rewrite H; clear H end.
    rewrite !backoffs_app, !backoffs_delay_and_call. reflexivity.
  - apply reads_throttled; exact Hall.
  - apply writes_run_events.
  - intros fuel' r' rest' -> ->.
    destruct (page_loop_first_call fuel' fs out r' rest' st') as [x Hx].
    exists x. split; [exact Hx|].
    now rewrite calls_delay_and_call.
Qed.

Lemma retry_cap_skips_page_witness :
  let throttled := [Error "429"; Error "Rate limit reached"; Error "429";
                    Error "Too Many Requests"; Error "HTTP 429"] in
  let st := Locals 2 ["A"] 0 false in
  let rest := [page "C"; Error "page not found"] in
  let evs := run_events (fresh st) throttled in
  let st' := next_page (set_retries MAX_RETRIES (fresh st)) in
  page_loop 3 permissive_fs ["out"; "d.txt"] (throttled ++ rest) st
  = emit evs (page_loop 2 permissive_fs ["out"; "d.txt"] rest st')
  /\ calls evs = map (pair (page_num st)) throttled
  /\ backoffs evs = [2; 4; 8; 16; 32]
  /\ reads evs = [] /\ writes evs = []
  /\ pages st' = pages st
  /\ page_num st' = page_num st + 1
  /\ (forall fuel' r' rest',
        2%nat = S fuel' -> rest = r' :: rest' ->
        exists x,
          page_loop 2 permissive_fs ["out"; "d.txt"] rest st'
          = emit (delay_and_call (fresh st') r') x
          /\ calls (delay_and_call (fresh st') r') = [(page_num st + 1, r')]).
Proof.
  intros throttled st rest.
  apply (retry_cap_skips_page permissive_fs ["out"; "d.txt"] 2 st throttled rest).
  - reflexivity.
  - repeat constructor.
Defined.

(** ** Rate-limit errors *)

(** C5, as the code has it. An error that matches no end-of-document
    pattern and whose message contains "429", or, in lower case, "rate
    limit" or "too many requests", met while [retries < MAX_RETRIES]: the
    retry counter is incremented, a backoff of base [2 ** retries] is
    slept, nothing is appended and the page cursor stays; while the counter
    remains under the cap the next backend call asks for the same page. *)
Theorem rate_limit_retries_same_page fs out e st rest :
  end_of_doc_signal (PyStr.lower (exn_str e)) = false ->
  (PyStr.contains "429" (exn_str e)
   || PyStr.contains "rate limit" (PyStr.lower (exn_str e))
   || PyStr.contains "too many requests" (PyStr.lower (exn_str e)))%bool = true ->
  retries st < MAX_RETRIES ->
  let st1 := set_retries (retries st + 1) st in
  classify e = Rate_limited
  /\ retry_loop fs out (Raises e :: rest) st
     = emit (delay_and_call st (Raises e) ++ [Sleep_backoff (2 ^ (retries st + 1))])
         (retry_loop fs out rest st1)
  /\ page_num st1 = page_num st
  /\ pages st1 = pages st
  /\ (retries st + 1 < MAX_RETRIES ->
      forall r' rest', rest = r' :: rest' ->
        exists x,
          retry_loop fs out rest st1 = emit (delay_and_call st1 r') x
          /\ calls (delay_and_call st1 r') = [(page_num st, r')]).
Proof.
  intros Hd Hr Hlt st1.
  assert (classify e = Rate_limited) as Hc
      by (apply classify_rate_limited; split; assumption).
  repeat split; try reflexivity; try exact Hc.
  - rewrite retry_loop_cons.
    assert ((retries st <? MAX_RETRIES) = true) as -> by now apply Z.ltb_lt.
    assert (reading_of (Raises e) = Failed Rate_limited) as Hread
        by now rewrite reading_of_raises, Hc.
    rewrite (attempt_step _ _ _ _ _ (rate_limited_not_terminal _ Hread)), Hread.
    unfold step_events. now rewrite Hread.
  - intros Hlt' r' rest' ->.
    rewrite retry_loop_cons.
    assert ((retries st1 <? MAX_RETRIES) = true) as ->
        by (apply Z.ltb_lt; exact Hlt').
    rewrite calls_delay_and_call.
    destruct (is_terminal r') eqn:T.
    + rewrite (attempt_terminal _ _ _ _ _ T).
      exists (write_and_return fs out In_loop st1). split; [|reflexivity].
      unfold write_and_return, emit.
      destruct (pages st1); [|destruct (can_write fs out)]; reflexivity.
    + rewrite (attempt_step _ _ _ _ _ T). unfold step_events.
      destruct (reading_of r') as [t | | [ | | ]];
        rewrite <- ?emit_emit;
        first [ eexists; split; [reflexivity | reflexivity]
              | eexists (_, _); split;
                [unfold emit; cbn [fst snd]; reflexivity | reflexivity] ].
Qed.

Lemma rate_limit_retries_same_page_witness :
  let e := Exn "Exception" "Error code: 429 - Too Many Requests" in
  let st := Locals 3 ["A"; "B"] 1 false in
  let rest := [page "C"] in
  let st1 := set_retries (retries st + 1) st in
  classify e = Rate_limited
  /\ retry_loop permissive_fs ["out"; "d.txt"] (Raises e :: rest) st
     = emit (delay_and_call st (Raises e) ++ [Sleep_backoff (2 ^ (retries st + 1))])
         (retry_loop permissive_fs ["out"; "d.txt"] rest st1)
  /\ page_num st1 = page_num st
  /\ pages st1 = pages st
  /\ (retries st + 1 < MAX_RETRIES ->
      forall r' rest', rest = r' :: rest' ->
        exists x,
          retry_loop permissive_fs ["out"; "d.txt"] rest st1
          = emit (delay_and_call st1 r') x
          /\ calls (delay_and_call st1 r') = [(page_num st, r')]).
Proof.
  intros e st rest.
  apply (rate_limit_retries_same_page permissive_fs ["out"; "d.txt"] e st rest).
  - reflexivity.
  - reflexivity.
  - reflexivity.
Defined.

(** C5, as the specification words it, fails: an error that reports an
    exhausted quota without any of the three patterns of the code is
    handled as an ordinary page error (the page is skipped, no retry, no
    backoff), and an error that carries 429 together with an
    end-of-document pattern ends the document. *)
Lemma throttling_not_always_retried :
  let quota := Exn "Exception" "Quota exceeded for this API key" in
  let both := Exn "Exception" "429: page 3 is out of range" in
  let st := Locals 3 ["A"; "B"] 0 false in
  (spec_indicates_throttling quota = true
   /\ classify quota = Other_error
   /\ retry_loop permissive_fs ["out"; "d.txt"] [Raises quota; page "C"] st
      = ([Sleep_min_delay; Ocr_call 3 (Raises quota)],
         Normal (Locals 4 ["A"; "B"] 0 false) [page "C"]))
  /\ (spec_indicates_throttling both = true
      /\ classify both = End_of_document
      /\ retry_loop permissive_fs ["out"; "d.txt"] [Raises both; page "C"] st
         = ([Sleep_min_delay; Ocr_call 3 (Raises both);
             Write_text ["out"; "d.txt"] ("A" ++ PyStr.blank_line ++ "B")%string],
            Return In_loop (Some ["out"; "d.txt"]))).
Proof.
  cbv zeta. repeat split; reflexivity.
Qed.

(** ** Ordinary page errors *)

(** C6. An error that is neither an end-of-document signal nor a
    rate-limit signal: inside the inner loop, whatever retries the page has
    already consumed, the iteration calls the backend once, sleeps no
    backoff, leaves [pages] and [retries] as they are, advances the page
    cursor by one and leaves the inner loop, and the last statement of the
    outer body does not advance it again; at the start of a page the outer
    loop goes on with the next page, whose call comes next. *)
Theorem other_error_skips_page fs out e st rest fuel :
  classify e = Other_error ->
  (retries st < MAX_RETRIES -> page_success st = false ->
   retry_loop fs out (Raises e :: rest) st
   = (delay_and_call st (Raises e), Normal (next_page st) rest)
   /\ skip_if_exhausted (next_page st) = next_page st)
  /\ page_loop (S fuel) fs out (Raises e :: rest) st
     = emit (delay_and_call (fresh st) (Raises e))
         (page_loop fuel fs out rest (next_page (fresh st)))
  /\ backoffs (delay_and_call (fresh st) (Raises e)) = []
  /\ calls (delay_and_call (fresh st) (Raises e)) = [(page_num st, Raises e)]
  /\ pages (next_page (fresh st)) = pages st
  /\ page_num (next_page (fresh st)) = page_num st + 1
  /\ retries (next_page (fresh st)) = 0
  /\ (forall fuel' r' rest',
        fuel = S fuel' -> rest = r' :: rest' ->
        exists x,
          page_loop fuel fs out rest (next_page (fresh st))
          = emit (delay_and_call (fresh (next_page (fresh st))) r') x
          /\ calls (delay_and_call (fresh (next_page (fresh st))) r')
             = [(page_num st + 1, r')]).
Proof.
  intros Hc.
  assert (reading_of (Raises e) = Failed Other_error) as Hread
      by now rewrite reading_of_raises, Hc.
  assert (is_terminal (Raises e) = false) as T
      by (unfold is_terminal; now rewrite Hread).
  assert (forall s, retries s < MAX_RETRIES ->
            retry_loop fs out (Raises e :: rest) s
            = (delay_and_call s (Raises e), Normal (next_page s) rest)) as Hstep.
  { intros s Hs. rewrite retry_loop_cons.
    assert ((retries s <? MAX_RETRIES) = true) as -> by now apply Z.ltb_lt.
    rewrite (attempt_step _ _ _ _ _ T), Hread.
    unfold step_events. rewrite Hread. now rewrite app_nil_r. }
  split.
  { intros Hlt Hs. split; [now apply Hstep|].
    unfold skip_if_exhausted. cbn [page_success next_page retries].
    rewrite Hs.
    assert ((MAX_RETRIES <=? retries st) = false) as -> by now apply Z.leb_gt.
    reflexivity. }
  repeat split.
  - rewrite page_loop_resume, Hstep by reflexivity.
    unfold resume. cbn [fst snd]. reflexivity.
  - apply backoffs_delay_and_call.
  - now rewrite calls_delay_and_call.
  - intros fuel' r' rest' -> ->.
    destruct (page_loop_first_call fuel' fs out r' rest' (next_page (fresh st)))
      as [x Hx].
    exists x. split; [exact Hx|].
    now rewrite calls_delay_and_call.
Qed.

Lemma other_error_skips_page_witness :
  let e := Exn "Exception" "Internal server error" in
  let st := Locals 2 ["A"] 0 false in
  let rest := [page "C"; Error "page not found"] in
  let fs := permissive_fs in
  let out := ["out"; "d.txt"] in
  (retries st < MAX_RETRIES -> page_success st = false ->
   retry_loop fs out (Raises e :: rest) st
   = (delay_and_call st (Raises e), Normal (next_page st) rest)
   /\ skip_if_exhausted (next_page st) = next_page st)
  /\ page_loop 3 fs out (Raises e :: rest) st
     = emit (delay_and_call (fresh st) (Raises e))
         (page_loop 2 fs out rest (next_page (fresh st)))
  /\ backoffs (delay_and_call (fresh st) (Raises e)) = []
  /\ calls (delay_and_call (fresh st) (Raises e)) = [(page_num st, Raises e)]
  /\ pages (next_page (fresh st)) = pages st
  /\ page_num (next_page (fresh st)) = page_num st + 1
  /\ retries (next_page (fresh st)) = 0
  /\ (forall fuel' r' rest',
        2%nat = S fuel' -> rest = r' :: rest' ->
        exists x,
          page_loop 2 fs out rest (next_page (fresh st))
          = emit (delay_and_call (fresh (next_page (fresh st))) r') x
          /\ calls (delay_and_call (fresh (next_page (fresh st))) r')
             = [(page_num st + 1, r')]).
Proof.
  intros e st rest fs out.
  apply (other_error_skips_page fs out e st rest 2).
  reflexivity.
Defined.

(** ** Precedence of the end-of-document test *)

(** C10. An error whose lower-cased message matches an end-of-document
    pattern and that also matches a rate-limit pattern is classified as the
    end of the document: the iteration that meets it calls the backend
    once, sleeps no backoff, and completes with the write-and-return
    statements of the end-of-document branch; no further call is made. *)
Theorem end_of_document_takes_precedence fs out e st rest fuel :
  end_of_doc_signal (PyStr.lower (exn_str e)) = true ->
  rate_limit_signal e (PyStr.lower (exn_str e)) = true ->
  classify e = End_of_document
  /\ (retries st < MAX_RETRIES ->
      retry_loop fs out (Raises e :: rest) st
      = emit (delay_and_call st (Raises e)) (write_and_return fs out In_loop st))
  /\ page_loop (S fuel) fs out (Raises e :: rest) st
     = emit (delay_and_call (fresh st) (Raises e))
         (write_and_return fs out In_loop (fresh st))
  /\ backoffs (fst (page_loop (S fuel) fs out (Raises e :: rest) st)) = []
  /\ calls (fst (page_loop (S fuel) fs out (Raises e :: rest) st))
     = [(page_num st, Raises e)]
  /\ match snd (page_loop (S fuel) fs out (Raises e :: rest) st) with
     | Return In_loop _ | Raise _ => True
     | _ => False
     end.
Proof.
  intros Hd _.
  assert (classify e = End_of_document) as Hc
      by now apply classify_end_of_document.
  assert (is_terminal (Raises e) = true) as T by now apply is_terminal_raises.
  assert (forall s, retries s < MAX_RETRIES ->
            retry_loop fs out (Raises e :: rest) s
            = emit (delay_and_call s (Raises e)) (write_and_return fs out In_loop s))
    as Hstep.
  { intros s Hs. rewrite retry_loop_cons.
    assert ((retries s <? MAX_RETRIES) = true) as -> by now apply Z.ltb_lt.
    rewrite (attempt_terminal _ _ _ _ _ T).
    unfold write_and_return, emit.
    destruct (pages s); [|destruct (can_write fs out)]; reflexivity. }
  assert (page_loop (S fuel) fs out (Raises e :: rest) st
          = emit (delay_and_call (fresh st) (Raises e))
              (write_and_return fs out In_loop (fresh st))) as Hloop.
  { rewrite page_loop_resume, Hstep by reflexivity.
    unfold write_and_return, emit, resume.
    destruct (pages (fresh st)); [|destruct (can_write fs out)]; reflexivity. }
  split; [exact Hc|]. split; [exact (Hstep st)|]. split; [exact Hloop|].
  rewrite Hloop. unfold write_and_return, emit.
  destruct (pages (fresh st)); [|destruct (can_write fs out)]; cbn [fst snd];
    rewrite ?backoffs_app, ?calls_app, backoffs_delay_and_call, calls_delay_and_call;
    repeat split.
Qed.

Lemma end_of_document_takes_precedence_witness :
  let e := Exn "Exception" "HTTP 429: Page 7 is out of range" in
  let st := Locals 7 ["A"] 0 false in
  let fs := permissive_fs in
  let out := ["out"; "d.txt"] in
  let rest := [page "late"] in
  classify e = End_of_document
  /\ (retries st < MAX_RETRIES ->
      retry_loop fs out (Raises e :: rest) st
      = emit (delay_and_call st (Raises e)) (write_and_return fs out In_loop st))
  /\ page_loop 2 fs out (Raises e :: rest) st
     = emit (delay_and_call (fresh st) (Raises e))
         (write_and_return fs out In_loop (fresh st))
  /\ backoffs (fst (page_loop 2 fs out (Raises e :: rest) st)) = []
  /\ calls (fst (page_loop 2 fs out (Raises e :: rest) st))
     = [(page_num st, Raises e)]
  /\ match snd (page_loop 2 fs out (Raises e :: rest) st) with
     | Return In_loop _ | Raise _ => True
     | _ => False
     end.
Proof.
  intros e st fs out rest.
  apply (end_of_document_takes_precedence fs out e st rest 1); reflexivity.
Defined.

(** ** Exits of the page loop *)


Lemma flat_loop_completion fs out s :
  forall st,
    match snd (flat_loop fs out s st) with
    | Return In_loop _ | Raise _ | Blocked => True
    | _ => False
    end.
Proof.
  induction s as [|r rest IH]; intros st; cbn [flat_loop]; [exact I|].
  destruct (is_terminal r).
  - unfold write_and_return, emit.
    destruct (pages st); [|destruct (can_write fs out)]; exact I.
  - unfold emit; cbn [snd]. apply IH.
Qed.

(** The bound put on the iterations of the outer loop never cuts a run. *)
Lemma extract_finishes fs s pdf outdir :
  snd (extract_pdf_multipage fs s pdf outdir) <> Unfinished.
Proof.
  unfold extract_pdf_multipage.
  destruct (can_mkdir fs outdir); [|discriminate].
  rewrite page_loop_flat by lia.
  pose proof (flat_loop_completion fs (output_path pdf outdir) s (fresh initial_locals)) as H.
  destruct (flat_loop fs (output_path pdf outdir) s (fresh initial_locals)) as [evs c].
  cbn [snd] in H.
  destruct c as [| | | [|] v | | |]; try contradiction; discriminate.
Qed.



(** ** The order of the walker *)

Lemma ascii_compare_trans_not_gt (a b c : ascii) :
  Ascii.compare a b <> Gt -> Ascii.compare b c <> Gt -> Ascii.compare a c <> Gt.
Proof.
  unfold Ascii.compare. rewrite !N.compare_gt_iff. lia.
Qed.

Lemma ascii_compare_eq (a b : ascii) : Ascii.compare a b = Eq -> a = b.
Proof. apply Ascii.compare_eq_iff. Qed.

Lemma string_compare_trans_not_gt :
  forall a b c : string,
    String.compare a b <> Gt -> String.compare b c <> Gt -> String.compare a c <> Gt.
Proof.
  induction a as [|x a IH]; intros [|y b] [|z c]; cbn [String.compare];
    try congruence.
  intros Hab Hbc.
  destruct (Ascii.compare x y) eqn:Exy; try congruence.
  - apply ascii_compare_eq in Exy; subst y.
    destruct (Ascii.compare x z) eqn:Exz; try congruence.
    now apply (IH b c).
  - destruct (Ascii.compare y z) eqn:Eyz; try congruence.
    + apply ascii_compare_eq in Eyz; subst z. now rewrite Exy.
    + assert (Ascii.compare x z = Lt) as ->; [|congruence].
      unfold Ascii.compare in *. rewrite N.compare_lt_iff in *. lia.
Qed.

Lemma name_le_trans p q r : name_le p q -> name_le q r -> name_le p r.
Proof.
  unfold name_le, String.leb. intros Hpq Hqr.
  pose proof (string_compare_trans_not_gt (PathLib.name p) (PathLib.name q) (PathLib.name r)) as H.
  destruct (String.compare (PathLib.name p) (PathLib.name q)); try discriminate;
    destruct (String.compare (PathLib.name q) (PathLib.name r)); try discriminate;
    destruct (String.compare (PathLib.name p) (PathLib.name r)); try reflexivity;
    exfalso; apply H; congruence.
Qed.

Lemma name_le_total p q : name_le p q \/ name_le q p.
Proof. apply String.leb_total. Qed.

Lemma insert_by_name_perm p l : Permutation (insert_by_name p l) (p :: l).
Proof.
  induction l as [|q tl IH]; cbn [insert_by_name]; [reflexivity|].
  destruct (String.leb _ _); [reflexivity|].
  rewrite IH. apply perm_swap.
Qed.

Lemma sorted_by_name_perm l : Permutation (sorted_by_name l) l.
Proof.
  induction l as [|p tl IH]; cbn [sorted_by_name fold_right]; [reflexivity|].
  fold (sorted_by_name tl). rewrite insert_by_name_perm. now constructor.
Qed.

Lemma insert_by_name_sorted p l :
  StronglySorted name_le l -> StronglySorted name_le (insert_by_name p l).
Proof.
  induction 1 as [|q tl Hs IH Hq]; cbn [insert_by_name].
  - repeat constructor.
  - destruct (String.leb (PathLib.name p) (PathLib.name q)) eqn:E.
    + constructor; [now constructor|].
      constructor; [exact E|].
      eapply Forall_impl; [|exact Hq].
      intros r Hr. now apply (name_le_trans p q r).
    + constructor; [exact IH|].
      apply (Permutation_Forall (Permutation_sym (insert_by_name_perm p tl))).
      constructor; [|exact Hq].
      destruct (name_le_total p q) as [H | H]; [|exact H].
      unfold name_le in H. congruence.
Qed.

Lemma sorted_by_name_sorted l : StronglySorted name_le (sorted_by_name l).
Proof.
  induction l as [|p tl IH]; cbn [sorted_by_name fold_right]; [constructor|].
  now apply insert_by_name_sorted.
Qed.

(** ** The walker *)

Lemma without_pauses_app a b :
  without_pauses (a ++ b) = without_pauses a ++ without_pauses b.
Proof. apply filter_app. Qed.

Lemma without_pauses_id tr :
  Forall (fun ev => is_pause ev = false) tr -> without_pauses tr = tr.
Proof.
  induction 1 as [|ev tr Hev _ IH]; [reflexivity|].
  unfold without_pauses in *. cbn [filter]. rewrite Hev. cbn [negb].
  now rewrite IH.
Qed.

Lemma delay_and_call_no_pause st r :
  Forall (fun ev => is_pause ev = false) (delay_and_call st r).
Proof. unfold delay_and_call; destruct (_ <? _); repeat constructor. Qed.

Lemma step_events_no_pause st r :
  Forall (fun ev => is_pause ev = false) (step_events st r).
Proof.
  unfold step_events. apply Forall_app. split; [apply delay_and_call_no_pause|].
  destruct (reading_of r) as [t | | [ | | ]]; repeat constructor.
Qed.

Lemma write_and_return_no_pause fs out from st :
  Forall (fun ev => is_pause ev = false) (fst (write_and_return fs out from st)).
Proof.
  unfold write_and_return.
  destruct (pages st); [|destruct (can_write fs out)]; repeat constructor.
Qed.

Lemma flat_loop_no_pause fs out s :
  forall st, Forall (fun ev => is_pause ev = false) (fst (flat_loop fs out s st)).
Proof.
  induction s as [|r rest IH]; intros st; cbn [flat_loop]; [constructor|].
  destruct (is_terminal r); unfold emit; cbn [fst]; apply Forall_app; split;
    auto using delay_and_call_no_pause, step_events_no_pause,
               write_and_return_no_pause.
Qed.

Lemma extract_no_pause fs s pdf outdir :
  Forall (fun ev => is_pause ev = false)
         (fst (extract_pdf_multipage fs s pdf outdir)).
Proof.
  unfold extract_pdf_multipage.
  destruct (can_mkdir fs outdir); [|constructor].
  rewrite page_loop_flat by lia.
  pose proof (flat_loop_no_pause fs (output_path pdf outdir) s (fresh initial_locals)) as H.
  destruct (flat_loop fs (output_path pdf outdir) s (fresh initial_locals)) as [evs c].
  cbn [fst] in H.
  destruct c as [st rest | st rest | st rest | from v | e | |]; cbn [fst];
    try (constructor; [reflexivity | exact H]).
  all: pose proof (write_and_return_no_pause fs (output_path pdf outdir) After_loop st) as Hw;
    destruct (write_and_return fs (output_path pdf outdir) After_loop st) as [evs' c'];
    cbn [fst] in *; constructor; [reflexivity|];
    apply Forall_app; split; assumption.
Qed.

(** The results and the trace of the [for] loop of the walker. *)
Lemma walk_results w outdir pdfs :
  forall i n results tr out,
    walk w outdir pdfs i n results = (tr, Some out) ->
    out = results ++ flat_map (produced w outdir) pdfs
    /\ without_pauses tr = flat_map (document_trace w outdir) pdfs.
Proof.
  induction pdfs as [|pdf tl IH]; intros i n results tr out; cbn [walk flat_map].
  - intros [= <- <-]. now rewrite app_nil_r.
  - unfold produced at 1, document_trace at 1.
    destruct (extract_pdf_multipage (fs_of w) (backend w pdf) pdf outdir)
      as [evs o] eqn:E.
    pose proof (extract_no_pause (fs_of w) (backend w pdf) pdf outdir) as Hev.
    rewrite E in Hev. cbn [fst snd] in *.
    assert (forall results1,
               (let '(evs', r) := walk w outdir tl (i + 1) n results1 in
                (evs ++ (if i <? n then [Sleep_between_files] else []) ++ evs', r))
               = (tr, Some out) ->
               out = results1 ++ flat_map (produced w outdir) tl
               /\ without_pauses tr
                  = evs ++ flat_map (document_trace w outdir) tl) as Hk.
    { intros results1.
      destruct (walk w outdir tl (i + 1) n results1) as [evs' r] eqn:Ew.
      intros [= <- ->].
      destruct (IH _ _ _ _ _ Ew) as [-> Htr]. split; [reflexivity|].
      rewrite !without_pauses_app, Htr, (without_pauses_id _ Hev).
      destruct (i <? n); reflexivity. }
    destruct o as [from [out1|] | e | |]; try discriminate.
    + intros H. destruct (Hk _ H) as [-> ->].
      now rewrite <- app_assoc.
    + intros H. destruct (Hk _ H) as [-> ->]. now split.
    + intros H. destruct (Hk _ H) as [-> ->]. now split.
Qed.

(** The [for] loop ends as soon as the extraction of every document does. *)
Lemma walk_total w outdir pdfs :
  Forall (fun pdf => ended w outdir pdf = true) pdfs ->
  forall i n results,
    exists tr out, walk w outdir pdfs i n results = (tr, Some out).
Proof.
  induction 1 as [|pdf tl Hpdf _ IH]; intros i n results; cbn [walk].
  - now eexists _, _.
  - unfold ended in Hpdf.
    destruct (extract_pdf_multipage (fs_of w) (backend w pdf) pdf outdir)
      as [evs o].
    cbn [snd] in Hpdf.
    destruct o as [from [out1|] | e | |]; try discriminate.
    + destruct (IH (i + 1) n (results ++ [out1])) as (tr & out & ->).
      now eexists _, _.
    + destruct (IH (i + 1) n results) as (tr & out & ->). now eexists _, _.
    + destruct (IH (i + 1) n results) as (tr & out & ->). now eexists _, _.
Qed.

Lemma writes_flat_loop fs out s :
  forall st,
    map fst (writes (fst (flat_loop fs out s st)))
    = match snd (flat_loop fs out s st) with
      | Return _ (Some p) => [p]
      | _ => []
      end.
Proof.
  induction s as [|r rest IH]; intros st; cbn [flat_loop]; [reflexivity|].
  destruct (is_terminal r); unfold emit; cbn [fst snd]; rewrite writes_app.
  - rewrite writes_delay_and_call. unfold write_and_return.
    destruct (pages st); [|destruct (can_write fs out)]; reflexivity.
  - rewrite writes_step_events. apply IH.
Qed.

(** The path a document contributes to the result of the walker is the path
    of the file its extraction wrote, if it wrote one. *)
Lemma produced_is_written w outdir pdf :
  produced w outdir pdf = map fst (writes (document_trace w outdir pdf)).
Proof.
  unfold produced, document_trace, extract_pdf_multipage.
  destruct (can_mkdir (fs_of w) outdir); [|reflexivity].
  rewrite page_loop_flat by lia.
  pose proof (writes_flat_loop (fs_of w) (output_path pdf outdir) (backend w pdf)
                (fresh initial_locals)) as Hw.
  pose proof (flat_loop_completion (fs_of w) (output_path pdf outdir) (backend w pdf)
                (fresh initial_locals)) as Hc.
  destruct (flat_loop (fs_of w) (output_path pdf outdir) (backend w pdf)
              (fresh initial_locals)) as [evs c].
  cbn [fst snd] in *.
  destruct c as [| | | from v | e | |]; try contradiction; cbn [fst snd];
    change (Mkdir outdir :: evs) with ([Mkdir outdir] ++ evs);
    rewrite writes_app; cbn [writes flat_map app]; rewrite Hw;
    try reflexivity.
Qed.

(** C8. [process_directory] works on the entries of the directory itself
    whose name ends in ".pdf", arranged in ascending order of file name.
    When it returns, its result is the list, in that order, of the paths
    returned by the extractions (a document whose extraction raised or
    returned [None] contributes nothing), which are the paths of the files
    these extractions wrote; and its trace, the sleeps between files apart,
    is the concatenation in that order of the traces of the extractions of
    all the documents: one document after the other, none left out after a
    failure.  It returns as soon as every extraction ends, by a return or
    by an exception. *)
Theorem walker_in_name_order w dir outdir :
  let pdfs := sorted_by_name (glob_pdf dir (entries w dir)) in
  Permutation pdfs (glob_pdf dir (entries w dir))
  /\ (forall p, In p pdfs <->
                exists n, In n (entries w dir)
                          /\ PyStr.endswith n ".pdf" = true
                          /\ p = PathLib.joinpath dir n)
  /\ StronglySorted name_le pdfs
  /\ (forall tr results,
        process_directory w dir outdir = (tr, Some results) ->
        results = flat_map (produced w outdir) pdfs
        /\ without_pauses tr = flat_map (document_trace w outdir) pdfs)
  /\ (Forall (fun pdf => ended w outdir pdf = true) pdfs ->
      exists tr results, process_directory w dir outdir = (tr, Some results))
  /\ (forall pdf e,
        snd (extract_pdf_multipage (fs_of w) (backend w pdf) pdf outdir) = Raised e ->
        produced w outdir pdf = [] /\ ended w outdir pdf = true)
  /\ (forall pdf,
        produced w outdir pdf = map fst (writes (document_trace w outdir pdf))).
Proof.
  intros pdfs.
  assert (Permutation pdfs (glob_pdf dir (entries w dir))) as Hperm
      by apply sorted_by_name_perm.
  split; [exact Hperm|]. split; [|split; [apply sorted_by_name_sorted|]].
  { intros p. split.
    - intros Hin. apply (Permutation_in _ Hperm) in Hin.
      unfold glob_pdf in Hin. apply in_map_iff in Hin.
      destruct Hin as (n & <- & Hn). apply filter_In in Hn.
      exists n. tauto.
    - intros (n & Hn & He & ->).
      apply (Permutation_in _ (Permutation_sym Hperm)).
      unfold glob_pdf. apply in_map. apply filter_In. tauto. }
  assert (process_directory w dir outdir
          = match pdfs with
            | [] => ([], Some [])
            | _ => walk w outdir pdfs 1 (Z.of_nat (List.length pdfs)) []
            end) as Hpd.
  { unfold process_directory, pdfs, entries.
    destruct (listdir w dir); reflexivity. }
  rewrite Hpd. split; [|split].
  - intros tr results. destruct pdfs as [|p tl] eqn:E.
    + intros [= <- <-]. now split.
    + intros H. apply walk_results in H. exact H.
  - intros Hall. destruct pdfs as [|p tl] eqn:E.
    + now eexists _, _.
    + apply walk_total. exact Hall.
  - split; [|intros pdf; apply produced_is_written].
    intros pdf e H. unfold produced, ended. now rewrite H.
Qed.

Lemma walker_in_name_order_witness :
  exists tr,
    process_directory sample_world ["in"] ["out"]
    = (tr, Some [["out"; "a.txt"]; ["out"; "c.txt"]])
    /\ sorted_by_name (glob_pdf ["in"] (entries sample_world ["in"]))
       = [["in"; "a.pdf"]; ["in"; "b.pdf"]; ["in"; "c.pdf"]]
    /\ snd (extract_pdf_multipage (fs_of sample_world)
              (backend sample_world ["in"; "b.pdf"]) ["in"; "b.pdf"] ["out"])
       = Raised (OSError ["out"; "b.txt"])
    /\ [["out"; "a.txt"]; ["out"; "c.txt"]]
       = flat_map (produced sample_world ["out"])
           (sorted_by_name (glob_pdf ["in"] (entries sample_world ["in"])))
    /\ without_pauses tr
       = flat_map (document_trace sample_world ["out"])
           (sorted_by_name (glob_pdf ["in"] (entries sample_world ["in"]))).
Proof.
  eexists. split; [vm_compute; reflexivity|].
  split; [reflexivity|]. split; [reflexivity|].
  apply (walker_in_name_order sample_world ["in"] ["out"]).
  vm_compute. reflexivity.
Defined.

(** ** The credential *)

Lemma usable_key_spec provided_key :
  usable_key provided_key = true <->
  exists k, provided_key = Some k /\ k <> ""
            /\ PyStr.lower k <> "none" /\ PyStr.lower k <> "dummy".
Proof.
  unfold usable_key, truthy_opt. split.
  - destruct provided_key as [k|]; [|discriminate].
    cbn [str_of existsb]. intros H.
    apply andb_true_iff in H. destruct H as [Ht Hn].
    apply negb_true_iff in Hn. rewrite !orb_false_iff in Hn.
    destruct Hn as (Hnone & Hdummy & _ & _).
    exists k. repeat split.
    + intros ->. discriminate.
    + now apply String.eqb_neq.
    + now apply String.eqb_neq.
  - intros (k & -> & Hk & Hnone & Hdummy).
    cbn [str_of existsb].
    destruct k as [|c k]; [congruence|]. cbn [PyStr.truthy andb].
    apply negb_true_iff. rewrite !orb_false_iff.
    split; [now apply String.eqb_neq|].
    split; [now apply String.eqb_neq|].
    split; reflexivity.
Qed.

(** C9, as the code has it. A key given on the command line is used when it
    is non-empty and is not, in lower case, "none" or "dummy"; otherwise
    TYPHOON_OCR_API_KEY is used when set and non-empty; otherwise
    OPENAI_API_KEY is used when set and non-empty; otherwise SystemExit is
    raised with a message, which gives the exit status 1. *)
Theorem api_key_priority env provided_key :
  (usable_key provided_key = true <->
   exists k, provided_key = Some k /\ k <> ""
             /\ PyStr.lower k <> "none" /\ PyStr.lower k <> "dummy")
  /\ (usable_key provided_key = true ->
      get_api_key_priority_order env provided_key = inr (str_of provided_key))
  /\ (usable_key provided_key = false ->
      forall conda_key,
        env "TYPHOON_OCR_API_KEY" = Some conda_key -> conda_key <> "" ->
        get_api_key_priority_order env provided_key = inr conda_key)
  /\ (usable_key provided_key = false ->
      truthy_opt (env "TYPHOON_OCR_API_KEY") = false ->
      forall regular_key,
        env "OPENAI_API_KEY" = Some regular_key -> regular_key <> "" ->
        get_api_key_priority_order env provided_key = inr regular_key)
  /\ (usable_key provided_key = false ->
      truthy_opt (env "TYPHOON_OCR_API_KEY") = false ->
      truthy_opt (env "OPENAI_API_KEY") = false ->
      exists a,
        get_api_key_priority_order env provided_key = inl a
        /\ exit_status a = 1 /\ exit_status a <> 0).
Proof.
  split; [apply usable_key_spec|].
  unfold get_api_key_priority_order. fold (usable_key provided_key).
  repeat split.
  - intros ->. reflexivity.
  - intros -> conda_key -> Hk.
    destruct conda_key; [congruence|]. reflexivity.
  - intros -> -> regular_key -> Hk.
    destruct regular_key; [congruence|]. reflexivity.
  - intros -> -> ->. eexists. repeat split. discriminate.
Qed.

Lemma api_key_priority_witness :
  let env := fun v : string =>
    if String.eqb v "OPENAI_API_KEY" then Some "sk-generic"
    else if String.eqb v "TYPHOON_OCR_API_KEY" then Some "sk-typhoon"
    else None in
  get_api_key_priority_order env (Some "sk-cli") = inr "sk-cli"
  /\ get_api_key_priority_order env None = inr "sk-typhoon"
  /\ (exists a, get_api_key_priority_order (fun _ => None) (Some "") = inl a
                /\ exit_status a = 1 /\ exit_status a <> 0).
Proof.
  intros env. split; [|split].
  - exact (proj1 (proj2 (api_key_priority env (Some "sk-cli"))) eq_refl).
  - apply (proj1 (proj2 (proj2 (api_key_priority env None))) eq_refl "sk-typhoon").
    + reflexivity.
    + discriminate.
  - exact (proj2 (proj2 (proj2 (proj2 (api_key_priority (fun _ => None) (Some "")))))
             eq_refl eq_refl eq_refl).
Defined.

(** C9, as the specification words it, fails: the key "dummy" given on the
    command line is passed over for the environment, and with an empty
    environment the lookup exits although a key was given. *)
Lemma placeholder_key_not_used :
  let env := fun v : string =>
    if String.eqb v "TYPHOON_OCR_API_KEY" then Some "sk-typhoon" else None in
  spec_supplied (Some "dummy") = true
  /\ get_api_key_priority_order env (Some "dummy") = inr "sk-typhoon"
  /\ get_api_key_priority_order env (Some "dummy") <> inr "dummy"
  /\ get_api_key_priority_order (fun _ => None) (Some "None")
     = inl (Exit_message no_key_message).
Proof.
  cbv zeta. repeat split. discriminate.
Qed.

(** ** Examples *)

Example lower_mixed_case : PyStr.lower "Page NOT Found" = "page not found".
Proof. reflexivity. Qed.

Example strip_both_ends :
  PyStr.strip ("  a b " ++ PyStr.newline)%string = "a b".
Proof. reflexivity. Qed.

Example strip_blank : PyStr.strip ("  " ++ PyStr.newline)%string = "".
Proof. reflexivity. Qed.

Example blank_line_length : String.length PyStr.blank_line = 2%nat.
Proof. reflexivity. Qed.

Example stem_of_pdf : PathLib.stem ["in"; "report.v2.pdf"] = "report.v2".
Proof. reflexivity. Qed.

Example stem_of_dotfile : PathLib.stem ["in"; ".pdf"] = ".pdf".
Proof. reflexivity. Qed.

Example natural_text_is_extracted :
  reading_of (Returns (Json_str "{...}"
                (JObject [("natural_text", JString " Hello "); ("page", JInt 1)])))
  = Text "Hello".
Proof. reflexivity. Qed.

Example object_without_natural_text_is_raw :
  reading_of (Returns (Json_str "{}" (JObject []))) = Text "{}".
Proof. reflexivity. Qed.

(** A response that decodes to something else than an object makes the
    parser raise; the page is handled as an ordinary page error. *)
Example number_response_is_an_error :
  reading_of (Returns (Json_str "123" (JInt 123))) = Failed Other_error.
Proof. reflexivity. Qed.

Example classify_samples :
  map (fun m => classify (Exn "Exception" m))
      ["Page 12 not found"; "list index out of range"; "Wrong page range given";
       "First page (9) can not be after the last page (8)";
       "Error code: 429"; "Rate limit exceeded"; "Too Many Requests";
       "Connection reset by peer"]
  = [End_of_document; End_of_document; End_of_document; End_of_document;
     Rate_limited; Rate_limited; Rate_limited; Other_error].
Proof. reflexivity. Qed.

(** A refused write in the end-of-document branch propagates out of the
    function. *)
Example refused_write_propagates :
  snd (extract_pdf_multipage read_only_fs [page "A"; Error "page not found"]
         ["in"; "doc.pdf"] ["out"])
  = Raised (OSError ["out"; "doc.txt"]).
Proof. reflexivity. Qed.

Example named_key_before_positional :
  command_line_key (Some "named") (Some "positional") = Some "named"
  /\ command_line_key None (Some "positional") = Some "positional".
Proof. split; reflexivity. Qed.

(** * Further properties of the extraction script *)

(** ** Persistence *)

Lemma existsb_false_Forall {A} (f : A -> bool) l :
  existsb f l = false -> Forall (fun x => f x = false) l.
Proof.
  induction l as [|x l IH]; cbn [existsb]; [constructor|].
  intros H. apply orb_false_iff in H. destruct H. constructor; auto.
Qed.

Lemma flat_loop_starved fs out s :
  Forall (fun x => is_terminal x = false) s ->
  forall st, flat_loop fs out s st = (run_events st s, Blocked).
Proof.
  induction 1 as [|r rest Hr _ IH]; intros st; cbn [flat_loop run_events];
    [reflexivity|].
  rewrite Hr, IH. reflexivity.
Qed.

(** X1. As long as the backend raises no end-of-document error, nothing is
    saved: the function consumes every result of the script, reads the
    texts, writes no file and goes on asking the backend. *)
Theorem nothing_saved_without_end_signal fs s pdf outdir :
  existsb is_terminal s = false ->
  can_mkdir fs outdir = true ->
  snd (extract_pdf_multipage fs s pdf outdir) = Starved
  /\ writes (fst (extract_pdf_multipage fs s pdf outdir)) = []
  /\ map snd (calls (fst (extract_pdf_multipage fs s pdf outdir))) = s
  /\ map snd (reads (fst (extract_pdf_multipage fs s pdf outdir))) = texts_of s.
Proof.
  intros Hs Hm. apply existsb_false_Forall in Hs.
  unfold extract_pdf_multipage. rewrite Hm.
  rewrite page_loop_flat by lia.
  rewrite (flat_loop_starved _ _ _ Hs). cbn [fst snd].
  change (Mkdir outdir :: ?l) with ([Mkdir outdir] ++ l).
  rewrite writes_app, reads_app, calls_app, !map_app, writes_run_events,
    calls_run_events, reads_run_events_texts.
  repeat split.
Qed.

Lemma nothing_saved_without_end_signal_witness :
  let s := [page "A"; Error "HTTP 500"; page "B"; Error "429"] in
  let run := extract_pdf_multipage permissive_fs s ["in"; "doc.pdf"] ["out"] in
  snd run = Starved
  /\ writes (fst run) = []
  /\ map snd (calls (fst run)) = s
  /\ map snd (reads (fst run)) = texts_of s.
Proof.
  intros s run.
  apply (nothing_saved_without_end_signal permissive_fs s ["in"; "doc.pdf"] ["out"]);
    reflexivity.
Defined.

Lemma flat_loop_write_last fs out s :
  forall st,
    (writes (fst (flat_loop fs out s st)) = []
     /\ forall from p, snd (flat_loop fs out s st) <> Return from (Some p))
    \/ (exists tr0 data,
          fst (flat_loop fs out s st) = tr0 ++ [Write_text out data]
          /\ writes tr0 = []
          /\ snd (flat_loop fs out s st) = Return In_loop (Some out)).
Proof.
  induction s as [|r rest IH]; intros st; cbn [flat_loop].
  - left. split; [reflexivity | discriminate].
  - destruct (is_terminal r) eqn:T.
    + unfold write_and_return, emit.
      destruct (pages st) as [|t ts] eqn:Hp; cbn [fst snd].
      * left. rewrite writes_app, writes_delay_and_call.
        split; [reflexivity | discriminate].
      * destruct (can_write fs out); cbn [fst snd].
        -- right. exists (delay_and_call st r). eexists.
           rewrite writes_delay_and_call. repeat split.
        -- left. rewrite writes_app, writes_delay_and_call.
           split; [reflexivity | discriminate].
    + unfold emit. cbn [fst snd]. rewrite writes_app, writes_step_events.
      destruct (IH (after st r)) as [[Hw Hn] | (tr0 & data & Htr & Hw & Hc)].
      * left. split; assumption.
      * right. exists (step_events st r ++ tr0), data.
        rewrite Htr, app_assoc, writes_app, writes_step_events, Hw, Hc.
        repeat split.
Qed.

(** X2. A run of [extract_pdf_multipage] writes at most one file: either it
    writes nothing and returns no path, or its last event is the write of
    the output file [<output_dir>/<stem>.txt], nothing was written before,
    and that path is returned from the end-of-document branch. *)
Theorem at_most_one_write_and_last fs s pdf outdir :
  let run := extract_pdf_multipage fs s pdf outdir in
  let out := output_path pdf outdir in
  (writes (fst run) = [] /\ forall from p, snd run <> Returned from (Some p))
  \/ (exists tr0 data,
        fst run = tr0 ++ [Write_text out data]
        /\ writes tr0 = []
        /\ snd run = Returned In_loop (Some out)).
Proof.
  cbv zeta. unfold extract_pdf_multipage.
  destruct (can_mkdir fs outdir); [|left; split; [reflexivity | discriminate]].
  rewrite page_loop_flat by lia.
  pose proof (flat_loop_completion fs (output_path pdf outdir) s (fresh initial_locals)) as Hc.
  destruct (flat_loop_write_last fs (output_path pdf outdir) s (fresh initial_locals))
    as [[Hw Hn] | (tr0 & data & Htr & Hw & Hr)];
    destruct (flat_loop fs (output_path pdf outdir) s (fresh initial_locals)) as [evs c];
    cbn [fst snd] in *.
  - left. destruct c as [| | | from v | e | |]; try contradiction; cbn [fst snd];
      (split; [change (Mkdir outdir :: evs) with ([Mkdir outdir] ++ evs);
               now rewrite writes_app, Hw
              | try discriminate]).
    intros from' p [= -> ->]. now apply (Hn from' p).
  - right. subst evs c. exists (Mkdir outdir :: tr0), data.
    cbn [fst snd]. repeat split. exact Hw.
Qed.

(** ** Bounds on the requests *)

Lemma after_cases st r :
  0 <= retries st < MAX_RETRIES ->
  (page_num (after st r) = page_num st
   /\ retries (after st r) = retries st + 1
   /\ retries st + 1 < MAX_RETRIES
   /\ reading_of r = Failed Rate_limited)
  \/ (page_num (after st r) = page_num st + 1 /\ retries (after st r) = 0).
Proof.
  intros Hr. unfold after.
  destruct (reading_of r) as [t | | [ | | ]]; try (right; split; reflexivity).
  cbv zeta. cbn [retries set_retries].
  destruct (retries st + 1 <? MAX_RETRIES) eqn:E.
  - left. apply Z.ltb_lt in E. repeat split. exact E.
  - right. split; reflexivity.
Qed.

Lemma count_calls_at_app n a b :
  count_calls_at n (a ++ b) = (count_calls_at n a + count_calls_at n b)%nat.
Proof.
  unfold count_calls_at. now rewrite calls_app, filter_app, length_app.
Qed.

Lemma count_calls_at_step n st r :
  count_calls_at n (step_events st r) = if page_num st =? n then 1%nat else 0%nat.
Proof.
  unfold count_calls_at. rewrite calls_step_events. cbn.
  now destruct (page_num st =? n).
Qed.

Lemma count_calls_at_last n fs out from st r :
  count_calls_at n (delay_and_call st r ++ fst (write_and_return fs out from st))
  = if page_num st =? n then 1%nat else 0%nat.
Proof.
  unfold count_calls_at. rewrite calls_app, calls_delay_and_call.
  unfold write_and_return.
  destruct (pages st); [|destruct (can_write fs out)]; cbn;
    now destruct (page_num st =? n).
Qed.

Lemma flat_loop_attempts fs out s :
  forall st,
    0 <= retries st < MAX_RETRIES ->
    let tr := fst (flat_loop fs out s st) in
    (Z.of_nat (count_calls_at (page_num st) tr) <= MAX_RETRIES - retries st)
    /\ (forall n, page_num st < n -> Z.of_nat (count_calls_at n tr) <= MAX_RETRIES)
    /\ (forall n, n < page_num st -> count_calls_at n tr = 0%nat).
Proof.
  induction s as [|r rest IH]; intros st Hr; cbn [flat_loop].
  - cbv zeta. cbn [fst]. change (count_calls_at _ []) with 0%nat.
    unfold MAX_RETRIES in *.
    split; [|split]; intros; [lia | | reflexivity].
    change (count_calls_at n []) with 0%nat. lia.
  - destruct (is_terminal r).
    + unfold emit. cbn [fst]. cbv zeta.
      repeat split; intros; rewrite count_calls_at_last.
      * rewrite Z.eqb_refl. unfold MAX_RETRIES in *. lia.
      * destruct (page_num st =? n); unfold MAX_RETRIES; lia.
      * destruct (page_num st =? n) eqn:E; [apply Z.eqb_eq in E; lia | reflexivity].
    + unfold emit. cbn [fst]. cbv zeta.
      destruct (after_cases st r Hr) as [(Hp & Hk & Hlt & _) | (Hp & Hk)].
      * destruct (IH (after st r)) as (H1 & H2 & H3); [lia|].
        rewrite Hp, Hk in *.
        repeat split; intros; rewrite count_calls_at_app, count_calls_at_step.
        -- rewrite Z.eqb_refl. lia.
        -- destruct (page_num st =? n) eqn:E; [apply Z.eqb_eq in E; lia|].
           specialize (H2 n). lia.
        -- destruct (page_num st =? n) eqn:E; [apply Z.eqb_eq in E; lia|].
           now rewrite H3.
      * destruct (IH (after st r)) as (H1 & H2 & H3);
          [rewrite Hk; unfold MAX_RETRIES; lia|].
        rewrite Hp, Hk in *.
        repeat split; intros; rewrite count_calls_at_app, count_calls_at_step.
        -- rewrite Z.eqb_refl. rewrite H3 by lia. lia.
        -- destruct (page_num st =? n) eqn:E; [apply Z.eqb_eq in E; lia|].
           destruct (Z.eq_dec n (page_num st + 1)) as [-> | Hn].
           ++ lia.
           ++ specialize (H2 n). lia.
        -- destruct (page_num st =? n) eqn:E; [apply Z.eqb_eq in E; lia|].
           rewrite H3 by lia. reflexivity.
Qed.

(** X3. Whatever the backend answers, [extract_pdf_multipage] asks for any
    one page at most [MAX_RETRIES] = 5 times. *)
Theorem page_requested_at_most_five_times fs s pdf outdir n :
  (count_calls_at n (fst (extract_pdf_multipage fs s pdf outdir)) <= 5)%nat.
Proof.
  unfold extract_pdf_multipage.
  destruct (can_mkdir fs outdir); [|cbn; lia].
  rewrite page_loop_flat by lia.
  pose proof (flat_loop_attempts fs (output_path pdf outdir) s (fresh initial_locals)) as H.
  pose proof (flat_loop_completion fs (output_path pdf outdir) s (fresh initial_locals)) as Hc.
  destruct (flat_loop fs (output_path pdf outdir) s (fresh initial_locals)) as [evs c].
  cbn [fst snd] in *.
  assert (count_calls_at n evs <= 5)%nat as Hn.
  { destruct H as (H1 & H2 & H3); [cbn; unfold MAX_RETRIES; lia|].
    cbn [page_num retries fresh initial_locals set_page_success set_retries] in *.
    unfold MAX_RETRIES in *.
    destruct (Z.lt_trichotomy n 1) as [Hlt | [-> | Hgt]].
    - rewrite H3 by exact Hlt. lia.
    - lia.
    - specialize (H2 n Hgt). lia. }
  destruct c as [| | | from v | e | |]; try contradiction; cbn [fst];
    change (Mkdir outdir :: evs) with ([Mkdir outdir] ++ evs);
    rewrite count_calls_at_app; cbn; exact Hn.
Qed.

Lemma gentle_cons a l :
  gentle l ->
  match l with [] => True | b :: _ => a <= b <= a + 1 end ->
  gentle (a :: l).
Proof. destruct l; cbn; tauto. Qed.

Lemma flat_loop_gentle fs out s :
  forall st,
    let l := map fst (calls (fst (flat_loop fs out s st))) in
    gentle l /\ match l with [] => True | a :: _ => a = page_num st end.
Proof.
  induction s as [|r rest IH]; intros st; cbn [flat_loop].
  - cbn. tauto.
  - destruct (is_terminal r); unfold emit; cbn [fst]; cbv zeta.
    + rewrite calls_app, calls_delay_and_call.
      unfold write_and_return.
      destruct (pages st); [|destruct (can_write fs out)]; cbn; tauto.
    + rewrite calls_app, calls_step_events. cbn [app map fst].
      destruct (IH (after st r)) as [Hg Hh]. cbv zeta in *.
      split; [|reflexivity].
      apply gentle_cons; [exact Hg|].
      destruct (map fst (calls (fst (flat_loop fs out rest (after st r)))));
        [exact I|].
      subst z. pose proof (page_num_after st r). lia.
Qed.

(** X4. The page numbers requested by a run start at 1, never go back and
    never skip a page: each request asks for the page of the previous
    request or for the next one. *)
Theorem page_cursor_starts_at_one_and_never_jumps fs s pdf outdir :
  let l := map fst (calls (fst (extract_pdf_multipage fs s pdf outdir))) in
  gentle l /\ match l with [] => True | a :: _ => a = 1 end.
Proof.
  cbv zeta. unfold extract_pdf_multipage.
  destruct (can_mkdir fs outdir); [|cbn; tauto].
  rewrite page_loop_flat by lia.
  pose proof (flat_loop_gentle fs (output_path pdf outdir) s (fresh initial_locals)) as H.
  pose proof (flat_loop_completion fs (output_path pdf outdir) s (fresh initial_locals)) as Hc.
  destruct (flat_loop fs (output_path pdf outdir) s (fresh initial_locals)) as [evs c].
  cbn [fst snd] in *. cbv zeta in H.
  destruct c as [| | | from v | e | |]; try contradiction; cbn [fst];
    change (Mkdir outdir :: evs) with ([Mkdir outdir] ++ evs);
    rewrite calls_app; exact H.
Qed.

Lemma backoffs_step_events st r :
  0 <= retries st < MAX_RETRIES ->
  Forall (fun b => In b [2; 4; 8; 16; 32]) (backoffs (step_events st r)).
Proof.
  intros Hr. unfold step_events. rewrite backoffs_app, backoffs_delay_and_call.
  destruct (reading_of r) as [t | | [ | | ]]; cbn [app backoffs flat_map];
    try constructor; [|constructor].
  unfold MAX_RETRIES in Hr.
  assert (retries st = 0 \/ retries st = 1 \/ retries st = 2
          \/ retries st = 3 \/ retries st = 4) as H by lia.
  destruct H as [-> | [-> | [-> | [-> | ->]]]]; cbn; tauto.
Qed.

Lemma retries_after st r :
  0 <= retries st < MAX_RETRIES -> 0 <= retries (after st r) < MAX_RETRIES.
Proof.
  intros Hr. destruct (after_cases st r Hr) as [(_ & -> & H & _) | (_ & ->)];
    unfold MAX_RETRIES in *; lia.
Qed.

Lemma flat_loop_backoffs fs out s :
  forall st,
    0 <= retries st < MAX_RETRIES ->
    Forall (fun b => In b [2; 4; 8; 16; 32])
           (backoffs (fst (flat_loop fs out s st))).
Proof.
  induction s as [|r rest IH]; intros st Hr; cbn [flat_loop]; [constructor|].
  destruct (is_terminal r); unfold emit; cbn [fst]; rewrite backoffs_app.
  - rewrite backoffs_delay_and_call. unfold write_and_return.
    destruct (pages st); [|destruct (can_write fs out)]; constructor.
  - apply Forall_app. split; [now apply backoffs_step_events|].
    apply IH. now apply retries_after.
Qed.

(** X5. Every backoff sleep of a run has one of the bases 2, 4, 8, 16, 32:
    the exponential backoff never exceeds [2 ** MAX_RETRIES]. *)
Theorem backoff_bases_are_bounded fs s pdf outdir :
  Forall (fun b => In b [2; 4; 8; 16; 32])
         (backoffs (fst (extract_pdf_multipage fs s pdf outdir))).
Proof.
  unfold extract_pdf_multipage.
  destruct (can_mkdir fs outdir); [|constructor].
  rewrite page_loop_flat by lia.
  pose proof (flat_loop_backoffs fs (output_path pdf outdir) s (fresh initial_locals)) as H.
  pose proof (flat_loop_completion fs (output_path pdf outdir) s (fresh initial_locals)) as Hc.
  destruct (flat_loop fs (output_path pdf outdir) s (fresh initial_locals)) as [evs c].
  cbn [fst snd] in *.
  destruct c as [| | | from v | e | |]; try contradiction; cbn [fst];
    change (Mkdir outdir :: evs) with ([Mkdir outdir] ++ evs);
    rewrite backoffs_app; apply H; cbn; unfold MAX_RETRIES; lia.
Qed.

(** ** Rate limiting between requests *)

Lemma well_delayed_delay_and_call st r tl :
  well_delayed (delay_and_call st r ++ tl) = well_delayed tl.
Proof.
  unfold delay_and_call. destruct (1 <? page_num st) eqn:E; cbn [app well_delayed].
  - now rewrite E.
  - assert ((page_num st <=? 1) = true) as ->; [|reflexivity].
    apply Z.leb_le. apply Z.ltb_ge in E. exact E.
Qed.

Lemma well_delayed_step_events st r tl :
  well_delayed (step_events st r ++ tl) = well_delayed tl.
Proof.
  unfold step_events. rewrite <- app_assoc, well_delayed_delay_and_call.
  destruct (reading_of r) as [t | | [ | | ]]; reflexivity.
Qed.

Lemma flat_loop_well_delayed fs out s :
  forall st, well_delayed (fst (flat_loop fs out s st)) = true.
Proof.
  induction s as [|r rest IH]; intros st; cbn [flat_loop]; [reflexivity|].
  destruct (is_terminal r); unfold emit; cbn [fst].
  - rewrite well_delayed_delay_and_call. unfold write_and_return.
    destruct (pages st); [|destruct (can_write fs out)]; reflexivity.
  - rewrite well_delayed_step_events. apply IH.
Qed.

(** X6. In every run, each backend call for a page after the first comes
    right after a minimum-delay sleep, the calls for the first page come
    without one, and no minimum-delay sleep is spent on anything else. *)
Theorem requests_are_spaced fs s pdf outdir :
  well_delayed (fst (extract_pdf_multipage fs s pdf outdir)) = true.
Proof.
  unfold extract_pdf_multipage.
  destruct (can_mkdir fs outdir); [|reflexivity].
  rewrite page_loop_flat by lia.
  pose proof (flat_loop_well_delayed fs (output_path pdf outdir) s (fresh initial_locals)) as H.
  pose proof (flat_loop_completion fs (output_path pdf outdir) s (fresh initial_locals)) as Hc.
  destruct (flat_loop fs (output_path pdf outdir) s (fresh initial_locals)) as [evs c].
  cbn [fst snd] in *.
  destruct c as [| | | from v | e | |]; try contradiction; cbn [fst well_delayed];
    exact H.
Qed.

(** ** The walker: what it returns and how it paces *)

Lemma writes_without_pauses tr : writes (without_pauses tr) = writes tr.
Proof.
  unfold without_pauses, writes.
  induction tr as [|ev tr IH]; [reflexivity|].
  destruct ev; simpl; rewrite ?IH; reflexivity.
Qed.

Lemma calls_without_pauses tr : calls (without_pauses tr) = calls tr.
Proof.
  unfold without_pauses, calls.
  induction tr as [|ev tr IH]; [reflexivity|].
  destruct ev; simpl; rewrite ?IH; reflexivity.
Qed.

Lemma written_by_documents w outdir pdfs :
  map fst (writes (flat_map (document_trace w outdir) pdfs))
  = flat_map (produced w outdir) pdfs.
Proof.
  induction pdfs as [|pdf tl IH]; [reflexivity|].
  cbn [flat_map]. rewrite writes_app, map_app, IH.
  now rewrite produced_is_written.
Qed.

Lemma process_directory_walk w dir outdir :
  process_directory w dir outdir
  = match sorted_by_name (glob_pdf dir (entries w dir)) with
    | [] => ([], Some [])
    | pdfs => walk w outdir pdfs 1 (Z.of_nat (List.length pdfs)) []
    end.
Proof.
  unfold process_directory, entries.
  destruct (listdir w dir) as [names|]; [|reflexivity].
  cbv zeta. now destruct (sorted_by_name (glob_pdf dir names)).
Qed.

(** X7. The list [process_directory] returns is exactly the list of the
    files written during the batch, in the order in which they were
    written. *)
Theorem walker_returns_files_written w dir outdir tr results :
  process_directory w dir outdir = (tr, Some results) ->
  results = map fst (writes tr).
Proof.
  rewrite process_directory_walk.
  destruct (sorted_by_name (glob_pdf dir (entries w dir))) as [|p tl].
  - intros [= <- <-]. reflexivity.
  - intros H. apply walk_results in H. destruct H as [-> Htr].
    rewrite <- writes_without_pauses, Htr. cbn [app].
    symmetry. apply written_by_documents.
Qed.

Lemma walker_returns_files_written_witness :
  exists tr,
    process_directory sample_world ["in"] ["out"]
    = (tr, Some [["out"; "a.txt"]; ["out"; "c.txt"]])
    /\ [["out"; "a.txt"]; ["out"; "c.txt"]] = map fst (writes tr).
Proof.
  eexists. split; [vm_compute; reflexivity|].
  apply (walker_returns_files_written sample_world ["in"] ["out"]).
  vm_compute. reflexivity.
Defined.

Lemma pauses_app a b : pauses (a ++ b) = (pauses a + pauses b)%nat.
Proof. unfold pauses. now rewrite filter_app, length_app. Qed.

Lemma pauses_none tr :
  Forall (fun ev => is_pause ev = false) tr -> pauses tr = 0%nat.
Proof.
  induction 1 as [|ev tr Hev _ IH]; [reflexivity|].
  unfold pauses in *. cbn [filter]. now rewrite Hev.
Qed.

Lemma walk_pauses w outdir pdfs :
  forall i n results tr out,
    n = i + Z.of_nat (List.length pdfs) - 1 ->
    walk w outdir pdfs i n results = (tr, Some out) ->
    pauses tr = (List.length pdfs - 1)%nat.
Proof.
  induction pdfs as [|pdf tl IH]; intros i n results tr out Hn; cbn [walk].
  - intros [= <- <-]. reflexivity.
  - destruct (extract_pdf_multipage (fs_of w) (backend w pdf) pdf outdir)
      as [evs o] eqn:E.
    pose proof (extract_no_pause (fs_of w) (backend w pdf) pdf outdir) as Hev.
    rewrite E in Hev. cbn [fst] in Hev.
    cbn [List.length] in Hn. rewrite Nat2Z.inj_succ in Hn.
    assert (forall results1,
               (let '(evs', r) := walk w outdir tl (i + 1) n results1 in
                (evs ++ (if i <? n then [Sleep_between_files] else []) ++ evs', r))
               = (tr, Some out) ->
               pauses tr = (List.length (pdf :: tl) - 1)%nat) as Hk.
    { intros results1.
      destruct (walk w outdir tl (i + 1) n results1) as [evs' r] eqn:Ew.
      intros [= <- ->].
      rewrite !pauses_app, (pauses_none _ Hev).
      assert (n = i + 1 + Z.of_nat (List.length tl) - 1) as Hn' by lia.
      rewrite (IH _ _ _ _ _ Hn' Ew).
      cbn [List.length]. destruct tl as [|q tl'].
      - assert ((i <? n) = false) as -> by (apply Z.ltb_ge; cbn in Hn; lia).
        reflexivity.
      - assert ((i <? n) = true) as ->
            by (apply Z.ltb_lt; cbn [List.length] in Hn; lia).
        cbn [List.length]. unfold pauses at 1. cbn. lia. }
    destruct o as [from [out1|] | e | |]; try discriminate; apply Hk.
Qed.

(** X8. When [process_directory] returns, it has slept between files
    exactly once less than it had documents: after every document but the
    last, whether the document succeeded or failed. *)
Theorem one_pause_between_documents w dir outdir tr results :
  process_directory w dir outdir = (tr, Some results) ->
  pauses tr
  = (List.length (sorted_by_name (glob_pdf dir (entries w dir))) - 1)%nat.
Proof.
  rewrite process_directory_walk.
  destruct (sorted_by_name (glob_pdf dir (entries w dir))) as [|p tl] eqn:E.
  - intros [= <- <-]. reflexivity.
  - apply walk_pauses. lia.
Qed.

Lemma one_pause_between_documents_witness :
  exists tr,
    process_directory sample_world ["in"] ["out"]
    = (tr, Some [["out"; "a.txt"]; ["out"; "c.txt"]])
    /\ pauses tr = 2%nat.
Proof.
  eexists. split; [vm_compute; reflexivity|].
  apply (one_pause_between_documents sample_world ["in"] ["out"] _
           [["out"; "a.txt"]; ["out"; "c.txt"]]).
  vm_compute. reflexivity.
Defined.

(** ** The walker: independence of the order of the listing *)

Lemma name_joinpath dir n : PathLib.name (PathLib.joinpath dir n) = n.
Proof. unfold PathLib.name, PathLib.joinpath. apply last_last. Qed.

Lemma name_le_refl p : name_le p p.
Proof.
  destruct (name_le_total p p); assumption.
Qed.

(** A list holds at most one arrangement that is sorted by name, as long as
    no two of its elements share a name. *)
Lemma sorted_by_name_unique l1 :
  forall l2,
    Permutation l1 l2 ->
    StronglySorted name_le l1 -> StronglySorted name_le l2 ->
    (forall p q, In p l1 -> In q l1 ->
                 PathLib.name p = PathLib.name q -> p = q) ->
    l1 = l2.
Proof.
  induction l1 as [|a l1 IH]; intros l2 Hp H1 H2 Hinj.
  - now apply Permutation_nil in Hp.
  - destruct l2 as [|b l2];
      [apply Permutation_sym, Permutation_nil in Hp; discriminate|].
    apply StronglySorted_inv in H1. destruct H1 as [H1 Ha].
    apply StronglySorted_inv in H2. destruct H2 as [H2 Hb].
    rewrite Forall_forall in Ha, Hb.
    assert (In b (a :: l1)) as Hbin
        by (apply (Permutation_in _ (Permutation_sym Hp)); now left).
    assert (In a (b :: l2)) as Hain
        by (apply (Permutation_in _ Hp); now left).
    assert (name_le a b) as Hab
        by (destruct Hbin as [<- | Hb1]; [apply name_le_refl | now apply Ha]).
    assert (name_le b a) as Hba
        by (destruct Hain as [<- | Ha1]; [apply name_le_refl | now apply Hb]).
    assert (a = b) as <-.
    { apply Hinj; [now left | exact Hbin |].
      now apply String.leb_antisym. }
    f_equal. apply IH; auto.
    + now apply Permutation_cons_inv in Hp.
    + intros p q Hpin Hqin. apply Hinj; now right.
Qed.

Lemma glob_pdf_perm dir names names' :
  Permutation names names' ->
  Permutation (glob_pdf dir names) (glob_pdf dir names').
Proof.
  intros H. unfold glob_pdf. apply Permutation_map.
  induction H; cbn [filter].
  - constructor.
  - destruct (PyStr.endswith x ".pdf"); [now constructor | assumption].
  - destruct (PyStr.endswith x ".pdf"), (PyStr.endswith y ".pdf");
      try reflexivity; try now constructor.
  - etransitivity; eassumption.
Qed.

Lemma walk_same_backend w w' outdir pdfs :
  fs_of w = fs_of w' -> backend w = backend w' ->
  forall i n results,
    walk w outdir pdfs i n results = walk w' outdir pdfs i n results.
Proof.
  intros Hf Hb.
  induction pdfs as [|pdf tl IH]; intros i n results; cbn [walk]; [reflexivity|].
  rewrite Hf, Hb.
  destruct (extract_pdf_multipage (fs_of w') (backend w' pdf) pdf outdir)
    as [evs o].
  destruct o as [from [out1|] | e | |]; try reflexivity; now rewrite IH.
Qed.

(** X9. The batch does not depend on the order in which the operating
    system lists the directory: two worlds that differ only by a
    rearrangement of the entries of the input directory give the same
    documents in the same order, hence the same trace and the same result. *)
Theorem listing_order_does_not_matter w w' dir outdir :
  fs_of w = fs_of w' -> backend w = backend w' ->
  Permutation (entries w dir) (entries w' dir) ->
  sorted_by_name (glob_pdf dir (entries w dir))
  = sorted_by_name (glob_pdf dir (entries w' dir))
  /\ process_directory w dir outdir = process_directory w' dir outdir.
Proof.
  intros Hf Hb Hp.
  assert (sorted_by_name (glob_pdf dir (entries w dir))
          = sorted_by_name (glob_pdf dir (entries w' dir))) as Hs.
  { apply sorted_by_name_unique.
    - rewrite sorted_by_name_perm, (glob_pdf_perm dir _ _ Hp).
      symmetry. apply sorted_by_name_perm.
    - apply sorted_by_name_sorted.
    - apply sorted_by_name_sorted.
    - intros p q Hpin Hqin Hn.
      apply (Permutation_in _ (sorted_by_name_perm _)) in Hpin, Hqin.
      unfold glob_pdf in Hpin, Hqin.
      apply in_map_iff in Hpin, Hqin.
      destruct Hpin as (n & <- & _). destruct Hqin as (m & <- & _).
      rewrite !name_joinpath in Hn. now subst. }
  split; [exact Hs|].
  rewrite !process_directory_walk, <- Hs.
  destruct (sorted_by_name (glob_pdf dir (entries w dir))); [reflexivity|].
  now apply walk_same_backend.
Qed.

Lemma listing_order_does_not_matter_witness :
  let w' := {| fs_of := fs_of sample_world;
               listdir := fun d =>
                 if list_eq_dec string_dec d ["in"]
                 then Some ["a.pdf"; "b.pdf"; "c.pdf"; "notes.txt"]
                 else None;
               backend := backend sample_world |} in
  sorted_by_name (glob_pdf ["in"] (entries sample_world ["in"]))
  = sorted_by_name (glob_pdf ["in"] (entries w' ["in"]))
  /\ process_directory sample_world ["in"] ["out"]
     = process_directory w' ["in"] ["out"].
Proof.
  intros w'.
  apply (listing_order_does_not_matter sample_world w' ["in"] ["out"]).
  - reflexivity.
  - reflexivity.
  - change (Permutation ["c.pdf"; "notes.txt"; "a.pdf"; "b.pdf"]
              ["a.pdf"; "b.pdf"; "c.pdf"; "notes.txt"]).
    apply (perm_trans (l' := ["c.pdf"; "a.pdf"; "notes.txt"; "b.pdf"]));
      [apply perm_skip, perm_swap|].
    apply (perm_trans (l' := ["a.pdf"; "c.pdf"; "notes.txt"; "b.pdf"]));
      [apply perm_swap|].
    apply perm_skip.
    apply (perm_trans (l' := ["c.pdf"; "b.pdf"; "notes.txt"]));
      [apply perm_skip, perm_swap|].
    apply (perm_trans (l' := ["b.pdf"; "c.pdf"; "notes.txt"]));
      [apply perm_swap|].
    reflexivity.
Defined.

(** ** The walker: an output directory that cannot be created *)

Lemma walk_unwritable w outdir pdfs :
  can_mkdir (fs_of w) outdir = false ->
  forall i n results,
    exists tr,
      walk w outdir pdfs i n results = (tr, Some results)
      /\ calls tr = [] /\ writes tr = [].
Proof.
  intros Hm.
  induction pdfs as [|pdf tl IH]; intros i n results; cbn [walk].
  - now eexists.
  - unfold extract_pdf_multipage. rewrite Hm.
    destruct (IH (i + 1) n results) as (tr & -> & Hc & Hw).
    eexists. split; [reflexivity|].
    cbn [app]. rewrite calls_app, writes_app, Hc, Hw.
    destruct (i <? n); split; reflexivity.
Qed.

(** X10. When the output directory cannot be created, every document
    fails on its own before the backend is asked anything: the batch ends
    normally with an empty result, no backend call and no file. *)
Theorem unwritable_output_directory w dir outdir :
  can_mkdir (fs_of w) outdir = false ->
  exists tr,
    process_directory w dir outdir = (tr, Some [])
    /\ calls tr = [] /\ writes tr = [].
Proof.
  intros Hm. rewrite process_directory_walk.
  destruct (sorted_by_name (glob_pdf dir (entries w dir))) as [|p tl].
  - now eexists.
  - now apply walk_unwritable.
Qed.

Lemma unwritable_output_directory_witness :
  let w := {| fs_of := {| can_mkdir := fun _ => false; can_write := fun _ => true |};
              listdir := listdir sample_world;
              backend := backend sample_world |} in
  exists tr,
    process_directory w ["in"] ["out"] = (tr, Some [])
    /\ calls tr = [] /\ writes tr = [].
Proof.
  intros w.
  apply (unwritable_output_directory w ["in"] ["out"]).
  reflexivity.
Defined.

(** ** Responses the parser cannot read *)

Lemma page_loop_other fuel fs out r rest st :
  reading_of r = Failed Other_error ->
  page_loop (S fuel) fs out (r :: rest) st
  = emit (delay_and_call (fresh st) r)
      (page_loop fuel fs out rest (next_page (fresh st))).
Proof.
  intros Hread.
  assert (is_terminal r = false) as T by (unfold is_terminal; now rewrite Hread).
  rewrite page_loop_resume, retry_loop_cons, retries_fresh.
  change (0 <? MAX_RETRIES) with true. cbv iota.
  rewrite (attempt_step _ _ _ _ _ T), Hread.
  unfold step_events. rewrite Hread, app_nil_r.
  reflexivity.
Qed.

(** X11. A response the backend returned successfully is lost when it is a
    string that decodes as JSON to anything but an object (a number, a
    list, a quoted string, true, null), or to an object whose
    "natural_text" is not a string: the parser raises, the page is handled
    as an ordinary page error, nothing is appended and the cursor moves to
    the next page. *)
Theorem undecodable_answer_loses_the_page fs out s parsed rest st fuel :
  (forall members, parsed <> JObject members)
  \/ (exists members,
        parsed = JObject members
        /\ forall t, dict_get members "natural_text" (JString s) <> JString t) ->
  let r := Returns (Json_str s parsed) in
  reading_of r = Failed Other_error
  /\ page_loop (S fuel) fs out (r :: rest) st
     = emit (delay_and_call (fresh st) r)
         (page_loop fuel fs out rest (next_page (fresh st)))
  /\ pages (next_page (fresh st)) = pages st
  /\ page_num (next_page (fresh st)) = page_num st + 1.
Proof.
  intros H r.
  assert (reading_of r = Failed Other_error) as Hread.
  { unfold reading_of.
    destruct (read_text r) as [e | t] eqn:E.
    - now rewrite (parse_failure_other _ _ E).
    - exfalso. unfold r, read_text, _parse_typhoon_response in E.
      destruct H as [H | (members & -> & H)].
      + destruct parsed; try discriminate. now apply (H members).
      + unfold method_strip in E.
        destruct (dict_get members "natural_text" (JString s)) eqn:D;
          try discriminate.
        now apply (H s0). }
  split; [exact Hread|]. split; [now apply page_loop_other|].
  split; reflexivity.
Qed.

Lemma undecodable_answer_loses_the_page_witness :
  let r := Returns (Json_str "2024" (JInt 2024)) in
  let st := Locals 3 ["A"; "B"] 0 false in
  let rest := [page "D"; Error "page not found"] in
  reading_of r = Failed Other_error
  /\ page_loop 3 permissive_fs ["out"; "d.txt"] (r :: rest) st
     = emit (delay_and_call (fresh st) r)
         (page_loop 2 permissive_fs ["out"; "d.txt"] rest (next_page (fresh st)))
  /\ pages (next_page (fresh st)) = pages st
  /\ page_num (next_page (fresh st)) = page_num st + 1.
Proof.
  intros r st rest.
  apply (undecodable_answer_loses_the_page permissive_fs ["out"; "d.txt"]
           "2024" (JInt 2024) rest st 2).
  left. discriminate.
Defined.

(** ** The entry point *)

(** X12. With an input path that does not exist or is not a directory, the
    script exits with status 1 before anything happens: no directory is
    created, the backend is not called, no file is written. *)
Theorem invalid_input_directory_aborts env w is_dir dir outdir provided :
  listdir w dir = None \/ is_dir dir = false ->
  exists a,
    main_block env w is_dir dir outdir provided = ([], Exits a)
    /\ exit_status a = 1.
Proof.
  intros H. unfold main_block, get_api_key_priority_order.
  destruct (_ && _)%bool;
    [|destruct (truthy_opt (env "TYPHOON_OCR_API_KEY"));
      [|destruct (truthy_opt (env "OPENAI_API_KEY"));
        [|eexists; split; reflexivity]]].
  all: destruct (listdir w dir); [|eexists; split; reflexivity].
  all: destruct H as [H | H]; [discriminate|].
  all: rewrite H; eexists; split; reflexivity.
Qed.

Lemma invalid_input_directory_aborts_witness :
  exists a,
    main_block (fun _ => None) sample_world (fun _ => true)
      ["missing"] ["out"] (Some "sk-cli")
    = ([], Exits a)
    /\ exit_status a = 1.
Proof.
  apply (invalid_input_directory_aborts (fun _ => None) sample_world (fun _ => true)
           ["missing"] ["out"] (Some "sk-cli")).
  left. reflexivity.
Defined.

(** X13. When the script runs to its last line, a credential was resolved
    and stored in TYPHOON_OCR_API_KEY (no other variable changed), the
    input path is an existing directory, and the list whose length the
    final log line reports is the list of the files written. *)
Theorem completed_script env w is_dir dir outdir provided tr env1 results :
  main_block env w is_dir dir outdir provided = (tr, Completes env1 results) ->
  exists api_key,
    get_api_key_priority_order env provided = inr api_key
    /\ env1 "TYPHOON_OCR_API_KEY" = Some api_key
    /\ (forall v, v <> "TYPHOON_OCR_API_KEY" -> env1 v = env v)
    /\ listdir w dir <> None /\ is_dir dir = true
    /\ results = map fst (writes tr)
    /\ process_directory w dir outdir = (tr, Some results).
Proof.
  unfold main_block.
  destruct (get_api_key_priority_order env provided) as [a | api_key];
    [discriminate|].
  destruct (listdir w dir) as [names|] eqn:El; [|discriminate].
  destruct (is_dir dir); [|discriminate].
  destruct (process_directory w dir outdir) as [tr' [results'|]] eqn:Ep;
    [|discriminate].
  intros [= <- <- <-].
  exists api_key.
  split; [reflexivity|]. split; [reflexivity|].
  split; [|split; [discriminate|split; [reflexivity|split; [|reflexivity]]]].
  - intros v Hv. unfold setenv.
    apply String.eqb_neq in Hv. now rewrite Hv.
  - clear El.
    pose proof (process_directory_walk w dir outdir) as Hw.
    rewrite Ep in Hw.
    destruct (sorted_by_name (glob_pdf dir (entries w dir))) as [|p tl].
    + injection Hw as -> ->. reflexivity.
    + symmetry in Hw. apply walk_results in Hw. destruct Hw as [-> Htr].
      rewrite <- writes_without_pauses, Htr. cbn [app].
      symmetry. apply written_by_documents.
Qed.

Lemma completed_script_witness :
  exists tr env1,
    main_block (fun _ => None) sample_world (fun _ => true)
      ["in"] ["out"] (Some "sk-cli")
    = (tr, Completes env1 [["out"; "a.txt"]; ["out"; "c.txt"]])
    /\ env1 "TYPHOON_OCR_API_KEY" = Some "sk-cli"
    /\ [["out"; "a.txt"]; ["out"; "c.txt"]] = map fst (writes tr).
Proof.
  eexists _, _. split; [vm_compute; reflexivity|].
  destruct (completed_script (fun _ => None) sample_world (fun _ => true)
              ["in"] ["out"] (Some "sk-cli") _ _ _ eq_refl)
    as (k & _ & _ & _ & _ & _ & Hr & _).
  split; [reflexivity | exact Hr].
Defined.

(** ** The key shown in the log *)

Lemma length_string_of_list_ascii l :
  String.length (string_of_list_ascii l) = List.length l.
Proof. induction l; cbn; congruence. Qed.

Lemma length_stars n : String.length (stars n) = Z.to_nat n.
Proof.
  unfold stars. now rewrite length_string_of_list_ascii, repeat_length.
Qed.

Lemma string_length_append (a b : string) :
  String.length (a ++ b)%string = (String.length a + String.length b)%nat.
Proof. induction a; cbn; congruence. Qed.

Lemma substring_split s :
  forall n, (n <= String.length s)%nat ->
    s = (String.substring 0 n s ++ String.substring n (String.length s - n) s)%string.
Proof.
  induction s as [|c s IH]; intros [|n] Hn; cbn in *; try lia.
  - reflexivity.
  - f_equal. clear IH Hn. induction s as [|d s IH]; cbn; congruence.
  - f_equal. apply IH. lia.
Qed.

Lemma length_substring s :
  forall n m, (n + m <= String.length s)%nat ->
    String.length (String.substring n m s) = m.
Proof.
  induction s as [|c s IH]; intros [|n] [|m] Hn; cbn in *; try lia; try reflexivity.
  - f_equal. apply (IH 0%nat). lia.
  - apply (IH n 0%nat). lia.
  - apply IH. lia.
Qed.

(** X14. The key displayed at start-up never shows more than its last four
    characters: a key of at most four characters is displayed as "****",
    whatever it is; a longer key is displayed with its own length, as
    stars followed by its last four characters. *)
Theorem displayed_key_hides_all_but_four api_key :
  ((String.length api_key <= 4)%nat -> masked_key api_key = "****")
  /\ ((4 < String.length api_key)%nat ->
      exists hidden shown,
        api_key = (hidden ++ shown)%string
        /\ String.length shown = 4%nat
        /\ masked_key api_key
           = (stars (Z.of_nat (String.length hidden)) ++ shown)%string
        /\ String.length (masked_key api_key) = String.length api_key).
Proof.
  unfold masked_key. split; intros H.
  - assert ((4 <? Z.of_nat (String.length api_key)) = false) as ->
        by (apply Z.ltb_ge; lia).
    unfold stars.
    replace (Z.to_nat (Z.of_nat (String.length api_key) - 4)) with 0%nat by lia.
    reflexivity.
  - assert ((4 <? Z.of_nat (String.length api_key)) = true) as ->
        by (apply Z.ltb_lt; lia).
    set (n := String.length api_key) in *.
    exists (String.substring 0 (n - 4) api_key), (last_four api_key).
    assert (String.length (last_four api_key) = 4%nat) as Hl
        by (unfold last_four; apply length_substring; fold n; lia).
    assert (String.length (String.substring 0 (n - 4) api_key) = (n - 4)%nat) as Hh
        by (apply length_substring; fold n; lia).
    repeat split.
    + pose proof (substring_split api_key (n - 4)) as Hs.
      fold n in Hs.
      replace (n - (n - 4))%nat with 4%nat in Hs by lia.
      apply Hs. lia.
    + exact Hl.
    + rewrite Hh. f_equal. f_equal. lia.
    + rewrite string_length_append, length_stars, Hl. lia.
Qed.

Lemma displayed_key_hides_all_but_four_witness :
  masked_key "abc" = "****"
  /\ masked_key "sk-1234567" = "******4567".
Proof.
  split.
  - apply (proj1 (displayed_key_hides_all_but_four "abc")). cbn. lia.
  - destruct (proj2 (displayed_key_hides_all_but_four "sk-1234567"))
      as (hidden & shown & _ & _ & _ & _); [cbn; lia|].
    reflexivity.
Defined.

(** * Properties of the chunk splitter *)

(** ** [split_into_chunks] *)

Lemma firstn_add_skipn {A} (a b : nat) :
  forall l : list A, firstn (a + b) l = firstn a l ++ firstn b (skipn a l).
Proof.
  induction a as [|a IH]; intros l; [reflexivity|].
  destruct l as [|x l]; cbn [Nat.add firstn skipn app].
  - now rewrite firstn_nil.
  - now rewrite IH.
Qed.

Lemma concat_chunks_from {A} (l : list A) (cs : nat) m :
  forall k,
    List.concat (map (fun i => firstn cs (skipn (i * cs) l)) (seq k m))
    = firstn (m * cs) (skipn (k * cs) l).
Proof.
  induction m as [|m IH]; intros k; [reflexivity|].
  cbn [seq map List.concat]. rewrite IH.
  cbn [Nat.mul]. rewrite firstn_add_skipn, skipn_skipn.
  now rewrite (Nat.add_comm cs (k * cs)).
Qed.

(** The exact ceiling of a positive quotient. *)
Lemma ceil_div_bounds a b :
  0 <= a -> 0 < b ->
  b * (Splitter.ceil_div a b - 1) < a <= b * Splitter.ceil_div a b.
Proof.
  intros Ha Hb. unfold Splitter.ceil_div.
  pose proof (Z.div_mod (- a) b ltac:(lia)) as Hd.
  pose proof (Z.mod_pos_bound (- a) b Hb) as Hm.
  nia.
Qed.

Lemma slice_chunk {A} (l : list A) (cs : Z) (i : nat) :
  0 <= cs ->
  Splitter.slice l (Z.of_nat i * cs)
    (Z.min (Z.of_nat i * cs + cs) (Z.of_nat (List.length l)))
  = firstn (Z.to_nat cs) (skipn (i * Z.to_nat cs) l).
Proof.
  intros Hcs. unfold Splitter.slice.
  set (n := Z.of_nat (List.length l)).
  set (start := Z.of_nat i * cs).
  assert (0 <= start) as Hs by (unfold start; nia).
  assert (Z.to_nat start = (i * Z.to_nat cs)%nat) as Hnat
      by (unfold start; rewrite Z2Nat.inj_mul, Nat2Z.id; lia).
  assert ((start <? 0) = false) as -> by (apply Z.ltb_ge; lia).
  assert ((Z.min (start + cs) n <? 0) = false) as ->
      by (apply Z.ltb_ge; unfold n; lia).
  destruct (Z_lt_le_dec start n) as [Hlt | Hge].
  - rewrite (Z.min_l start n) by lia. rewrite Hnat.
    rewrite (Z.min_l (Z.min (start + cs) n) n) by lia.
    destruct (Z_le_gt_dec (start + cs) n) as [Hle | Hgt].
    + rewrite Z.min_l by lia. f_equal. lia.
    + rewrite Z.min_r by lia.
      rewrite !firstn_all2; [reflexivity | |]; rewrite length_skipn;
        unfold n in *; lia.
  - rewrite (Z.min_r start n) by lia.
    rewrite (Z.min_r (start + cs) n) by lia.
    rewrite Z.min_id, Z.sub_diag. cbn [Z.to_nat firstn].
    rewrite (skipn_all2 (n := (i * Z.to_nat cs)%nat));
      [now rewrite firstn_nil | unfold n in *; lia].
Qed.

(** For a positive number of chunks, the chunks in terms of [firstn] and
    [skipn], with the chunk size the function computes. *)
Lemma split_into_chunks_nat {A} (l : list A) (n : Z) :
  0 < n ->
  let cs := Z.to_nat (Splitter.ceil_div (Z.of_nat (List.length l)) n) in
  Splitter.split_into_chunks l n
  = inr (map (fun i => firstn cs (skipn (i * cs) l)) (seq 0 (Z.to_nat n)))
  /\ (List.length l <= Z.to_nat n * cs)%nat
  /\ (l <> [] -> ((cs - 1) * Z.to_nat n < List.length l)%nat).
Proof.
  intros Hn cs.
  pose proof (ceil_div_bounds (Z.of_nat (List.length l)) n ltac:(lia) Hn) as Hb.
  assert (0 <= Splitter.ceil_div (Z.of_nat (List.length l)) n) as Hcs by nia.
  split; [|split].
  - subst cs. unfold Splitter.split_into_chunks, Splitter.range.
    destruct l as [|x l'] eqn:El.
    + rewrite map_map. apply f_equal. apply map_ext. intros i.
      now rewrite skipn_nil, firstn_nil.
    + rewrite <- El in *.
      assert ((n =? 0) = false) as -> by (apply Z.eqb_neq; lia).
      cbv zeta. rewrite map_map. apply f_equal. apply map_ext. intros i.
      now apply slice_chunk.
  - unfold cs. nia.
  - intros Hl. unfold cs.
    assert (0 < Z.of_nat (List.length l)) by (destruct l; [congruence | cbn; lia]).
    nia.
Qed.

Lemma nth_map_seq {B} (f : nat -> B) (m i : nat) (d : B) :
  (i < m)%nat -> nth i (map f (seq 0 m)) d = f i.
Proof.
  intros Hi.
  rewrite (nth_indep _ d (f 0%nat)) by (rewrite length_map, length_seq; exact Hi).
  rewrite map_nth, seq_nth by exact Hi. reflexivity.
Qed.

(** X15. With a positive number of chunks, [split_into_chunks] returns that
    many chunks, and the chunks put end to end give back the list: every
    file is in exactly one chunk and the order is kept. *)
Theorem chunks_partition_the_list {A} (l : list A) (n : Z) :
  0 < n ->
  exists chunks,
    Splitter.split_into_chunks l n = inr chunks
    /\ List.concat chunks = l
    /\ List.length chunks = Z.to_nat n.
Proof.
  intros Hn.
  destruct (split_into_chunks_nat l n Hn) as (Hs & Hlen & _).
  eexists. split; [exact Hs|]. split.
  - rewrite concat_chunks_from. cbn [Nat.mul skipn].
    apply firstn_all2. exact Hlen.
  - now rewrite length_map, length_seq.
Qed.

Lemma chunks_partition_the_list_witness :
  exists chunks,
    Splitter.split_into_chunks ["a"; "b"; "c"; "d"] 3 = inr chunks
    /\ List.concat chunks = ["a"; "b"; "c"; "d"]
    /\ List.length chunks = 3%nat.
Proof.
  apply (chunks_partition_the_list ["a"; "b"; "c"; "d"] 3). reflexivity.
Defined.

(** X16. The chunks are filled from the front with the chunk size
    [ceil(len / num_chunks)]: chunk [i] holds [min(size, len - i * size)]
    elements, so the sizes never increase, only the last non-empty chunk
    can be short, and trailing chunks are empty when fewer chunks of that
    size suffice (4 files in 3 chunks give sizes 2, 2, 0). *)
Theorem chunks_are_filled_from_the_front {A} (l : list A) (n : Z) chunks :
  0 < n ->
  Splitter.split_into_chunks l n = inr chunks ->
  let size := Z.to_nat (Splitter.ceil_div (Z.of_nat (List.length l)) n) in
  (List.length l <= Z.to_nat n * size)%nat
  /\ (l <> [] -> ((size - 1) * Z.to_nat n < List.length l)%nat)
  /\ forall i, (i < Z.to_nat n)%nat ->
       nth i chunks [] = firstn size (skipn (i * size) l)
       /\ List.length (nth i chunks [])
          = Nat.min size (List.length l - i * size).
Proof.
  intros Hn Hs size.
  destruct (split_into_chunks_nat l n Hn) as (Hs' & Hlen & Hlow).
  rewrite Hs in Hs'. injection Hs' as ->. fold size.
  split; [exact Hlen|]. split; [exact Hlow|].
  intros i Hi.
  assert (nth i (map (fun i => firstn size (skipn (i * size) l)) (seq 0 (Z.to_nat n))) []
          = firstn size (skipn (i * size) l)) as Hnth.
  { exact (nth_map_seq (fun i => firstn size (skipn (i * size) l))
             (Z.to_nat n) i [] Hi). }
  split; [exact Hnth|].
  rewrite Hnth, length_firstn, length_skipn. reflexivity.
Qed.

Lemma chunks_are_filled_from_the_front_witness :
  map (@List.length string)
      (match Splitter.split_into_chunks ["a"; "b"; "c"; "d"] 3 with
       | inr chunks => chunks
       | inl _ => []
       end)
  = [2%nat; 2%nat; 0%nat]
  /\ List.length (nth 2 [["a"; "b"]; ["c"; "d"]; []] [])
     = Nat.min 2 (4 - 2 * 2).
Proof.
  split; [reflexivity|].
  apply (chunks_are_filled_from_the_front ["a"; "b"; "c"; "d"] 3
           [["a"; "b"]; ["c"; "d"]; []]); [reflexivity | reflexivity | lia].
Defined.

(** X17. A number of chunks that is not positive is not rejected: with a
    negative number the function returns no chunk at all, so a non-empty
    list is silently dropped; with zero it raises ZeroDivisionError on a
    non-empty list and returns no chunk on an empty one. *)
Theorem nonpositive_chunk_count {A} (l : list A) (n : Z) :
  (n < 0 -> Splitter.split_into_chunks l n = inr [])
  /\ (l <> [] -> Splitter.split_into_chunks l 0 = inl Splitter.ZeroDivisionError)
  /\ Splitter.split_into_chunks (@nil A) 0 = inr [].
Proof.
  split; [|split; [|reflexivity]].
  - intros Hn. unfold Splitter.split_into_chunks, Splitter.range.
    replace (Z.to_nat n) with 0%nat by lia.
    destruct l; [reflexivity|].
    assert ((n =? 0) = false) as -> by (apply Z.eqb_neq; lia).
    reflexivity.
  - intros Hl. destruct l; [congruence | reflexivity].
Qed.

(** ** [get_unprocessed_files] *)

Lemma str_lt_trans a b c :
  Splitter.str_lt a b -> Splitter.str_lt b c -> Splitter.str_lt a c.
Proof.
  unfold Splitter.str_lt. intros Hab Hbc.
  pose proof (string_compare_trans_not_gt a b c) as H.
  destruct (String.compare a c) eqn:E; [| reflexivity |].
  - apply String.compare_eq_iff in E. subst c.
    rewrite String.compare_antisym, Hab in Hbc. discriminate.
  - exfalso. apply H; congruence.
Qed.

Lemma str_lt_irrefl a : ~ Splitter.str_lt a a.
Proof.
  unfold Splitter.str_lt. intros H.
  pose proof (String.compare_antisym a a) as Ha. rewrite H in Ha. discriminate.
Qed.

Lemma in_insert_str s l x :
  In x (Splitter.insert_str s l) <-> x = s \/ In x l.
Proof.
  induction l as [|t tl IH]; cbn [Splitter.insert_str In].
  - intuition.
  - destruct (String.compare s t) eqn:E; cbn [In].
    + apply String.compare_eq_iff in E. subst t. intuition.
    + intuition.
    + rewrite IH. intuition.
Qed.

Lemma insert_str_sorted s l :
  StronglySorted Splitter.str_lt l ->
  StronglySorted Splitter.str_lt (Splitter.insert_str s l).
Proof.
  induction 1 as [|t tl Hs IH Ht]; cbn [Splitter.insert_str].
  - repeat constructor.
  - destruct (String.compare s t) eqn:E.
    + now constructor.
    + constructor; [now constructor|].
      constructor; [exact E|].
      eapply Forall_impl; [|exact Ht].
      intros r Hr. now apply (str_lt_trans s t r).
    + constructor; [exact IH|].
      apply Forall_forall. intros x Hx. apply in_insert_str in Hx.
      destruct Hx as [-> | Hx].
      * unfold Splitter.str_lt. rewrite String.compare_antisym, E. reflexivity.
      * rewrite Forall_forall in Ht. now apply Ht.
Qed.

Lemma sorted_set_sorted l : StronglySorted Splitter.str_lt (Splitter.sorted_set l).
Proof.
  induction l as [|s l IH]; cbn [Splitter.sorted_set fold_right]; [constructor|].
  now apply insert_str_sorted.
Qed.

Lemma in_sorted_set l x : In x (Splitter.sorted_set l) <-> In x l.
Proof.
  induction l as [|s l IH]; cbn [Splitter.sorted_set fold_right In]; [tauto|].
  fold (Splitter.sorted_set l). rewrite in_insert_str, IH. intuition.
Qed.

Lemma strictly_sorted_nodup l :
  StronglySorted Splitter.str_lt l -> NoDup l.
Proof.
  induction 1 as [|t tl Hs IH Ht]; constructor; [|exact IH].
  intros Hin. rewrite Forall_forall in Ht.
  exact (str_lt_irrefl t (Ht t Hin)).
Qed.

Lemma existsb_eqb_in s l :
  existsb (String.eqb s) l = true <-> In s l.
Proof.
  rewrite existsb_exists. split.
  - intros (x & Hx & E). apply String.eqb_eq in E. now subst.
  - intros H. exists s. split; [exact H | apply String.eqb_refl].
Qed.

Lemma in_get_unprocessed_files listdir train extracted s :
  In s (Splitter.get_unprocessed_files listdir train extracted) <->
  In s (Splitter.pdf_stems listdir train)
  /\ ~ In s (Splitter.txt_stems listdir extracted).
Proof.
  unfold Splitter.get_unprocessed_files.
  destruct (listdir train) as [names|] eqn:E.
  - cbv zeta. rewrite in_sorted_set, filter_In, negb_true_iff.
    pose proof (existsb_eqb_in s (Splitter.txt_stems listdir extracted)) as Hx.
    destruct (existsb (String.eqb s) (Splitter.txt_stems listdir extracted)).
    + split; [intros [_ H]; discriminate|].
      intros [_ H]. exfalso. apply H, Hx. reflexivity.
    + split; intros [H _]; (split; [exact H|]); [|reflexivity].
      intros H'. apply Hx in H'. discriminate.
  - unfold Splitter.pdf_stems. rewrite E. cbn [In]. tauto.
Qed.

(** X18. [get_unprocessed_files] returns, in strictly ascending order and
    without repetition, exactly the stems of the PDF files of the training
    directory that are the stem of no text file of the output directory; a
    missing training directory gives the empty list and a missing output
    directory leaves every PDF unprocessed. *)
Theorem unprocessed_files_are_exact listdir train extracted :
  let result := Splitter.get_unprocessed_files listdir train extracted in
  StronglySorted Splitter.str_lt result
  /\ NoDup result
  /\ (forall s, In s result <->
                In s (Splitter.pdf_stems listdir train)
                /\ ~ In s (Splitter.txt_stems listdir extracted))
  /\ (listdir train = None -> result = [])
  /\ (listdir extracted = None ->
      forall s, In s result <-> In s (Splitter.pdf_stems listdir train)).
Proof.
  cbv zeta.
  assert (StronglySorted Splitter.str_lt
            (Splitter.get_unprocessed_files listdir train extracted)) as Hs.
  { unfold Splitter.get_unprocessed_files.
    destruct (listdir train); [apply sorted_set_sorted | constructor]. }
  split; [exact Hs|]. split; [now apply strictly_sorted_nodup|].
  split; [apply in_get_unprocessed_files|]. split.
  - intros E. unfold Splitter.get_unprocessed_files. now rewrite E.
  - intros E s. rewrite in_get_unprocessed_files.
    unfold Splitter.txt_stems at 1. rewrite E. cbn [In]. tauto.
Qed.

Lemma substring_prefix_append (s t : string) :
  String.substring 0 (String.length s) (s ++ t)%string = s.
Proof.
  induction s as [|c s IH]; cbn.
  - now destruct t.
  - now rewrite IH.
Qed.

Lemma substring_suffix_append (s t : string) :
  String.substring (String.length s) (String.length t) (s ++ t)%string = t.
Proof.
  induction s as [|c s IH]; cbn; [|exact IH].
  induction t as [|d t IHt]; cbn; congruence.
Qed.

Lemma endswith_append (s suffix : string) :
  PyStr.endswith (s ++ suffix)%string suffix = true.
Proof.
  unfold PyStr.endswith. rewrite string_length_append.
  replace (String.length s + String.length suffix - String.length suffix)%nat
    with (String.length s) by lia.
  rewrite substring_suffix_append, String.eqb_refl.
  apply andb_true_iff. split; [apply Nat.leb_le; lia | reflexivity].
Qed.

Lemma rfind_dot_append_ext (s ext : string) :
  PathLib.rfind_dot ext = None ->
  PathLib.rfind_dot (s ++ "." ++ ext)%string = Some (String.length s).
Proof.
  intros He. induction s as [|c s IH]; cbn.
  - now rewrite He.
  - cbn in IH. now rewrite IH.
Qed.

(** The stem of [<stem>.<ext>] is [<stem>], for a non-empty stem and an
    extension without dot. *)
Lemma stem_of_stem_ext dir (s ext : string) :
  s <> "" -> ext <> "" -> PathLib.rfind_dot ext = None ->
  PathLib.stem (PathLib.joinpath dir (s ++ "." ++ ext)%string) = s.
Proof.
  intros Hs He Hd. unfold PathLib.stem. rewrite name_joinpath.
  rewrite (rfind_dot_append_ext s ext Hd).
  assert ((0 <? String.length s)%nat = true) as ->
      by (apply Nat.ltb_lt; destruct s; [congruence | cbn; lia]).
  assert ((String.length s <? String.length (s ++ "." ++ ext) - 1)%nat = true) as ->.
  { apply Nat.ltb_lt. rewrite string_length_append. cbn [append String.length].
    destruct ext; [congruence | cbn; lia]. }
  cbn [andb]. apply substring_prefix_append.
Qed.

Lemma endswith_length n suffix :
  PyStr.endswith n suffix = true -> (String.length suffix <= String.length n)%nat.
Proof.
  unfold PyStr.endswith. intros H. apply andb_true_iff in H.
  destruct H as [H _]. now apply Nat.leb_le.
Qed.

Lemma stem_nonempty p :
  PathLib.name p <> "" -> PathLib.stem p <> "".
Proof.
  unfold PathLib.stem. intros Hn.
  destruct (PathLib.rfind_dot (PathLib.name p)) as [i|]; [|exact Hn].
  destruct (Nat.ltb 0 i && Nat.ltb i (String.length (PathLib.name p) - 1))%bool eqn:E;
    [|exact Hn].
  apply andb_true_iff in E. destruct E as [E1 E2].
  apply Nat.ltb_lt in E1, E2.
  intros H.
  pose proof (length_substring (PathLib.name p) 0 i ltac:(lia)) as Hl.
  rewrite H in Hl. cbn in Hl. lia.
Qed.

(** X19. The two scripts agree on file names: once the extractor has
    written the output file of a document into the output directory, that
    document is no longer reported as unprocessed. *)
Theorem extracted_document_is_processed listdir train extracted names names' n :
  listdir train = Some names ->
  In n names -> PyStr.endswith n ".pdf" = true ->
  listdir extracted = Some names' ->
  In (PathLib.name (output_path (PathLib.joinpath train n) extracted)) names' ->
  ~ In (PathLib.stem (PathLib.joinpath train n))
       (Splitter.get_unprocessed_files listdir train extracted).
Proof.
  intros Ht Hn He Hx Hout Hin.
  apply in_get_unprocessed_files in Hin.
  destruct Hin as [_ Hnot]. apply Hnot.
  unfold Splitter.txt_stems. rewrite Hx.
  set (s := PathLib.stem (PathLib.joinpath train n)) in *.
  unfold output_path in Hout. rewrite name_joinpath in Hout. fold s in Hout.
  apply in_map_iff. exists (PathLib.joinpath extracted (s ++ ".txt")%string).
  split.
  - apply (stem_of_stem_ext extracted s "txt"); [|discriminate | reflexivity].
    apply stem_nonempty. rewrite name_joinpath.
    apply endswith_length in He. destruct n; [cbn in He; lia | discriminate].
  - unfold Splitter.glob_txt. apply in_map. apply filter_In.
    split; [exact Hout | apply (endswith_append s ".txt")].
Qed.

Lemma extracted_document_is_processed_witness :
  ~ In (PathLib.stem (PathLib.joinpath Splitter.train_docs_dir "b.pdf"))
       (Splitter.get_unprocessed_files Splitter.sample_listing
          Splitter.train_docs_dir Splitter.extracted_texts_dir).
Proof.
  apply (extracted_document_is_processed Splitter.sample_listing
           Splitter.train_docs_dir Splitter.extracted_texts_dir
           ["e.pdf"; "b.pdf"; "a.pdf"; "d.pdf"; "readme.md"; "c.pdf"]
           ["b.txt"; "d.txt"] "b.pdf").
  - reflexivity.
  - cbn [In]. tauto.
  - reflexivity.
  - reflexivity.
  - vm_compute. tauto.
Defined.

(** ** [create_folders_and_copy_files] *)

Lemma copies_app a b :
  Splitter.copies (a ++ b) = Splitter.copies a ++ Splitter.copies b.
Proof. unfold Splitter.copies. apply flat_map_app. Qed.

Lemma folders_app a b :
  Splitter.folders (a ++ b) = Splitter.folders a ++ Splitter.folders b.
Proof. unfold Splitter.folders. apply flat_map_app. Qed.

Lemma orderly_mono d acts :
  forall made made', incl made made' ->
    Splitter.orderly d made acts -> Splitter.orderly d made' acts.
Proof.
  induction acts as [|[p|s t|] tl IH]; intros made made' Hi; cbn [Splitter.orderly].
  - trivial.
  - apply IH. intros x [<-|Hx]; [now left | right; now apply Hi].
  - intros (H1 & H2 & H3 & H4). repeat split; auto. now apply (IH made).
  - now apply IH.
Qed.

Lemma orderly_app d a b :
  forall made,
    Splitter.orderly d made a -> Splitter.orderly d made b ->
    Splitter.orderly d made (a ++ b).
Proof.
  induction a as [|[p|s t|] tl IH]; intros made Ha Hb;
    cbn [app Splitter.orderly] in *.
  - exact Hb.
  - apply IH; [exact Ha|]. apply (orderly_mono d b made); [|exact Hb].
    intros x Hx. now right.
  - destruct Ha as (H1 & H2 & H3 & H4). repeat split; auto.
  - now apply IH.
Qed.

Lemma parent_joinpath p n : Splitter.parent (PathLib.joinpath p n) = p.
Proof. unfold Splitter.parent, PathLib.joinpath. apply removelast_last. Qed.

Lemma copy_chunk_orderly d train folder made chunk :
  In folder made ->
  Splitter.orderly d made (fst (Splitter.copy_chunk d train folder chunk))
  /\ Splitter.folders (fst (Splitter.copy_chunk d train folder chunk)) = [].
Proof.
  intros Hf. induction chunk as [|f tl IH]; cbn [Splitter.copy_chunk].
  - now split.
  - destruct (Splitter.exists_file d _) eqn:Ex; [|exact IH].
    destruct (Splitter.copy_ok d _ _); [|now split].
    destruct (Splitter.copy_chunk d train folder tl) as [acts e].
    cbn [fst] in *. destruct IH as [IH1 IH2]. split.
    + cbn [Splitter.orderly]. rewrite parent_joinpath, !name_joinpath.
      repeat split; auto.
    + exact IH2.
Qed.

Lemma copy_chunk_healthy d train folder chunk :
  Splitter.healthy d ->
  exists acts,
    Splitter.copy_chunk d train folder chunk = (acts, None)
    /\ map fst (Splitter.copies acts)
       = map (Splitter.source_of train)
           (filter (fun f => Splitter.exists_file d (Splitter.source_of train f))
              chunk).
Proof.
  intros [_ Hc]. induction chunk as [|f tl (acts & E & IH)];
    cbn [Splitter.copy_chunk filter].
  - now exists [].
  - fold (Splitter.source_of train f).
    destruct (Splitter.exists_file d (Splitter.source_of train f)).
    + rewrite Hc, E. eexists. split; [reflexivity|].
      cbn [Splitter.copies flat_map app map fst].
      fold (Splitter.copies acts). now rewrite IH.
    + now exists acts.
Qed.

Lemma folder_of_inj base i j :
  Splitter.folder_of base i = Splitter.folder_of base j -> i = j.
Proof.
  unfold Splitter.folder_of, Splitter.decimal. intros [= H].
  assert (forall (p a b : string), (p ++ a = p ++ b)%string -> a = b) as Happ.
  { induction p as [|c p IH]; cbn; intros a b E; [exact E|].
    injection E as E. now apply IH. }
  apply Happ in H. cbn in H. injection H as H.
  assert (forall z, Z.to_int z <> Decimal.Pos Decimal.Nil
                    /\ Z.to_int z <> Decimal.Neg Decimal.Nil) as Hnn.
  { intros [|p|p]; cbn; split; try discriminate;
      intros [= E]; now apply DecimalPos.Unsigned.to_uint_nonnil in E. }
  assert (Some (Z.to_int i) = Some (Z.to_int j)) as E.
  { rewrite <- (NilZero.isi (Z.to_int i)), <- (NilZero.isi (Z.to_int j));
      try apply Hnn. now rewrite H. }
  injection E as E.
  rewrite <- (DecimalZ.of_to i), <- (DecimalZ.of_to j). now rewrite E.
Qed.

(** The folders made for the chunks numbered from [i] are those of a
    strictly increasing list of numbers from [i] on, one per chunk at most;
    the actions are orderly. *)
Lemma create_folders_from_any d train base chunks :
  forall i made,
    let acts := fst (Splitter.create_folders_from d train base i chunks) in
    Splitter.orderly d made acts
    /\ (List.length (Splitter.folders acts) <= List.length chunks)%nat
    /\ exists idxs,
         Splitter.folders acts = map (Splitter.folder_of base) idxs
         /\ StronglySorted Z.lt idxs
         /\ Forall (fun k => i <= k) idxs.
Proof.
  induction chunks as [|chunk tl IH]; intros i made; cbv zeta;
    cbn [Splitter.create_folders_from].
  - cbn. repeat split; [lia|]. exists []. repeat split; constructor.
  - destruct chunk as [|f chunk'].
    + destruct (IH (i + 1) made) as (H1 & H2 & idxs & H3 & H4 & H5).
      split; [exact H1|]. split; [cbn [List.length]; lia|].
      exists idxs. repeat split; auto.
      eapply Forall_impl; [|exact H5]. cbv beta. intros; lia.
    + set (folder := Splitter.folder_of base i).
      destruct (Splitter.mkdir_ok d folder).
      2:{ cbn. repeat split; [lia|]. exists []. repeat split; constructor. }
      pose proof (copy_chunk_orderly d train folder (folder :: made) (f :: chunk')
                    (or_introl eq_refl)) as [Ho Hf].
      destruct (Splitter.copy_chunk d train folder (f :: chunk')) as [acts e].
      cbn [fst] in Ho, Hf.
      destruct e as [e|].
      * cbn [fst Splitter.orderly]. split; [exact Ho|].
        change (Splitter.folders (Splitter.Make_dir folder :: acts))
          with (folder :: Splitter.folders acts).
        rewrite Hf. split; [cbn; lia|].
        exists [i]. repeat split; repeat constructor. lia.
      * destruct (IH (i + 1) (folder :: made)) as (H1 & H2 & idxs & H3 & H4 & H5).
        destruct (Splitter.create_folders_from d train base (i + 1) tl)
          as [acts' e'].
        cbn [fst] in *. cbn [Splitter.orderly].
        split; [now apply orderly_app|].
        change (Splitter.folders (Splitter.Make_dir folder :: acts ++ acts'))
          with (folder :: Splitter.folders (acts ++ acts')).
        rewrite folders_app, Hf. cbn [app List.length].
        split; [lia|].
        exists (i :: idxs). cbn [map]. rewrite H3.
        split; [reflexivity|]. split.
        -- constructor; [exact H4|].
           eapply Forall_impl; [|exact H5]. cbv beta. intros; lia.
        -- constructor; [lia|].
           eapply Forall_impl; [|exact H5]. cbv beta. intros; lia.
Qed.

Lemma create_folders_from_healthy d train base chunks :
  Splitter.healthy d ->
  forall i,
  exists acts,
    Splitter.create_folders_from d train base i chunks = (acts, None)
    /\ map fst (Splitter.copies acts)
       = map (Splitter.source_of train)
           (filter (fun f => Splitter.exists_file d (Splitter.source_of train f))
              (List.concat chunks)).
Proof.
  intros Hd. induction chunks as [|chunk tl IH]; intros i;
    cbn [Splitter.create_folders_from List.concat].
  - now exists [].
  - destruct chunk as [|f chunk']; [apply IH|].
    destruct Hd as [Hm Hc] eqn:Ed. rewrite Hm. clear Ed.
    destruct (copy_chunk_healthy d train (Splitter.folder_of base i)
                (f :: chunk') (conj Hm Hc)) as (acts & E & Hcp).
    rewrite E. destruct (IH (i + 1)) as (acts' & E' & Hcp'). rewrite E'.
    eexists. split; [reflexivity|].
    change (Splitter.copies (Splitter.Make_dir (Splitter.folder_of base i)
                               :: acts ++ acts'))
      with (Splitter.copies (acts ++ acts')).
    now rewrite copies_app, map_app, Hcp, Hcp', filter_app, map_app.
Qed.

Lemma string_app_inv_tail (s : string) :
  forall t suffix, (s ++ suffix = t ++ suffix)%string -> s = t.
Proof.
  induction s as [|a s IH]; intros [|b t] suffix E; cbn in E.
  - reflexivity.
  - apply (f_equal String.length) in E. cbn in E.
    rewrite string_length_append in E. lia.
  - apply (f_equal String.length) in E. cbn in E.
    rewrite string_length_append in E. lia.
  - injection E as -> E. f_equal. now apply (IH t suffix).
Qed.

Lemma source_of_inj train a b :
  Splitter.source_of train a = Splitter.source_of train b -> a = b.
Proof.
  unfold Splitter.source_of, PathLib.joinpath, Splitter.pdf_name. intros E.
  apply app_inj_tail in E. destruct E as [_ E].
  now apply string_app_inv_tail in E.
Qed.

Lemma NoDup_map_inj {A B} (f : A -> B) l :
  (forall a b, f a = f b -> a = b) -> NoDup l -> NoDup (map f l).
Proof.
  intros Hf. induction 1 as [|x l Hx Hl IH]; cbn [map]; constructor; [|exact IH].
  intros Hin. apply in_map_iff in Hin. destruct Hin as (y & E & Hy).
  apply Hf in E. now subst y.
Qed.

(** X20. On a disk that refuses nothing, [create_folders_and_copy_files]
    runs to its end and copies, in the order of the chunks, exactly the
    entries of the chunks whose file exists in the training directory, one
    copy per entry: no entry is left out, and when no name occurs twice in
    the chunks no file is copied twice (a name listed in two chunks is
    copied once for each). *)
Theorem healthy_disk_copies_each_existing_file d train chunks base :
  Splitter.healthy d ->
  exists acts,
    Splitter.create_folders_and_copy_files d train chunks base = (acts, None)
    /\ map fst (Splitter.copies acts)
       = map (Splitter.source_of train)
           (filter (fun f => Splitter.exists_file d (Splitter.source_of train f))
              (List.concat chunks))
    /\ (NoDup (List.concat chunks) -> NoDup (map fst (Splitter.copies acts))).
Proof.
  intros Hd. unfold Splitter.create_folders_and_copy_files.
  destruct (create_folders_from_healthy d train base chunks Hd 1)
    as (acts & E & Hc).
  exists acts. split; [exact E|]. split; [exact Hc|].
  intros Hn. rewrite Hc.
  apply NoDup_map_inj; [apply source_of_inj|].
  now apply NoDup_filter.
Qed.

Lemma healthy_disk_copies_each_existing_file_witness :
  exists acts,
    Splitter.create_folders_and_copy_files Splitter.sample_disk
      Splitter.train_docs_dir [["a"; "c"]; []; ["e"]] "chunk" = (acts, None)
    /\ map fst (Splitter.copies acts)
       = map (Splitter.source_of Splitter.train_docs_dir)
           (filter (fun f => Splitter.exists_file Splitter.sample_disk
                               (Splitter.source_of Splitter.train_docs_dir f))
              (List.concat [["a"; "c"]; []; ["e"]]))
    /\ (NoDup (List.concat [["a"; "c"]; []; ["e"]]) ->
        NoDup (map fst (Splitter.copies acts))).
Proof.
  apply (healthy_disk_copies_each_existing_file Splitter.sample_disk
           Splitter.train_docs_dir [["a"; "c"]; []; ["e"]] "chunk").
  split; intros; reflexivity.
Defined.

(** X21. Whatever the disk answers, and also when the run is cut short by
    an error, [create_folders_and_copy_files] only copies files that exist,
    each under its own name into a folder it has made before, and it makes
    no folder twice: the folders of different chunks are different. *)
Theorem copies_go_into_folders_made_before d train chunks base :
  let acts := fst (Splitter.create_folders_and_copy_files d train chunks base) in
  Splitter.orderly d [] acts
  /\ NoDup (Splitter.folders acts)
  /\ (List.length (Splitter.folders acts) <= List.length chunks)%nat.
Proof.
  cbv zeta. unfold Splitter.create_folders_and_copy_files.
  destruct (create_folders_from_any d train base chunks 1 [])
    as (H1 & H2 & idxs & H3 & H4 & _).
  split; [exact H1|]. split; [|exact H2].
  rewrite H3. clear H3 H1 H2.
  induction H4 as [|k idxs Hs IH Hk]; cbn [map]; constructor; [|exact IH].
  intros Hin. apply in_map_iff in Hin. destruct Hin as (j & Ej & Hj).
  apply folder_of_inj in Ej. subst j.
  rewrite Forall_forall in Hk. specialize (Hk k Hj). lia.
Qed.

(** ** [main] of the splitter *)

(** The name looked up for the stem of a PDF file is the file's own name,
    except for the file named [.pdf], whose stem is the whole name. *)
Lemma pdf_name_stem dir n :
  PyStr.endswith n ".pdf" = true -> n <> ".pdf" ->
  Splitter.pdf_name (PathLib.stem (PathLib.joinpath dir n)) = n.
Proof.
  intros He Hn. unfold PyStr.endswith in He. cbv zeta in He.
  apply andb_true_iff in He. destruct He as [Hl Hs].
  apply Nat.leb_le in Hl. apply String.eqb_eq in Hs.
  change (String.length ".pdf") with 4%nat in *.
  pose proof (substring_split n (String.length n - 4) ltac:(lia)) as Hsplit.
  replace (String.length n - (String.length n - 4))%nat with 4%nat in Hsplit by lia.
  rewrite Hs in Hsplit.
  remember (String.substring 0 (String.length n - 4) n) as pre eqn:Epre.
  clear Epre Hs Hl.
  assert (pre <> "") as Hpre.
  { intros E. rewrite E in Hsplit. cbn in Hsplit. congruence. }
  subst n.
  change (pre ++ ".pdf")%string with (pre ++ "." ++ "pdf")%string at 1.
  now rewrite (stem_of_stem_ext dir pre "pdf" Hpre).
Qed.

Lemma unprocessed_files_exist listdir d names :
  listdir Splitter.train_docs_dir = Some names ->
  (forall n, In n names ->
     Splitter.exists_file d (PathLib.joinpath Splitter.train_docs_dir n) = true) ->
  ~ In ".pdf" names ->
  forall l,
    incl l (Splitter.get_unprocessed_files listdir Splitter.train_docs_dir
              Splitter.extracted_texts_dir) ->
    filter (fun f => Splitter.exists_file d
                       (Splitter.source_of Splitter.train_docs_dir f)) l = l.
Proof.
  intros Hl Hex Hh l Hi. apply forallb_filter_id. apply forallb_forall.
  intros s Hs. apply Hi in Hs. apply in_get_unprocessed_files in Hs.
  destruct Hs as [Hs _]. unfold Splitter.pdf_stems in Hs. rewrite Hl in Hs.
  apply in_map_iff in Hs. destruct Hs as (p & <- & Hp).
  unfold glob_pdf in Hp. apply in_map_iff in Hp. destruct Hp as (n & <- & Hn).
  apply filter_In in Hn. destruct Hn as [Hn He].
  unfold Splitter.source_of. rewrite pdf_name_stem; [now apply Hex | exact He |].
  intros ->. now apply Hh.
Qed.

(** X22. The whole splitter: when the user answers "y" or "yes" (in any
    letter case), the disk refuses nothing and the files listed in the
    training directory exist (none being named just [.pdf]), [main] copies
    every unprocessed document, once, in ascending order of their names,
    into at most three folders. *)
Theorem confirmed_run_copies_every_unprocessed_file listdir d response names :
  Splitter.healthy d ->
  listdir Splitter.train_docs_dir = Some names ->
  (forall n, In n names ->
     Splitter.exists_file d (PathLib.joinpath Splitter.train_docs_dir n) = true) ->
  ~ In ".pdf" names ->
  In (PyStr.lower response) ["y"; "yes"] ->
  exists acts,
    Splitter.main listdir d response = (acts, None)
    /\ map fst (Splitter.copies acts)
       = map (Splitter.source_of Splitter.train_docs_dir)
           (Splitter.get_unprocessed_files listdir Splitter.train_docs_dir
              Splitter.extracted_texts_dir)
    /\ (List.length (Splitter.folders acts) <= 3)%nat.
Proof.
  intros Hd Hl Hex Hh Hr. unfold Splitter.main. cbv zeta.
  pose proof (unprocessed_files_exist listdir d names Hl Hex Hh) as Hall.
  destruct (Splitter.get_unprocessed_files listdir Splitter.train_docs_dir
              Splitter.extracted_texts_dir) as [|s l] eqn:Eu.
  - exists []. cbn. repeat split. lia.
  - destruct (split_into_chunks_nat (s :: l) 3 ltac:(lia)) as (Hs & Hlen & _).
    rewrite Hs.
    set (chunks := map _ (seq 0 (Z.to_nat 3))) in *.
    assert (List.concat chunks = s :: l) as Hc.
    { subst chunks. rewrite concat_chunks_from. cbn [Nat.mul skipn].
      apply firstn_all2. exact Hlen. }
    assert (existsb (String.eqb (PyStr.lower response)) ["y"; "yes"] = true) as ->
        by now apply existsb_eqb_in.
    destruct (create_folders_from_healthy d Splitter.train_docs_dir "chunk" chunks Hd 1)
      as (acts & E & Hcp).
    unfold Splitter.create_folders_and_copy_files. rewrite E.
    exists (Splitter.Ask_confirmation :: acts).
    split; [reflexivity|]. split.
    + change (Splitter.copies (Splitter.Ask_confirmation :: acts))
        with (Splitter.copies acts).
      rewrite Hcp, Hc. f_equal. apply Hall. apply incl_refl.
    + change (Splitter.folders (Splitter.Ask_confirmation :: acts))
        with (Splitter.folders acts).
      pose proof (create_folders_from_any d Splitter.train_docs_dir "chunk"
                    chunks 1 []) as (_ & H2 & _).
      rewrite E in H2. cbn [fst] in H2.
      subst chunks. rewrite length_map, length_seq in H2. exact H2.
Qed.

Lemma confirmed_run_copies_every_unprocessed_file_witness :
  exists acts,
    Splitter.main Splitter.sample_listing Splitter.sample_disk "Yes" = (acts, None)
    /\ map fst (Splitter.copies acts)
       = map (Splitter.source_of Splitter.train_docs_dir)
           (Splitter.get_unprocessed_files Splitter.sample_listing
              Splitter.train_docs_dir Splitter.extracted_texts_dir)
    /\ (List.length (Splitter.folders acts) <= 3)%nat.
Proof.
  apply (confirmed_run_copies_every_unprocessed_file Splitter.sample_listing
           Splitter.sample_disk "Yes"
           ["e.pdf"; "b.pdf"; "a.pdf"; "d.pdf"; "readme.md"; "c.pdf"]).
  - split; intros; reflexivity.
  - reflexivity.
  - intros; reflexivity.
  - cbn [In]. intros H. repeat destruct H as [H|H]; try discriminate; exact H.
  - vm_compute. tauto.
Defined.

(** X23. Without the user's consent nothing is touched: whatever the disk
    and the directories hold, an answer other than "y" or "yes" (in any
    letter case) makes [main] create no folder and copy no file, and the
    user is asked only when there is an unprocessed document. *)
Theorem nothing_is_copied_without_consent listdir d response :
  ~ In (PyStr.lower response) ["y"; "yes"] ->
  let unprocessed :=
    Splitter.get_unprocessed_files listdir Splitter.train_docs_dir
      Splitter.extracted_texts_dir in
  Splitter.main listdir d response
  = (match unprocessed with [] => [] | _ :: _ => [Splitter.Ask_confirmation] end,
     None).
Proof.
  intros Hr. cbv zeta. unfold Splitter.main. cbv zeta.
  destruct (Splitter.get_unprocessed_files listdir Splitter.train_docs_dir
              Splitter.extracted_texts_dir) as [|s l]; [reflexivity|].
  destruct (split_into_chunks_nat (s :: l) 3 ltac:(lia)) as (Hs & _).
  rewrite Hs.
  destruct (existsb (String.eqb (PyStr.lower response)) ["y"; "yes"]) eqn:E.
  - exfalso. apply Hr. now apply existsb_eqb_in.
  - reflexivity.
Qed.

Lemma nothing_is_copied_without_consent_witness :
  Splitter.main Splitter.sample_listing Splitter.sample_disk "n"
  = ([Splitter.Ask_confirmation], None).
Proof.
  apply (nothing_is_copied_without_consent Splitter.sample_listing
           Splitter.sample_disk "n").
  vm_compute. intros [H|[H|H]]; try discriminate; exact H.
Defined.

(** * Properties of the EasyOCR extractor *)

Lemma converted_app a b :
  EasyOcr.converted (a ++ b) = EasyOcr.converted a ++ EasyOcr.converted b.
Proof. unfold EasyOcr.converted. apply flat_map_app. Qed.

Lemma saved_files_app a b :
  EasyOcr.saved_files (a ++ b) = EasyOcr.saved_files a ++ EasyOcr.saved_files b.
Proof. unfold EasyOcr.saved_files. apply flat_map_app. Qed.

(** The page loop converts and saves nothing. *)
Lemma read_pages_quiet pdf pages :
  forall i acc,
    EasyOcr.converted (fst (EasyOcr.read_pages pdf i pages acc)) = []
    /\ EasyOcr.saved_files (fst (EasyOcr.read_pages pdf i pages acc)) = [].
Proof.
  induction pages as [|[e|text] tl IH]; intros i acc; cbn [EasyOcr.read_pages].
  - now split.
  - now split.
  - cbv zeta. specialize (IH (i + 1) (((acc ++ [EasyOcr.header i]) ++ text)
                                        ++ [PyStr.newline])).
    destruct (EasyOcr.read_pages pdf (i + 1) tl _) as [evs r].
    exact IH.
Qed.

(** With every page readable, the page loop collects, after the lines it
    started with, a header, the paragraphs and a line break for each page. *)
Lemma read_pages_readable pdf pages :
  forall i acc,
    forallb EasyOcr.readable pages = true ->
    snd (EasyOcr.read_pages pdf i pages acc)
    = inr (acc ++ EasyOcr.page_lines i (map EasyOcr.paragraphs pages)).
Proof.
  induction pages as [|[e|text] tl IH]; intros i acc Hr;
    cbn [EasyOcr.read_pages map EasyOcr.page_lines EasyOcr.paragraphs].
  - cbn. now rewrite app_nil_r.
  - discriminate.
  - cbv zeta. cbn [forallb EasyOcr.readable andb] in Hr.
    specialize (IH (i + 1) (((acc ++ [EasyOcr.header i]) ++ text)
                              ++ [PyStr.newline]) Hr).
    destruct (EasyOcr.read_pages pdf (i + 1) tl _) as [evs r].
    cbn [snd] in *. rewrite IH. f_equal.
    rewrite <- !app_assoc. reflexivity.
Qed.

(** A page that fails in the reader ends the page loop with its exception. *)
Lemma read_pages_unreadable pdf pages :
  forall i acc,
    forallb EasyOcr.readable pages = false ->
    exists e, snd (EasyOcr.read_pages pdf i pages acc) = inl e.
Proof.
  induction pages as [|[e|text] tl IH]; intros i acc Hr;
    cbn [EasyOcr.read_pages].
  - discriminate.
  - now exists e.
  - cbv zeta. cbn [forallb EasyOcr.readable andb] in Hr.
    specialize (IH (i + 1) (((acc ++ [EasyOcr.header i]) ++ text)
                              ++ [PyStr.newline]) Hr).
    destruct (EasyOcr.read_pages pdf (i + 1) tl _) as [evs r].
    exact IH.
Qed.

(** One step of the file loop, by the three kinds of document. *)
Lemma process_files_cons w dir out f tl :
  let rest := EasyOcr.process_files w dir out tl in
  (EasyOcr.clean w dir f = false ->
   exists evs e,
     EasyOcr.process_files w dir out (f :: tl)
     = (EasyOcr.Convert (PathLib.joinpath dir f) :: evs, Some e)
     /\ EasyOcr.converted evs = [] /\ EasyOcr.saved_files evs = [])
  /\ (EasyOcr.clean w dir f = true ->
      exists evs,
        EasyOcr.process_files w dir out (f :: tl)
        = (EasyOcr.Convert (PathLib.joinpath dir f) :: evs ++ fst rest, snd rest)
        /\ EasyOcr.converted evs = []
        /\ (forall pages,
              EasyOcr.convert_from_path w (PathLib.joinpath dir f) = inr pages ->
              EasyOcr.saved_files evs
              = if EasyOcr.open_ok w (EasyOcr.txt_file_path out f)
                then [(EasyOcr.txt_file_path out f,
                       PyStr.join PyStr.newline
                         (EasyOcr.page_lines 0 (map EasyOcr.paragraphs pages)))]
                else [])
        /\ (forall p data, In (p, data) (EasyOcr.saved_files evs) ->
                           p = EasyOcr.txt_file_path out f)).
Proof.
  cbv zeta. unfold EasyOcr.clean. cbn [EasyOcr.process_files]. cbv zeta.
  destruct (EasyOcr.convert_from_path w (PathLib.joinpath dir f))
    as [e|pages] eqn:Ec.
  - split; [discriminate|]. intros _.
    destruct (EasyOcr.process_files w dir out tl) as [evs r].
    exists []. cbn [app fst snd]. split; [reflexivity|].
    split; [reflexivity|]. split.
    + intros pages [=].
    + intros p data [].
  - pose proof (read_pages_quiet (PathLib.joinpath dir f) pages 0 []) as [Hq1 Hq2].
    split; intros Hc.
    + destruct (read_pages_unreadable (PathLib.joinpath dir f) pages 0 [] Hc)
        as [e He].
      destruct (EasyOcr.read_pages (PathLib.joinpath dir f) 0 pages [])
        as [evs1 r1].
      cbn [fst snd] in *. subst r1. now exists evs1, e.
    + pose proof (read_pages_readable (PathLib.joinpath dir f) pages 0 [] Hc)
        as He.
      destruct (EasyOcr.read_pages (PathLib.joinpath dir f) 0 pages [])
        as [evs1 r1].
      cbn [fst snd app] in *. subst r1.
      destruct (EasyOcr.process_files w dir out tl) as [evs r].
      cbn [fst snd].
      destruct (EasyOcr.open_ok w (EasyOcr.txt_file_path out f)).
      * exists (evs1 ++ [EasyOcr.Save (EasyOcr.txt_file_path out f)
                           (PyStr.join PyStr.newline
                              (EasyOcr.page_lines 0
                                 (map EasyOcr.paragraphs pages)))]).
        rewrite <- !app_assoc. split; [reflexivity|].
        rewrite converted_app, saved_files_app, Hq1, Hq2. cbn.
        split; [reflexivity|]. split.
        -- intros pages' [= <-]. reflexivity.
        -- intros p data [[= <- _]|[]]. reflexivity.
      * exists evs1. cbn [app]. split; [reflexivity|].
        rewrite Hq1, Hq2. split; [reflexivity|]. split.
        -- intros pages' _. reflexivity.
        -- intros p data [].
Qed.


(** Every file saved belongs to a clean document of the list. *)
Lemma process_files_saved w dir out files :
  forall p data,
    In (p, data) (EasyOcr.saved_files (fst (EasyOcr.process_files w dir out files))) ->
    exists g, In g files /\ EasyOcr.clean w dir g = true
              /\ p = EasyOcr.txt_file_path out g.
Proof.
  induction files as [|f tl IH]; intros p data Hin; [destruct Hin|].
  destruct (EasyOcr.clean w dir f) eqn:Hf.
  - destruct (proj2 (process_files_cons w dir out f tl) Hf)
      as (evs & E & _ & _ & Hs).
    rewrite E in Hin. cbn [fst] in Hin.
    change (EasyOcr.saved_files (EasyOcr.Convert (PathLib.joinpath dir f)
              :: evs ++ fst (EasyOcr.process_files w dir out tl)))
      with (EasyOcr.saved_files (evs ++ fst (EasyOcr.process_files w dir out tl)))
      in Hin.
    rewrite saved_files_app in Hin. apply in_app_or in Hin.
    destruct Hin as [Hin|Hin].
    + exists f. split; [now left|]. split; [exact Hf|]. now apply (Hs p data).
    + destruct (IH p data Hin) as (g & Hg & Hc & Hp).
      exists g. split; [now right|]. now split.
  - destruct (proj1 (process_files_cons w dir out f tl) Hf)
      as (evs & e & E & _ & Hs).
    rewrite E in Hin. cbn [fst] in Hin.
    change (EasyOcr.saved_files (EasyOcr.Convert (PathLib.joinpath dir f) :: evs))
      with (EasyOcr.saved_files evs) in Hin.
    rewrite Hs in Hin. destruct Hin.
Qed.

(** The documents after one with a failing page play no part. *)
Lemma process_files_cut w dir out pre f post :
  forallb (EasyOcr.clean w dir) pre = true ->
  EasyOcr.clean w dir f = false ->
  EasyOcr.process_files w dir out (pre ++ f :: post)
  = EasyOcr.process_files w dir out (pre ++ [f])
  /\ (exists e, snd (EasyOcr.process_files w dir out (pre ++ [f])) = Some e)
  /\ EasyOcr.converted (fst (EasyOcr.process_files w dir out (pre ++ [f])))
     = map (PathLib.joinpath dir) (pre ++ [f]).
Proof.
  intros Hp Hf. induction pre as [|g pre IH]; cbn [app].
  - destruct (proj1 (process_files_cons w dir out f post) Hf)
      as (evs & e & E & Hq & _).
    destruct (proj1 (process_files_cons w dir out f []) Hf)
      as (evs' & e' & E' & _).
    assert (EasyOcr.process_files w dir out (f :: post)
            = EasyOcr.process_files w dir out [f]) as Heq.
    { clear E E'. cbn [EasyOcr.process_files]. cbv zeta.
      unfold EasyOcr.clean in Hf.
      destruct (EasyOcr.convert_from_path w (PathLib.joinpath dir f))
        as [e0|pages]; [discriminate|].
      destruct (read_pages_unreadable (PathLib.joinpath dir f) pages 0 [] Hf)
        as [e0 He].
      destruct (EasyOcr.read_pages (PathLib.joinpath dir f) 0 pages [])
        as [evs1 r1].
      cbn [snd] in He. subst r1. reflexivity. }
    split; [exact Heq|]. rewrite <- Heq, E. cbn [fst snd map].
    split; [now exists e|].
    cbn [EasyOcr.converted flat_map app]. fold (EasyOcr.converted evs).
    now rewrite Hq.
  - cbn [forallb] in Hp. apply andb_true_iff in Hp. destruct Hp as [Hg Hp].
    destruct (IH Hp) as (IH1 & IH2 & IH3).
    destruct (proj2 (process_files_cons w dir out g (pre ++ f :: post)) Hg)
      as (evs & E & Hq & Hs & _).
    destruct (proj2 (process_files_cons w dir out g (pre ++ [f])) Hg)
      as (evs' & E' & Hq' & Hs' & _).
    assert (EasyOcr.process_files w dir out (g :: pre ++ f :: post)
            = EasyOcr.process_files w dir out (g :: pre ++ [f])) as Heq.
    { clear E E'. cbn [EasyOcr.process_files]. cbv zeta. rewrite IH1.
      reflexivity. }
    split; [exact Heq|]. rewrite E'. cbn [fst snd map].
    split; [exact IH2|].
    cbn [EasyOcr.converted flat_map app].
    fold (EasyOcr.converted
            (evs' ++ fst (EasyOcr.process_files w dir out (pre ++ [f])))).
    now rewrite converted_app, Hq', IH3.
Qed.

(** The file of a readable document is saved once the loop reaches it. *)
Lemma process_files_saves w dir out pre f post pages :
  forallb (EasyOcr.clean w dir) pre = true ->
  EasyOcr.convert_from_path w (PathLib.joinpath dir f) = inr pages ->
  forallb EasyOcr.readable pages = true ->
  EasyOcr.open_ok w (EasyOcr.txt_file_path out f) = true ->
  In (EasyOcr.txt_file_path out f,
      PyStr.join PyStr.newline (EasyOcr.page_lines 0 (map EasyOcr.paragraphs pages)))
     (EasyOcr.saved_files
        (fst (EasyOcr.process_files w dir out (pre ++ f :: post)))).
Proof.
  intros Hp Hc Hr Ho.
  assert (EasyOcr.clean w dir f = true) as Hf
      by (unfold EasyOcr.clean; now rewrite Hc).
  induction pre as [|g pre IH]; cbn [app].
  - destruct (proj2 (process_files_cons w dir out f post) Hf)
      as (evs & E & _ & Hs & _).
    rewrite E. cbn [fst].
    change (EasyOcr.saved_files (EasyOcr.Convert (PathLib.joinpath dir f)
              :: evs ++ fst (EasyOcr.process_files w dir out post)))
      with (EasyOcr.saved_files (evs ++ fst (EasyOcr.process_files w dir out post))).
    rewrite saved_files_app, (Hs pages Hc), Ho. now left.
  - cbn [forallb] in Hp. apply andb_true_iff in Hp. destruct Hp as [Hg Hp].
    destruct (proj2 (process_files_cons w dir out g (pre ++ f :: post)) Hg)
      as (evs & E & _).
    rewrite E. cbn [fst].
    change (EasyOcr.saved_files (EasyOcr.Convert (PathLib.joinpath dir g)
              :: evs ++ fst (EasyOcr.process_files w dir out (pre ++ f :: post))))
      with (EasyOcr.saved_files
              (evs ++ fst (EasyOcr.process_files w dir out (pre ++ f :: post)))).
    rewrite saved_files_app. apply in_or_app. right. now apply IH.
Qed.

(** The batch is the file loop on the selected names, once the output
    directory, the reader and the listing are there. *)
Lemma batch_is_file_loop w dir out names :
  EasyOcr.makedirs_ok w out = true -> EasyOcr.reader w = None ->
  EasyOcr.listdir w dir = Some names ->
  EasyOcr.pdfs_to_easyocr_text w dir out
  = (EasyOcr.Make_dirs out
       :: fst (EasyOcr.process_files w dir out (EasyOcr.select_pdf_files names)),
     snd (EasyOcr.process_files w dir out (EasyOcr.select_pdf_files names))).
Proof.
  intros Hm Hr Hl. unfold EasyOcr.pdfs_to_easyocr_text.
  rewrite Hm, Hr, Hl. cbv zeta.
  destruct (EasyOcr.select_pdf_files names) as [|f tl]; [reflexivity|].
  now destruct (EasyOcr.process_files w dir out (f :: tl)).
Qed.

(** X24. A readable document is saved with one block per page: if no page
    of the documents listed before it fails in the reader, a document whose
    pages are all read and whose output file can be opened is saved under
    its base name, and the text saved is, for each page in order, the line
    "--- Page k ---" (k from 1), the paragraphs of the page and a line
    break, all joined by line breaks.  Earlier documents that could not be
    converted or saved do not prevent it. *)
Theorem readable_document_is_saved w dir out names pre f post pages :
  EasyOcr.makedirs_ok w out = true -> EasyOcr.reader w = None ->
  EasyOcr.listdir w dir = Some names ->
  EasyOcr.select_pdf_files names = pre ++ f :: post ->
  forallb (EasyOcr.clean w dir) pre = true ->
  EasyOcr.convert_from_path w (PathLib.joinpath dir f) = inr pages ->
  forallb EasyOcr.readable pages = true ->
  EasyOcr.open_ok w (EasyOcr.txt_file_path out f) = true ->
  In (EasyOcr.txt_file_path out f,
      PyStr.join PyStr.newline
        (EasyOcr.page_lines 0 (map EasyOcr.paragraphs pages)))
     (EasyOcr.saved_files (fst (EasyOcr.pdfs_to_easyocr_text w dir out))).
Proof.
  intros Hm Hr Hl Hs Hp Hc Hrd Ho.
  rewrite (batch_is_file_loop w dir out names Hm Hr Hl), Hs. cbn [fst].
  change (EasyOcr.saved_files (EasyOcr.Make_dirs out :: ?l))
    with (EasyOcr.saved_files l).
  now apply process_files_saves.
Qed.

Lemma readable_document_is_saved_witness :
  In (["out"; "a.txt"],
      PyStr.join PyStr.newline
        ["--- Page 1 ---"; "A1"; "A2"; PyStr.newline;
         "--- Page 2 ---"; "A3"; PyStr.newline])
     (EasyOcr.saved_files
        (fst (EasyOcr.pdfs_to_easyocr_text EasyOcr.sample_batch ["in"] ["out"]))).
Proof.
  apply (readable_document_is_saved EasyOcr.sample_batch ["in"] ["out"]
           ["a.pdf"; "b.PDF"; "notes.txt"; "c.pdf"; "d.pdf"]
           [] "a.pdf" ["b.PDF"; "c.pdf"; "d.pdf"]
           [inr ["A1"; "A2"]; inr ["A3"]]); reflexivity.
Defined.

(** X25. A page that fails in the reader ends the whole batch: the
    exception leaves [pdfs_to_easyocr_text], the documents listed after the
    failing one are never handed to the converter, and nothing is saved for
    the failing document or for any later one. *)
Theorem reader_failure_ends_the_batch w dir out names pre f post :
  EasyOcr.makedirs_ok w out = true -> EasyOcr.reader w = None ->
  EasyOcr.listdir w dir = Some names ->
  EasyOcr.select_pdf_files names = pre ++ f :: post ->
  forallb (EasyOcr.clean w dir) pre = true ->
  EasyOcr.clean w dir f = false ->
  exists tr e,
    EasyOcr.pdfs_to_easyocr_text w dir out = (tr, Some e)
    /\ EasyOcr.converted tr = map (PathLib.joinpath dir) (pre ++ [f])
    /\ (forall p data, In (p, data) (EasyOcr.saved_files tr) ->
          exists g, In g pre /\ p = EasyOcr.txt_file_path out g).
Proof.
  intros Hm Hr Hl Hs Hp Hf.
  rewrite (batch_is_file_loop w dir out names Hm Hr Hl), Hs.
  destruct (process_files_cut w dir out pre f post Hp Hf) as (Hcut & [e He] & Hc).
  rewrite Hcut. eexists. exists e. split; [now rewrite He|]. split.
  - exact Hc.
  - intros p data Hin.
    change (EasyOcr.saved_files (EasyOcr.Make_dirs out :: ?l))
      with (EasyOcr.saved_files l) in Hin.
    apply process_files_saved in Hin. destruct Hin as (g & Hg & Hcl & ->).
    exists g. split; [|reflexivity].
    apply in_app_or in Hg. destruct Hg as [Hg|[<-|[]]]; [exact Hg|].
    congruence.
Qed.

Lemma reader_failure_ends_the_batch_witness :
  exists tr e,
    EasyOcr.pdfs_to_easyocr_text EasyOcr.sample_batch ["in"] ["out"] = (tr, Some e)
    /\ EasyOcr.converted tr
       = map (PathLib.joinpath ["in"]) (["a.pdf"; "b.PDF"] ++ ["c.pdf"])
    /\ (forall p data, In (p, data) (EasyOcr.saved_files tr) ->
          exists g, In g ["a.pdf"; "b.PDF"]
                    /\ p = EasyOcr.txt_file_path ["out"] g).
Proof.
  apply (reader_failure_ends_the_batch EasyOcr.sample_batch ["in"] ["out"]
           ["a.pdf"; "b.PDF"; "notes.txt"; "c.pdf"; "d.pdf"]
           ["a.pdf"; "b.PDF"] "c.pdf" ["d.pdf"]); reflexivity.
Defined.



Lemma lower_append (a b : string) :
  PyStr.lower (a ++ b) = (PyStr.lower a ++ PyStr.lower b)%string.
Proof. induction a as [|c a IH]; cbn; [reflexivity | now rewrite IH]. Qed.

(** A name that ends with a suffix is a stem followed by the suffix. *)
Lemma endswith_split n suffix :
  PyStr.endswith n suffix = true ->
  exists pre, n = (pre ++ suffix)%string.
Proof.
  unfold PyStr.endswith. cbv zeta. intros He.
  apply andb_true_iff in He. destruct He as [Hl Hs].
  apply Nat.leb_le in Hl. apply String.eqb_eq in Hs.
  pose proof (substring_split n (String.length n - String.length suffix)
                ltac:(lia)) as Hsplit.
  replace (String.length n - (String.length n - String.length suffix))%nat
    with (String.length suffix) in Hsplit by lia.
  rewrite Hs in Hsplit. eexists. exact Hsplit.
Qed.

(** X27. The EasyOCR batch selects every document the Typhoon walker
    selects: a name matched by the pattern [*.pdf] also passes the
    case-insensitive test, so the documents of [glob_pdf] are among the
    selected ones. *)
Theorem walker_documents_are_selected dir names p :
  In p (glob_pdf dir names) ->
  In p (map (PathLib.joinpath dir) (EasyOcr.select_pdf_files names)).
Proof.
  intros Hp. unfold glob_pdf in Hp. apply in_map_iff in Hp.
  destruct Hp as (n & <- & Hn). apply in_map.
  apply filter_In in Hn. destruct Hn as [Hn He].
  apply filter_In. split; [exact Hn|].
  destruct (endswith_split n ".pdf" He) as [pre ->].
  rewrite lower_append. apply (endswith_append (PyStr.lower pre) ".pdf").
Qed.

Lemma walker_documents_are_selected_witness :
  In ["in"; "c.pdf"]
     (map (PathLib.joinpath ["in"])
        (EasyOcr.select_pdf_files ["a.pdf"; "b.PDF"; "notes.txt"; "c.pdf"])).
Proof.
  apply (walker_documents_are_selected ["in"]
           ["a.pdf"; "b.PDF"; "notes.txt"; "c.pdf"] ["in"; "c.pdf"]).
  vm_compute. tauto.
Defined.

Lemma all_dots_false_nonempty s : EasyOcr.all_dots s = false -> s <> "".
Proof. now destruct s. Qed.

(** X28. The two extractors name the output file alike: for a document
    named [<stem>.pdf] whose stem is not made of dots only, the file saved
    by the EasyOCR batch is the file written by the Typhoon extractor for
    the same output directory. *)
Theorem extractors_share_output_names dir out (stem_ : string) :
  EasyOcr.all_dots stem_ = false ->
  EasyOcr.txt_file_path out (stem_ ++ ".pdf")
  = output_path (PathLib.joinpath dir (stem_ ++ ".pdf")) out.
Proof.
  intros Hd. unfold EasyOcr.txt_file_path, output_path. f_equal. f_equal.
  change (stem_ ++ ".pdf")%string with (stem_ ++ "." ++ "pdf")%string.
  rewrite (stem_of_stem_ext dir stem_ "pdf");
    [| now apply all_dots_false_nonempty | discriminate | reflexivity].
  unfold EasyOcr.splitext_root.
  rewrite (rfind_dot_append_ext stem_ "pdf" eq_refl).
  now rewrite substring_prefix_append, Hd.
Qed.

Lemma extractors_share_output_names_witness :
  EasyOcr.txt_file_path ["out"] ("report.v2" ++ ".pdf")
  = output_path (PathLib.joinpath ["in"] ("report.v2" ++ ".pdf")) ["out"].
Proof.
  apply (extractors_share_output_names ["in"] ["out"] "report.v2").
  reflexivity.
Defined.

(** * The output file against the specification *)

(** C1. The claim fails on the code at this input.  The backend returns
    three pages, the second being the string "2024", which decodes as a
    JSON number, and then the end-of-document error.  The parser raises on
    the second response ([parsed.get] on a number; only [JSONDecodeError] is
    caught), the page is handled as a page error, and the file written
    holds "A" and "C" only, whereas the non-empty texts seen, with the raw
    string used for a response that is not structured, are "A", "2024" and
    "C". *)
Theorem number_page_is_missing_from_the_file :
  let pre := [page "A"; Returns (Json_str "2024" (JInt 2024)); page "C"] in
  let r := Error "Page 4 not found" in
  let run :=
    extract_pdf_multipage permissive_fs (pre ++ [r]) ["in"; "doc.pdf"] ["out"] in
  snd run = Returned In_loop (Some ["out"; "doc.txt"])
  /\ map snd (calls (fst run)) = pre ++ [r]
  /\ writes (fst run)
     = [(["out"; "doc.txt"], PyStr.join PyStr.blank_line ["A"; "C"])]
  /\ spec_texts_of pre = ["A"; "2024"; "C"]
  /\ PyStr.join PyStr.blank_line ["A"; "C"]
     <> PyStr.join PyStr.blank_line (spec_texts_of pre).
Proof.
  cbv zeta. split; [vm_compute; reflexivity|].
  split; [vm_compute; reflexivity|].
  split; [vm_compute; reflexivity|].
  split; [vm_compute; reflexivity|].
  vm_compute. discriminate.
Qed.
